(** * Text extraction and field parsing of the purchase-request register

    A shallow embedding of the extraction core of [streamlit_app.py]:
    [normalize_text], [find_after], [to_int_num], [docx_to_text],
    [pdf_to_text], [extract_text_any] and [extract_fields].

    Python values are modelled as follows.
    - [str] is a list of Unicode code points ([N]); [bytes] is a list of
      [Byte.byte].
    - The regular expressions of the program are written as syntax trees
      ([Re.regex]) and run by a backtracking matcher that lists the ways
      a pattern matches in the priority order of CPython's [sre] engine
      (greedy repeats give their longest match first).
    - The Unicode tables the [re] and [str] primitives consult
      (decimal digits, alphanumerics, case-insensitive comparison) are a
      parameter ([Ucd.t]); [Ucd14.db] is the instance of Unicode 14.0.
    - Optional libraries (python-docx, pdfplumber, pytesseract, pdf2image)
      and [zipfile] are capabilities of an environment; a call either
      returns a value or raises an [Exception].  Calls that the claims
      observe and the Streamlit messages are recorded in a trace. *)

From Stdlib Require Import List NArith ZArith Lia Bool Arith.
From Stdlib.Strings Require String Ascii Byte.
Import ListNotations String.StringSyntax.

Set Implicit Arguments.
Open Scope string_scope.
Open Scope list_scope.

(** ** Python strings *)

Module Py.

Definition char := N.
Definition str := list char.
Definition bytes := list Byte.byte.

Definition nl : char := 0x0A%N.
Definition tab : char := 0x09%N.
Definition sp : char := 0x20%N.

(** [str.isspace] on one character, also the class [\s] of [re] on [str]
    patterns (both are [Py_UNICODE_ISSPACE]). *)
Definition isspace (c : char) : bool :=
  ((0x09 <=? c) && (c <=? 0x0D) || (0x1C <=? c) && (c <=? 0x20)
   || (c =? 0x85) || (c =? 0xA0) || (c =? 0x1680)
   || (0x2000 <=? c) && (c <=? 0x200A)
   || (c =? 0x2028) || (c =? 0x2029) || (c =? 0x202F) || (c =? 0x205F)
   || (c =? 0x3000))%N.

Fixpoint lstrip (s : str) : str :=
  match s with
  | c :: s' => if isspace c then lstrip s' else s
  | [] => []
  end.

Definition rstrip (s : str) : str := rev (lstrip (rev s)).

(** [s.strip()] *)
Definition strip (s : str) : str := rstrip (lstrip s).

(** [s.split(sep)] for a one-character separator. *)
Fixpoint split (sep : char) (s : str) : list str :=
  match s with
  | [] => [[]]
  | c :: s' =>
      if (c =? sep)%N then [] :: split sep s'
      else match split sep s' with
           | h :: t => (c :: h) :: t
           | [] => [[c]]
           end
  end.

(** [sep.join(parts)] *)
Fixpoint join (sep : str) (parts : list str) : str :=
  match parts with
  | [] => []
  | [p] => p
  | p :: ps => p ++ sep ++ join sep ps
  end.

(** [bytes.decode("utf-8", errors="ignore")]: well-formed sequences are
    decoded, every ill-formed range CPython reports is dropped. A
    sequence cut by the end of the data is dropped as a whole; an invalid
    start byte, or the bytes of a sequence up to an invalid continuation
    byte, are dropped and decoding resumes at the next byte. *)
Definition is_cont (b : N) : bool := ((0x80 <=? b) && (b <=? 0xBF))%N.

(** Second byte of a 3-byte sequence: E0 excludes overlong forms, ED
    excludes surrogates. *)
Definition ok2_of3 (b1 b2 : N) : bool :=
  (is_cont b2 && negb ((b1 =? 0xE0) && (b2 <? 0xA0))
             && negb ((b1 =? 0xED) && (0x9F <? b2)))%N.

(** Second byte of a 4-byte sequence: F0 excludes overlong forms, F4
    excludes code points above U+10FFFF. *)
Definition ok2_of4 (b1 b2 : N) : bool :=
  (is_cont b2 && negb ((b1 =? 0xF0) && (b2 <? 0x90))
             && negb ((b1 =? 0xF4) && (0x8F <? b2)))%N.

Definition low6 (b : N) : N := N.land b 0x3F.

Fixpoint decode_utf8_ignore (bs : list N) : str :=
  match bs with
  | [] => []
  | b1 :: t1 =>
      if (b1 <? 0x80)%N then b1 :: decode_utf8_ignore t1
      else if (b1 <? 0xC2)%N then decode_utf8_ignore t1
      else if (b1 <? 0xE0)%N then
        match t1 with
        | [] => []
        | b2 :: t2 =>
            if is_cont b2
            then (N.shiftl (N.land b1 0x1F) 6 + low6 b2)%N
                   :: decode_utf8_ignore t2
            else decode_utf8_ignore t1
        end
      else if (b1 <? 0xF0)%N then
        match t1 with
        | [] => []
        | b2 :: t2 =>
            if ok2_of3 b1 b2 then
              match t2 with
              | [] => []
              | b3 :: t3 =>
                  if is_cont b3
                  then (N.shiftl (N.land b1 0x0F) 12
                        + N.shiftl (low6 b2) 6 + low6 b3)%N
                         :: decode_utf8_ignore t3
                  else decode_utf8_ignore t2
              end
            else decode_utf8_ignore t1
        end
      else if (b1 <? 0xF5)%N then
        match t1 with
        | [] => []
        | b2 :: t2 =>
            if ok2_of4 b1 b2 then
              match t2 with
              | [] => []
              | b3 :: t3 =>
                  if is_cont b3 then
                    match t3 with
                    | [] => []
                    | b4 :: t4 =>
                        if is_cont b4
                        then (N.shiftl (N.land b1 0x07) 18
                              + N.shiftl (low6 b2) 12
                              + N.shiftl (low6 b3) 6 + low6 b4)%N
                               :: decode_utf8_ignore t4
                        else decode_utf8_ignore t3
                    end
                  else decode_utf8_ignore t2
              end
            else decode_utf8_ignore t1
        end
      else decode_utf8_ignore t1
  end.

Definition decode (b : bytes) : str :=
  decode_utf8_ignore (map Byte.to_N b).

(** A Python string literal of the source, written as UTF-8 text. *)
Definition lit (s : String.string) : str :=
  decode (String.list_byte_of_string s).

(** A literal of several lines, for texts with ["\n"] in them. *)
Definition lines (l : list String.string) : str := join [nl] (map lit l).

End Py.

Import Py.


(** ** Exceptions *)

(** An exception of class [Exception] with the text [str(e)]. *)
Inductive exn := Exception (msg : str).

Definition exn_str (e : exn) : str := match e with Exception m => m end.

Inductive result (A : Type) :=
| Ok (a : A)
| Raise (e : exn).

Arguments Ok {A} a.
Arguments Raise {A} e.

(** ** The Unicode tables of the runtime *)

Module Ucd.

Record t := {
  (** [Py_UNICODE_TODECIMAL]: the value of a decimal digit; the class
      [\d] of [re] is its domain. *)
  decimal : char -> option N;
  (** Characters with a digit value that are not decimal digits
      (superscripts, circled digits): [str.isdigit] accepts them,
      [\d] and [int] do not. *)
  digit_extra : char -> bool;
  (** [Py_UNICODE_ISALNUM] *)
  alnum : char -> bool;
  (** [ci_eq c x]: the pattern literal [c] matches the character [x]
      under [re.IGNORECASE]. *)
  ci_eq : char -> char -> bool
}.

Definition isdecimal (U : t) (c : char) : bool :=
  match decimal U c with Some _ => true | None => false end.

Definition isdigit (U : t) (c : char) : bool :=
  isdecimal U c || digit_extra U c.

(** The class [\w]. *)
Definition isword (U : t) (c : char) : bool :=
  alnum U c || (c =? 0x5F)%N.

End Ucd.

(** ** Regular expressions *)

Module Re.

(** The constructs the program's patterns are made of. Repeats apply to
    one-character classes only, as in every pattern of the source. *)
Inductive regex :=
| Emp
| Chr (p : char -> bool)
| Rep (p : char -> bool) (lo : nat) (hi : option nat)
| Cat (r1 r2 : regex)
| Grp (r : regex).

Definition seq (rs : list regex) : regex := fold_right Cat Emp rs.

Definition more (hi : option nat) : bool :=
  match hi with Some 0 => false | _ => true end.

Definition dec (hi : option nat) : option nat := option_map pred hi.

(** The remainders a greedy repeat [p{lo,hi}] can leave, the longest
    match first. *)
Fixpoint reps (p : char -> bool) (lo : nat) (hi : option nat) (s : str)
  : list str :=
  match s with
  | c :: s' =>
      if p c && more hi then reps p (pred lo) (dec hi) s' else []
  | [] => []
  end ++ match lo with 0 => [s] | S _ => [] end.

(** The part of [s] a match that leaves [rest] has consumed. *)
Definition consumed (s rest : str) : str :=
  firstn (length s - length rest) s.

(** Every way [r] matches a prefix of [s], in the order the backtracking
    engine tries them: the groups captured (outermost, leftmost first)
    and the text left. *)
Fixpoint run (r : regex) (s : str) : list (list str * str) :=
  match r with
  | Emp => [([], s)]
  | Chr p =>
      match s with
      | c :: s' => if p c then [([], s')] else []
      | [] => []
      end
  | Rep p lo hi => map (fun rest => ([], rest)) (reps p lo hi s)
  | Cat r1 r2 =>
      flat_map (fun m1 => map (fun m2 => (fst m1 ++ fst m2, snd m2))
                              (run r2 (snd m1)))
               (run r1 s)
  | Grp r' => map (fun m => (consumed s (snd m) :: fst m, snd m)) (run r' s)
  end.

(** A match object: the text before the match, group 0 followed by the
    numbered groups, and the text after the match. *)
Record match_obj := {
  before : str;
  groups : list str;
  after : str
}.

(** [m.group(i)] *)
Definition group (m : match_obj) (i : nat) : str := nth i (groups m) [].

Fixpoint search_from (r : regex) (pre_rev : str) (s : str)
  : option match_obj :=
  match run r s with
  | m :: _ =>
      Some {| before := rev pre_rev;
              groups := consumed s (snd m) :: fst m;
              after := snd m |}
  | [] =>
      match s with
      | [] => None
      | c :: s' => search_from r (c :: pre_rev) s'
      end
  end.

(** [re.search(r, s)]: the first match at the leftmost position that has
    one. *)
Definition search (r : regex) (s : str) : option match_obj :=
  search_from r [] s.

(** [re.sub(r, repl, s)] for a replacement without group references.
    [skip] counts the characters of the current match still to be passed
    over. An empty match copies the character after it. *)
Fixpoint sub_from (r : regex) (repl : str) (skip : nat) (s : str) : str :=
  match s with
  | [] =>
      match skip, run r [] with
      | 0, _ :: _ => repl
      | _, _ => []
      end
  | c :: s' =>
      match skip with
      | S k => sub_from r repl k s'
      | 0 =>
          match run r s with
          | m :: _ =>
              match length s - length (snd m) with
              | 0 => repl ++ c :: sub_from r repl 0 s'
              | S k => repl ++ sub_from r repl k s'
              end
          | [] => c :: sub_from r repl 0 s'
          end
      end
  end.

Definition sub (r : regex) (repl : str) (s : str) : str :=
  sub_from r repl 0 s.

(** The texts a pattern denotes. *)
Definition within (hi : option nat) (n : nat) : Prop :=
  match hi with Some h => n <= h | None => True end.

Inductive matches : regex -> str -> Prop :=
| MEmp : matches Emp []
| MChr p c : p c = true -> matches (Chr p) [c]
| MRep p lo hi u :
    Forall (fun c => p c = true) u -> lo <= length u ->
    within hi (length u) -> matches (Rep p lo hi) u
| MCat r1 r2 u v :
    matches r1 u -> matches r2 v -> matches (Cat r1 r2) (u ++ v)
| MGrp r u : matches r u -> matches (Grp r) u.

End Re.

Import Re.

(** ** Utilities of the program *)

Fixpoint str_eqb (a b : str) : bool :=
  match a, b with
  | [], [] => true
  | x :: a', y :: b' => (x =? y)%N && str_eqb a' b'
  | _, _ => false
  end.

(** Truth value of [s.strip()]: the text has a non-blank character. *)
Definition nonblank (s : str) : bool :=
  match strip s with [] => false | _ :: _ => true end.

Definition is_blank_char (c : char) : bool := ((c =? sp) || (c =? tab))%N.
Definition is_nl (c : char) : bool := (c =? nl)%N.

(** The pattern [[ \t]+]. *)
Definition re_blanks : regex := Rep is_blank_char 1 None.

(** The pattern [\n{2,}]. *)
Definition re_newlines : regex := Rep is_nl 2 None.

Definition normalize_text (t : str) : str :=
  let t := sub re_blanks [sp] t in
  let t := strip (sub re_newlines [nl] t) in
  t.

(** The class [[:\-]]. *)
Definition is_colon_dash (c : char) : bool := ((c =? 0x3A) || (c =? 0x2D))%N.

(** The class [.] (without [re.DOTALL]). *)
Definition is_dot (c : char) : bool := negb (c =? nl)%N.

Section Fields.

Variable U : Ucd.t.

(** [re.escape(label)] compiled under [re.IGNORECASE]: the characters of
    the label, each matched as a literal without regard to case. *)
Definition re_label (label : str) : regex :=
  seq (map (fun c => Chr (Ucd.ci_eq U c)) label).

(** The pattern [rf"{re.escape(label)}\s*[:\-]?\s*(.+)"]. *)
Definition re_find_after (label : str) : regex :=
  seq [re_label label; Rep isspace 0 None; Rep is_colon_dash 0 (Some 1);
       Rep isspace 0 None; Grp (Rep is_dot 1 None)].

(** [find_after(label, text, maxlen)]; [flags] keeps its default
    [re.IGNORECASE] in every call of the program. [maxlen] is a natural
    number: every call of the program leaves it at its default 400. A
    negative [maxlen], for which the slice [val[:maxlen]] counts from the
    end of [val], is outside this definition. *)
Definition find_after (label text : str) (maxlen : nat) : str :=
  let pattern := re_find_after label in
  match search pattern text with
  | Some m =>
      let val := strip (nth 0 (split nl (strip (group m 1))) []) in
      firstn maxlen val
  | None => []
  end.

(** The pattern [[^\d]]. *)
Definition re_non_digit : regex := Chr (fun c => negb (Ucd.isdecimal U c)).

(** [s.isdigit()] *)
Definition str_isdigit (s : str) : bool :=
  match s with [] => false | _ :: _ => forallb (Ucd.isdigit U) s end.

Fixpoint digits_value (acc : Z) (s : str) : option Z :=
  match s with
  | [] => Some acc
  | c :: s' =>
      match Ucd.decimal U c with
      | Some d => digits_value (10 * acc + Z.of_N d) s'
      | None => None
      end
  end.

(** [sys.get_int_max_str_digits()] *)
Definition int_max_str_digits : nat := 4300.

(** [int(s)] on a text of digit characters, the only kind the program
    converts: a [ValueError] for a character without a decimal value and
    for a text longer than the conversion limit. *)
Definition int (s : str) : result Z :=
  if length s <=? int_max_str_digits then
    match s, digits_value 0 s with
    | _ :: _, Some n => Ok n
    | _, _ => Raise (Exception (lit "invalid literal for int()"))
    end
  else Raise (Exception (lit "Exceeds the limit (4300 digits)")).

(** [to_int_num(s)]; [None] stands for Python's [None] on both sides. *)
Definition to_int_num (s : option str) : result (option Z) :=
  match s with
  | None | Some [] => Ok None
  | Some s =>
      let s := sub re_non_digit [] s in
      if str_isdigit s then
        match int s with
        | Ok n => Ok (Some n)
        | Raise e => Raise e
        end
      else Ok None
  end.

(** The values of the field mapping. *)
Inductive value :=
| VStr (s : str)
| VInt (n : Z)
| VNone.

(** A [dict] with [str] keys, in insertion order. *)
Definition dict := list (str * value).

Fixpoint dict_get (d : dict) (k : str) : option value :=
  match d with
  | [] => None
  | (k', v) :: d' => if str_eqb k' k then Some v else dict_get d' k
  end.

Definition of_optional_int (n : option Z) : value :=
  match n with Some z => VInt z | None => VNone end.

(** The pattern [(\d{1,2}\s+de\s+\w+\s+de\s+\d{4})] under
    [re.IGNORECASE]. *)
Definition re_date : regex :=
  Grp (seq [Rep (Ucd.isdecimal U) 1 (Some 2); Rep isspace 1 None;
            re_label (lit "de"); Rep isspace 1 None;
            Rep (Ucd.isword U) 1 None; Rep isspace 1 None;
            re_label (lit "de"); Rep isspace 1 None;
            Rep (Ucd.isdecimal U) 4 (Some 4)]).

Definition extract_fields (text : str) : result dict :=
  let t := normalize_text text in
  let m_date := search re_date t in
  let fecha_doc := match m_date with Some m => group m 1 | None => [] end in
  let nombre := find_after (lit "NOMBRE") t 400 in
  let unidad := find_after (lit "REQUIRENTE (UNIDAD)") t 400 in
  let objetivo := find_after (lit "OBJETIVO") t 400 in
  match to_int_num (Some (find_after (lit "MONTO ESTIMADO") t 400)) with
  | Raise e => Raise e
  | Ok monto_est =>
      Ok [(lit "Fecha Documento", VStr fecha_doc);
          (lit "Solicitante (Nombre)", VStr nombre);
          (lit "Unidad Requirente", VStr unidad);
          (lit "Objetivo", VStr objetivo);
          (lit "Monto Estimado", of_optional_int monto_est)]
  end.

End Fields.

(** ** Text extraction *)

(** The object handed to [docx_to_text]: the [io.BytesIO] the program
    builds, with its read position, or a plain byte string. *)
Inductive file_like :=
| BytesIO (buf : bytes) (pos : nat)
| RawBytes (b : bytes).

(** [file_like.read() if hasattr(file_like, "read") else file_like]: a
    stream gives the bytes from its position on. *)
Definition read_all (f : file_like) : bytes :=
  match f with
  | BytesIO buf pos => skipn pos buf
  | RawBytes b => b
  end.

(** What the program reads of a document python-docx has opened: the
    text of each paragraph, and for each table its rows of cell texts. *)
Record docx_document := {
  paragraphs : list str;
  tables : list (list (list str))
}.

Section Extract.

(** A page of a PDF pdfplumber has opened, and a page image made by
    pdf2image. *)
Variables page image : Type.

(** The capabilities of the environment. A soft import that failed
    leaves [None].
    - [_docx]: [_docx.Document(file_like)] and the reading of all its
      paragraphs and tables; also gives the stream as the reader left it.
    - [_pdfplumber]: [_pdfplumber.open(io.BytesIO(raw))] and [pdf.pages].
      Leaving the [with] block closes the document and does not raise.
    - [extract_text]: [page.extract_text()], a text or [None].
    - [_convert_from_bytes]: [_convert_from_bytes(raw, dpi=dpi)].
    - [_pytesseract]: [_pytesseract.image_to_string(img, lang=lang)].
    - [zip_read]: [zipfile.ZipFile(io.BytesIO(raw))] and [z.read(name)]. *)
Record env := {
  _docx : option (file_like -> result docx_document * file_like);
  _pdfplumber : option (bytes -> result (list page));
  extract_text : page -> result (option str);
  _convert_from_bytes : option (bytes -> N -> result (list image));
  _pytesseract : option (image -> str -> result str);
  zip_read : bytes -> str -> result bytes
}.

(** What a run leaves behind: the messages shown through Streamlit
    ([st.warning], [st.error]; showing a message does not raise) and the
    calls made to the OCR capability. *)
Inductive event :=
| StWarning (msg : str)
| StError (msg : str)
| Rasterize (raw : bytes) (dpi : N)
| Recognize (img : image) (lang : str).

(** A computation that records events and returns or raises. *)
Definition M (A : Type) : Type := (list event * result A)%type.

Definition ret {A} (a : A) : M A := ([], Ok a).

Definition bind {A B} (m : M A) (f : A -> M B) : M B :=
  match m with
  | (w, Ok a) => let (w', r) := f a in (w ++ w', r)
  | (w, Raise e) => (w, Raise e)
  end.

(** [try: m except Exception as e: h e] *)
Definition try_except {A} (m : M A) (h : exn -> M A) : M A :=
  match m with
  | (w, Raise e) => let (w', r) := h e in (w ++ w', r)
  | (w, Ok a) => (w, Ok a)
  end.

Definition emit (ev : event) : M unit := ([ev], Ok tt).

Definition call {A} (r : result A) : M A := ([], r).

Notation "x <- m ;; k" := (bind m (fun x => k))
  (at level 61, m at next level, right associativity).
Notation "m ;;; k" := (bind m (fun _ => k))
  (at level 61, right associativity).

Fixpoint for_each {A B} (f : A -> M B) (l : list A) : M (list B) :=
  match l with
  | [] => ret []
  | a :: l' => b <- f a ;; bs <- for_each f l' ;; ret (b :: bs)
  end.

Variable E : env.

(** The pattern [</w:p>]. *)
Definition re_p_close : regex :=
  seq (map (fun c => Chr (N.eqb c)) (lit "</w:p>")).

(** The pattern [<[^>]+>]. *)
Definition re_tag : regex :=
  seq [Chr (N.eqb 0x3C); Rep (fun c => negb (c =? 0x3E)%N) 1 None;
       Chr (N.eqb 0x3E)].

(** The pattern [\s+\n]. *)
Definition re_space_nl : regex := seq [Rep isspace 1 None; Chr is_nl].

(** The lines the primary DOCX reader collects in [parts]. *)
Definition docx_parts (document : docx_document) : list str :=
  paragraphs document
  ++ flat_map (fun t => map (fun row => join (lit " | ") (map strip row)) t)
              (tables document).

(** The fallback DOCX reader, the body of the second [try]. *)
Definition docx_zip_xml (file_like : file_like) : M str :=
  let raw := read_all file_like in
  xml <- call (zip_read E raw (lit "word/document.xml")) ;;
  let xml := decode xml in
  let xml := sub re_p_close [nl] xml in
  let text := sub re_tag [] xml in
  let text := sub re_space_nl [nl] text in
  ret text.

(** The first [if] block of [docx_to_text]: the text when python-docx
    read the document ([return] inside the [try]), [None] when the
    library is missing or raised; and the stream as it was left. *)
Definition docx_to_text_primary (f : file_like) : M (option str * file_like) :=
  match _docx E with
  | Some Document =>
      let (opened, f') := Document f in
      try_except
        (document <- call opened ;;
         ret (Some (join [nl] (docx_parts document)), f'))
        (fun e =>
           emit (StWarning
                   (lit "No se pudo leer DOCX con python-docx: "
                    ++ exn_str e)) ;;;
           ret (None, f'))
  | None => ret (None, f)
  end.

(** [docx_to_text(file_like)] *)
Definition docx_to_text (f : file_like) : M str :=
  first <- docx_to_text_primary f ;;
  match first with
  | (Some text, _) => ret text
  | (None, f') =>
      try_except (docx_zip_xml f')
        (fun e =>
           emit (StError
                   (lit "No se pudo leer el DOCX (fallback ZIP/XML): "
                    ++ exn_str e)) ;;;
           ret [])
  end.

(** [page.extract_text() or ""] *)
Definition or_empty (t : option str) : str :=
  match t with Some s => s | None => [] end.

(** The first [if] block of [pdf_to_text]: the joined text of the pages
    when it is not blank ([return] inside the [try]), [None] when
    pdfplumber is missing, raised, or gave blank text. *)
Definition pdf_to_text_layout (raw_bytes : bytes) : M (option str) :=
  match _pdfplumber E with
  | Some open =>
      try_except
        (pdf <- call (open raw_bytes) ;;
         pages <- for_each (fun p => t <- call (extract_text E p) ;;
                                     ret (or_empty t)) pdf ;;
         let txt := join [nl] pages in
         if nonblank txt then ret (Some txt) else ret None)
        (fun e =>
           emit (StWarning (lit "pdfplumber falló: " ++ exn_str e)) ;;;
           ret None)
  | None => ret None
  end.

(** The second [if] block of [pdf_to_text] and the final [return ""]. *)
Definition pdf_to_text_ocr (raw_bytes : bytes) : M str :=
  match _pytesseract E, _convert_from_bytes E with
  | Some image_to_string, Some convert_from_bytes =>
      try_except
        (emit (Rasterize raw_bytes 300) ;;;
         images <- call (convert_from_bytes raw_bytes 300%N) ;;
         out <- for_each
                  (fun img =>
                     emit (Recognize img (lit "spa+eng")) ;;;
                     call (image_to_string img (lit "spa+eng")))
                  images ;;
         ret (join [nl] out))
        (fun e =>
           emit (StWarning (lit "OCR falló: " ++ exn_str e)) ;;;
           ret [])
  | _, _ => ret []
  end.

(** [pdf_to_text(raw_bytes)] *)
Definition pdf_to_text (raw_bytes : bytes) : M str :=
  first <- pdf_to_text_layout raw_bytes ;;
  match first with
  | Some txt => ret txt
  | None => pdf_to_text_ocr raw_bytes
  end.

Definition is_some {A} (o : option A) : bool :=
  match o with Some _ => true | None => false end.

(** [extract_text_any(file_bytes, ext)] *)
Definition extract_text_any (file_bytes : bytes) (ext : str)
  : M (str * list str) :=
  let logs : list str := [] in
  if str_eqb ext (lit "docx") then
    text <- docx_to_text (BytesIO file_bytes 0) ;;
    let logs := logs ++ [lit "DOCX leído (python-docx o fallback ZIP/XML)."] in
    let logs :=
      if negb (nonblank text)
      then logs ++ [lit "No se pudo extraer texto del DOCX."]
      else logs in
    ret (text, logs)
  else if str_eqb ext (lit "pdf") then
    let logs :=
      if is_some (_pdfplumber E)
      then logs ++ [lit "Intentando PDF digital con pdfplumber…"]
      else logs ++ [lit "pdfplumber no disponible; intentaré OCR…"] in
    let logs :=
      if is_some (_pytesseract E) && is_some (_convert_from_bytes E)
      then logs ++ [lit "OCR disponible (pytesseract + pdf2image)."]
      else logs ++ [lit "OCR NO disponible. Revisa requirements.txt y packages.txt."] in
    text <- pdf_to_text file_bytes ;;
    if nonblank text
    then ret (text, logs ++ [lit "Texto extraído (digital u OCR)."])
    else ret ([], logs ++ [lit "No se pudo extraer texto (ni pdfplumber ni OCR)."])
  else ret ([], [lit "Extensión no soportada."]).

End Extract.

Arguments StWarning {image} msg.
Arguments StError {image} msg.
Arguments Rasterize {image} raw dpi.
Arguments Recognize {image} img lang.
Arguments ret {image A} a.
Arguments call {image A} r.

(** [is_ocr ev]: the event is a call to the OCR capability. *)
Definition is_ocr {image : Type} (ev : event image) : bool :=
  match ev with
  | Rasterize _ _ | Recognize _ _ => true
  | StWarning _ | StError _ => false
  end.

(** ** Outcomes of the extraction stages *)

Section Outcomes.

Variables page image : Type.
Variable E : env page image.

(** The computation returns a value: it does not raise. *)
Definition returns {A : Type} (m : M image A) : Prop :=
  exists w a, m = (w, Ok a).

(** No event of the trace is a call to the OCR capability. *)
Definition no_ocr (w : list (event image)) : Prop :=
  forall ev, In ev w -> is_ocr ev = false.

(** The primary DOCX reader is missing, or it raises; [f'] is the stream
    it leaves and [w] the warning it causes. *)
Definition primary_fails (f f' : file_like) (w : list (event image)) : Prop :=
  (_docx E = None /\ f' = f /\ w = [])
  \/ exists Document e,
       _docx E = Some Document /\ Document f = (Raise e, f') /\
       w = [StWarning (lit "No se pudo leer DOCX con python-docx: "
                       ++ exn_str e)].

(** Every page of [pages] gives its text without raising. *)
Definition pages_text (pages : list page) (texts : list (option str)) : Prop :=
  Forall2 (fun p t => extract_text E p = Ok t) pages texts.

(** The layout-aware stage is unavailable, or it raises (when the
    document is opened or at one of its pages), or the text of the pages
    is blank. *)
Definition layout_falls_through (raw : bytes) : Prop :=
  _pdfplumber E = None
  \/ (exists open e, _pdfplumber E = Some open /\ open raw = Raise e)
  \/ (exists open done p todo texts e,
        _pdfplumber E = Some open /\ open raw = Ok (done ++ p :: todo) /\
        pages_text done texts /\ extract_text E p = Raise e)
  \/ (exists open pages texts,
        _pdfplumber E = Some open /\ open raw = Ok pages /\
        pages_text pages texts /\
        nonblank (join [nl] (map or_empty texts)) = false).

End Outcomes.

(** The log entries that report a failed extraction. *)
Definition failure_messages : list str :=
  [lit "No se pudo extraer texto del DOCX.";
   lit "No se pudo extraer texto (ni pdfplumber ni OCR).";
   lit "Extensión no soportada."].

(** The keys of the field mapping. *)
Definition field_keys : list str :=
  [lit "Fecha Documento"; lit "Solicitante (Nombre)";
   lit "Unidad Requirente"; lit "Objetivo"; lit "Monto Estimado"].

(** ** Sample environments

    Pages stand for the text pdfplumber finds on them, page images for
    the text the recogniser reads from them. *)

Definition raising {A B : Type} (msg : String.string) (_ : A) : result B :=
  Raise (Exception (lit msg)).

(** No optional library is installed and the file is no archive. *)
Definition env_bare : env (option str) str :=
  {| _docx := None;
     _pdfplumber := None;
     extract_text := fun p => Ok p;
     _convert_from_bytes := None;
     _pytesseract := None;
     zip_read := fun _ => raising "File is not a zip file" |}.

(** A PDF with a text layer of three pages, the second one empty. *)
Definition env_digital : env (option str) str :=
  {| _docx := None;
     _pdfplumber :=
       Some (fun _ => Ok [Some (lit "Solicitud"); None; Some (lit "NOMBRE: Ana")]);
     extract_text := fun p => Ok p;
     _convert_from_bytes := Some (fun _ _ => Ok [lit "x"]);
     _pytesseract := Some (fun img _ => Ok img);
     zip_read := fun _ => raising "File is not a zip file" |}.

(** A scanned PDF of two pages: no text layer, the recogniser reads the
    first page and finds nothing on the second. *)
Definition env_scanned : env (option str) str :=
  {| _docx := None;
     _pdfplumber := Some (fun _ => Ok [None; None]);
     extract_text := fun p => Ok p;
     _convert_from_bytes :=
       Some (fun _ dpi => if (dpi =? 300)%N
                          then Ok [lit "OBJETIVO: sillas"; []]
                          else raising "dpi" tt);
     _pytesseract :=
       Some (fun img lang => if str_eqb lang (lit "spa+eng")
                             then Ok img else raising "lang" tt);
     zip_read := fun _ => raising "File is not a zip file" |}.

(** A scanned PDF on a machine where pdfplumber fails and the OCR
    program is not on the path. *)
Definition env_broken_ocr : env (option str) str :=
  {| _docx := None;
     _pdfplumber := Some (raising "No /Root object");
     extract_text := fun p => Ok p;
     _convert_from_bytes := Some (fun _ _ => Ok [lit "x"]);
     _pytesseract := Some (fun _ => raising "tesseract is not installed");
     zip_read := fun _ => raising "File is not a zip file" |}.

(** A DOCX python-docx reads: two paragraphs and a table of two rows. *)
Definition env_docx : env (option str) str :=
  {| _docx :=
       Some (fun f =>
               (Ok {| paragraphs := [lit "Solicitud"; lit "NOMBRE: Ana"];
                      tables := [[[lit " Item "; lit "Monto"];
                                  [lit "Sillas"; lit " 1000 "]]] |}, f));
     _pdfplumber := None;
     extract_text := fun p => Ok p;
     _convert_from_bytes := None;
     _pytesseract := None;
     zip_read := fun _ => raising "File is not a zip file" |}.

(** A DOCX python-docx rejects after reading the stream to its end; the
    archive reader serves the bytes it is given as [word/document.xml]. *)
Definition env_docx_fallback : env (option str) str :=
  {| _docx :=
       Some (fun f =>
               (raising "Package not found" tt,
                match f with
                | BytesIO buf _ => BytesIO buf (length buf)
                | RawBytes b => RawBytes b
                end));
     _pdfplumber := None;
     extract_text := fun p => Ok p;
     _convert_from_bytes := None;
     _pytesseract := None;
     zip_read := fun raw name =>
                   if str_eqb name (lit "word/document.xml")
                   then Ok raw else raising "KeyError" tt |}.

(** A DOCX python-docx rejects without moving the stream. *)
Definition env_docx_fallback_rewound : env (option str) str :=
  {| _docx := Some (fun f => (raising "Package not found" tt, f));
     _pdfplumber := None;
     extract_text := fun p => Ok p;
     _convert_from_bytes := None;
     _pytesseract := None;
     zip_read := fun raw name =>
                   if str_eqb name (lit "word/document.xml")
                   then Ok raw else raising "KeyError" tt |}.

(** A DOCX of [size] bytes that python-docx rejects after it has read
    the stream up to its last [left] bytes. The bytes of the whole file
    are an archive with the entry [word/document.xml]; fewer bytes are no
    archive. *)
Definition env_docx_stream_read (size left : nat) : env (option str) str :=
  {| _docx :=
       Some (fun f =>
               (raising "Package not found" tt,
                match f with
                | BytesIO buf _ => BytesIO buf (length buf - left)
                | RawBytes b => RawBytes b
                end));
     _pdfplumber := None;
     extract_text := fun p => Ok p;
     _convert_from_bytes := None;
     _pytesseract := None;
     zip_read := fun raw name =>
                   if length raw <? size
                   then raising "File is not a zip file" tt
                   else if str_eqb name (lit "word/document.xml")
                        then Ok raw else raising "KeyError" tt |}.

(** The bytes of a text given as UTF-8. *)
Definition utf8 (s : String.string) : bytes := String.list_byte_of_string s.


(** ** Descriptions the program is compared with *)

(** Every maximal run of characters of the class [p] becomes the single
    character [one]. *)
Fixpoint squeeze (p : char -> bool) (one : char) (s : str) : str :=
  match s with
  | [] => []
  | c :: s' =>
      if p c then
        match s' with
        | d :: _ => if p d then squeeze p one s' else one :: squeeze p one s'
        | [] => [one]
        end
      else c :: squeeze p one s'
  end.

(** [stops p s]: the text [s] does not go on with a character of [p]. *)
Definition stops (p : char -> bool) (s : str) : Prop :=
  match s with c :: _ => p c = false | [] => True end.

(** No two neighbours in [s] are both of the class [p]. *)
Fixpoint no_adj (p : char -> bool) (s : str) : bool :=
  match s with
  | [] => true
  | a :: s' =>
      match s' with b :: _ => negb (p a && p b) | [] => true end
      && no_adj p s'
  end.

(** The text up to the first line break. *)
Fixpoint first_line (s : str) : str :=
  match s with
  | [] => []
  | c :: s' => if is_nl c then [] else c :: first_line s'
  end.

(** [first_match r t m]: [m] is a substring of [t] that matches [r], and
    no substring that matches [r] starts further left. *)
Definition first_match (r : regex) (t m : str) : Prop :=
  exists pre post,
    t = pre ++ m ++ post /\ matches r m /\
    forall pre' m' post',
      t = pre' ++ m' ++ post' -> matches r m' -> length pre <= length pre'.

Definition no_match (r : regex) (t : str) : Prop :=
  forall pre m post, t = pre ++ m ++ post -> ~ matches r m.

(** The part of the [find_after] pattern that follows the label:
    [\s*[:\-]?\s*(.+)]. *)
Definition re_capture : regex :=
  seq [Rep isspace 0 None; Rep is_colon_dash 0 (Some 1);
       Rep isspace 0 None; Grp (Rep is_dot 1 None)].

(** The characters [isspace] accepts. *)
Definition whitespace_chars : list char :=
  [0x09; 0x0A; 0x0B; 0x0C; 0x0D; 0x1C; 0x1D; 0x1E; 0x1F; 0x20; 0x85; 0xA0;
   0x1680; 0x2000; 0x2001; 0x2002; 0x2003; 0x2004; 0x2005; 0x2006; 0x2007;
   0x2008; 0x2009; 0x200A; 0x2028; 0x2029; 0x202F; 0x205F; 0x3000]%N.

(** Tables in which no whitespace character is a decimal digit, a word
    character or a form of the letter d, as in Unicode. *)
Definition separates (U : Ucd.t) : Prop :=
  forall c, isspace c = true ->
            Ucd.isdecimal U c = false /\ Ucd.isword U c = false /\
            Ucd.ci_eq U 0x64%N c = false.

(** [x] starts with a character of the class [q]. *)
Definition starts_with (q : char -> bool) (x : str) : Prop :=
  exists c x', x = c :: x' /\ q c = true.

(** [determined r K]: in front of a text that satisfies [K], the pattern
    [r] matches at most one prefix. *)
Definition determined (r : regex) (K : str -> Prop) : Prop :=
  forall u1 u2 x1 x2,
    matches r u1 -> matches r u2 -> u1 ++ x1 = u2 ++ x2 -> K x1 -> K x2 ->
    u1 = u2.

(** Every match of [r] starts with a character of the class [q]. *)
Definition begins (r : regex) (q : char -> bool) : Prop :=
  forall u, matches r u -> starts_with q u.

Section Labels.

Variable U : Ucd.t.

(** The text after [label] when [s] starts with it, case ignored. *)
Fixpoint ci_prefix (label s : str) : option str :=
  match label, s with
  | [], _ => Some s
  | c :: label', x :: s' =>
      if Ucd.ci_eq U c x then ci_prefix label' s' else None
  | _ :: _, [] => None
  end.

(** The text after the first occurrence of [label] in [text]. *)
Fixpoint after_label (label text : str) : option str :=
  match ci_prefix label text with
  | Some rest => Some rest
  | None =>
      match text with
      | [] => None
      | _ :: text' => after_label label text'
      end
  end.

(** Whitespace, one optional colon or dash, and whitespace again are
    passed over. *)
Definition after_separator (r : str) : str :=
  match lstrip r with
  | c :: r' => if is_colon_dash c then lstrip r' else c :: r'
  | [] => []
  end.


(** The decimal digits of a text and the number they write. *)
Definition digits_of (s : str) : str := filter (Ucd.isdecimal U) s.

Definition digit_val (c : char) : Z :=
  match Ucd.decimal U c with Some d => Z.of_N d | None => 0 end.

Definition number_of (ds : str) : Z :=
  fold_left (fun acc c => 10 * acc + digit_val c)%Z ds 0%Z.

(** The value [extract_fields(text)] gives for a key. *)
Definition field (text key : str) : option value :=
  match extract_fields U text with
  | Ok d => dict_get d key
  | Raise _ => None
  end.

End Labels.



(** ** Descriptions for further properties *)

(** An OCR call as [pdf_to_text] makes it on the bytes [raw]: the
    document itself rasterised at 300 DPI, a page image recognised with
    the languages spa+eng. Other events pass. *)
Definition ocr_call_ok {image : Type} (raw : bytes) (ev : event image) : Prop :=
  match ev with
  | Rasterize r dpi => r = raw /\ dpi = 300%N
  | Recognize _ lang => lang = lit "spa+eng"
  | StWarning _ | StError _ => True
  end.

(** The event is a message, not a call. *)
Definition is_message {image : Type} (ev : event image) : Prop :=
  match ev with
  | StWarning _ | StError _ => True
  | Rasterize _ _ | Recognize _ _ => False
  end.

(** Every event of the computation satisfies [P]. *)
Definition traced {image A : Type} (P : event image -> Prop) (m : M image A)
  : Prop :=
  Forall P (fst m).

(** The pattern matches no empty text. *)
Definition never_empty (r : regex) : Prop :=
  forall m, matches r m -> m <> [].

(** A markup tag starts [s]: a [<], at least one character other than
    [>], and a [>]. *)
Definition tag_at (s : str) : Prop :=
  exists u rest,
    s = 0x3C%N :: u ++ 0x3E%N :: rest /\ u <> [] /\
    Forall (fun c => negb (c =? 0x3E)%N = true) u.

(** No markup tag starts anywhere in [t]. *)
Definition tag_free (t : str) : Prop :=
  forall pre s, t = pre ++ s -> ~ tag_at s.

(** No line break of [t] follows a whitespace character. *)
Definition no_space_before_nl (t : str) : Prop :=
  forall pre x post, t = pre ++ x :: nl :: post -> isspace x = false.

(** The text holds no line break. *)
Definition one_line (s : str) : Prop := Forall (fun c => is_nl c = false) s.

(** The digit values of the tables are below ten, as in Unicode. *)
Definition decimal_below_ten (U : Ucd.t) : Prop :=
  forall c d, Ucd.decimal U c = Some d -> (d < 10)%N.

(** ** The tables of Unicode 14.0

    The character database of CPython 3.11, as ranges of code points. *)

Module Ucd14.

Definition in_ranges (tbl : list (N * N)) (c : char) : bool :=
  existsb (fun r => (fst r <=? c) && (c <=? snd r))%N tbl.

(** Decimal digits (category Nd). Every range is made of blocks of ten
    consecutive characters with the values 0 to 9. *)
Definition decimal_ranges : list (N * N) :=
  [
   (0x30, 0x39); (0x660, 0x669); (0x6F0, 0x6F9); (0x7C0, 0x7C9);
  (0x966, 0x96F); (0x9E6, 0x9EF); (0xA66, 0xA6F); (0xAE6, 0xAEF);
  (0xB66, 0xB6F); (0xBE6, 0xBEF); (0xC66, 0xC6F); (0xCE6, 0xCEF);
  (0xD66, 0xD6F); (0xDE6, 0xDEF); (0xE50, 0xE59); (0xED0, 0xED9);
  (0xF20, 0xF29); (0x1040, 0x1049); (0x1090, 0x1099); (0x17E0, 0x17E9);
  (0x1810, 0x1819); (0x1946, 0x194F); (0x19D0, 0x19D9); (0x1A80, 0x1A89);
  (0x1A90, 0x1A99); (0x1B50, 0x1B59); (0x1BB0, 0x1BB9); (0x1C40, 0x1C49);
  (0x1C50, 0x1C59); (0xA620, 0xA629); (0xA8D0, 0xA8D9); (0xA900, 0xA909);
  (0xA9D0, 0xA9D9); (0xA9F0, 0xA9F9); (0xAA50, 0xAA59); (0xABF0, 0xABF9);
  (0xFF10, 0xFF19); (0x104A0, 0x104A9); (0x10D30, 0x10D39);
  (0x11066, 0x1106F); (0x110F0, 0x110F9); (0x11136, 0x1113F);
  (0x111D0, 0x111D9); (0x112F0, 0x112F9); (0x11450, 0x11459);
  (0x114D0, 0x114D9); (0x11650, 0x11659); (0x116C0, 0x116C9);
  (0x11730, 0x11739); (0x118E0, 0x118E9); (0x11950, 0x11959);
  (0x11C50, 0x11C59); (0x11D50, 0x11D59); (0x11DA0, 0x11DA9);
  (0x16A60, 0x16A69); (0x16AC0, 0x16AC9); (0x16B50, 0x16B59);
  (0x1D7CE, 0x1D7FF); (0x1E140, 0x1E149); (0x1E2F0, 0x1E2F9);
  (0x1E950, 0x1E959); (0x1FBF0, 0x1FBF9)
  ]%N.

Fixpoint decimal_in (tbl : list (N * N)) (c : char) : option N :=
  match tbl with
  | [] => None
  | (lo, hi) :: tbl' =>
      if ((lo <=? c) && (c <=? hi))%N then Some ((c - lo) mod 10)%N
      else decimal_in tbl' c
  end.

(** Characters [str.isdigit] accepts that are not decimal digits. *)
Definition digit_extra_ranges : list (N * N) :=
  [
   (0xB2, 0xB3); (0xB9, 0xB9); (0x1369, 0x1371); (0x19DA, 0x19DA);
  (0x2070, 0x2070); (0x2074, 0x2079); (0x2080, 0x2089); (0x2460, 0x2468);
  (0x2474, 0x247C); (0x2488, 0x2490); (0x24EA, 0x24EA); (0x24F5, 0x24FD);
  (0x24FF, 0x24FF); (0x2776, 0x277E); (0x2780, 0x2788); (0x278A, 0x2792);
  (0x10A40, 0x10A43); (0x10E60, 0x10E68); (0x11052, 0x1105A);
  (0x1F100, 0x1F10A)
  ]%N.

(** Characters [str.isalnum] accepts. *)
Definition alnum_ranges : list (N * N) :=
  [
   (0x30, 0x39); (0x41, 0x5A); (0x61, 0x7A); (0xAA, 0xAA); (0xB2, 0xB3);
  (0xB5, 0xB5); (0xB9, 0xBA); (0xBC, 0xBE); (0xC0, 0xD6); (0xD8, 0xF6);
  (0xF8, 0x2C1); (0x2C6, 0x2D1); (0x2E0, 0x2E4); (0x2EC, 0x2EC);
  (0x2EE, 0x2EE); (0x370, 0x374); (0x376, 0x377); (0x37A, 0x37D);
  (0x37F, 0x37F); (0x386, 0x386); (0x388, 0x38A); (0x38C, 0x38C);
  (0x38E, 0x3A1); (0x3A3, 0x3F5); (0x3F7, 0x481); (0x48A, 0x52F);
  (0x531, 0x556); (0x559, 0x559); (0x560, 0x588); (0x5D0, 0x5EA);
  (0x5EF, 0x5F2); (0x620, 0x64A); (0x660, 0x669); (0x66E, 0x66F);
  (0x671, 0x6D3); (0x6D5, 0x6D5); (0x6E5, 0x6E6); (0x6EE, 0x6FC);
  (0x6FF, 0x6FF); (0x710, 0x710); (0x712, 0x72F); (0x74D, 0x7A5);
  (0x7B1, 0x7B1); (0x7C0, 0x7EA); (0x7F4, 0x7F5); (0x7FA, 0x7FA);
  (0x800, 0x815); (0x81A, 0x81A); (0x824, 0x824); (0x828, 0x828);
  (0x840, 0x858); (0x860, 0x86A); (0x870, 0x887); (0x889, 0x88E);
  (0x8A0, 0x8C9); (0x904, 0x939); (0x93D, 0x93D); (0x950, 0x950);
  (0x958, 0x961); (0x966, 0x96F); (0x971, 0x980); (0x985, 0x98C);
  (0x98F, 0x990); (0x993, 0x9A8); (0x9AA, 0x9B0); (0x9B2, 0x9B2);
  (0x9B6, 0x9B9); (0x9BD, 0x9BD); (0x9CE, 0x9CE); (0x9DC, 0x9DD);
  (0x9DF, 0x9E1); (0x9E6, 0x9F1); (0x9F4, 0x9F9); (0x9FC, 0x9FC);
  (0xA05, 0xA0A); (0xA0F, 0xA10); (0xA13, 0xA28); (0xA2A, 0xA30);
  (0xA32, 0xA33); (0xA35, 0xA36); (0xA38, 0xA39); (0xA59, 0xA5C);
  (0xA5E, 0xA5E); (0xA66, 0xA6F); (0xA72, 0xA74); (0xA85, 0xA8D);
  (0xA8F, 0xA91); (0xA93, 0xAA8); (0xAAA, 0xAB0); (0xAB2, 0xAB3);
  (0xAB5, 0xAB9); (0xABD, 0xABD); (0xAD0, 0xAD0); (0xAE0, 0xAE1);
  (0xAE6, 0xAEF); (0xAF9, 0xAF9); (0xB05, 0xB0C); (0xB0F, 0xB10);
  (0xB13, 0xB28); (0xB2A, 0xB30); (0xB32, 0xB33); (0xB35, 0xB39);
  (0xB3D, 0xB3D); (0xB5C, 0xB5D); (0xB5F, 0xB61); (0xB66, 0xB6F);
  (0xB71, 0xB77); (0xB83, 0xB83); (0xB85, 0xB8A); (0xB8E, 0xB90);
  (0xB92, 0xB95); (0xB99, 0xB9A); (0xB9C, 0xB9C); (0xB9E, 0xB9F);
  (0xBA3, 0xBA4); (0xBA8, 0xBAA); (0xBAE, 0xBB9); (0xBD0, 0xBD0);
  (0xBE6, 0xBF2); (0xC05, 0xC0C); (0xC0E, 0xC10); (0xC12, 0xC28);
  (0xC2A, 0xC39); (0xC3D, 0xC3D); (0xC58, 0xC5A); (0xC5D, 0xC5D);
  (0xC60, 0xC61); (0xC66, 0xC6F); (0xC78, 0xC7E); (0xC80, 0xC80);
  (0xC85, 0xC8C); (0xC8E, 0xC90); (0xC92, 0xCA8); (0xCAA, 0xCB3);
  (0xCB5, 0xCB9); (0xCBD, 0xCBD); (0xCDD, 0xCDE); (0xCE0, 0xCE1);
  (0xCE6, 0xCEF); (0xCF1, 0xCF2); (0xD04, 0xD0C); (0xD0E, 0xD10);
  (0xD12, 0xD3A); (0xD3D, 0xD3D); (0xD4E, 0xD4E); (0xD54, 0xD56);
  (0xD58, 0xD61); (0xD66, 0xD78); (0xD7A, 0xD7F); (0xD85, 0xD96);
  (0xD9A, 0xDB1); (0xDB3, 0xDBB); (0xDBD, 0xDBD); (0xDC0, 0xDC6);
  (0xDE6, 0xDEF); (0xE01, 0xE30); (0xE32, 0xE33); (0xE40, 0xE46);
  (0xE50, 0xE59); (0xE81, 0xE82); (0xE84, 0xE84); (0xE86, 0xE8A);
  (0xE8C, 0xEA3); (0xEA5, 0xEA5); (0xEA7, 0xEB0); (0xEB2, 0xEB3);
  (0xEBD, 0xEBD); (0xEC0, 0xEC4); (0xEC6, 0xEC6); (0xED0, 0xED9);
  (0xEDC, 0xEDF); (0xF00, 0xF00); (0xF20, 0xF33); (0xF40, 0xF47);
  (0xF49, 0xF6C); (0xF88, 0xF8C); (0x1000, 0x102A); (0x103F, 0x1049);
  (0x1050, 0x1055); (0x105A, 0x105D); (0x1061, 0x1061); (0x1065, 0x1066);
  (0x106E, 0x1070); (0x1075, 0x1081); (0x108E, 0x108E); (0x1090, 0x1099);
  (0x10A0, 0x10C5); (0x10C7, 0x10C7); (0x10CD, 0x10CD); (0x10D0, 0x10FA);
  (0x10FC, 0x1248); (0x124A, 0x124D); (0x1250, 0x1256); (0x1258, 0x1258);
  (0x125A, 0x125D); (0x1260, 0x1288); (0x128A, 0x128D); (0x1290, 0x12B0);
  (0x12B2, 0x12B5); (0x12B8, 0x12BE); (0x12C0, 0x12C0); (0x12C2, 0x12C5);
  (0x12C8, 0x12D6); (0x12D8, 0x1310); (0x1312, 0x1315); (0x1318, 0x135A);
  (0x1369, 0x137C); (0x1380, 0x138F); (0x13A0, 0x13F5); (0x13F8, 0x13FD);
  (0x1401, 0x166C); (0x166F, 0x167F); (0x1681, 0x169A); (0x16A0, 0x16EA);
  (0x16EE, 0x16F8); (0x1700, 0x1711); (0x171F, 0x1731); (0x1740, 0x1751);
  (0x1760, 0x176C); (0x176E, 0x1770); (0x1780, 0x17B3); (0x17D7, 0x17D7);
  (0x17DC, 0x17DC); (0x17E0, 0x17E9); (0x17F0, 0x17F9); (0x1810, 0x1819);
  (0x1820, 0x1878); (0x1880, 0x1884); (0x1887, 0x18A8); (0x18AA, 0x18AA);
  (0x18B0, 0x18F5); (0x1900, 0x191E); (0x1946, 0x196D); (0x1970, 0x1974);
  (0x1980, 0x19AB); (0x19B0, 0x19C9); (0x19D0, 0x19DA); (0x1A00, 0x1A16);
  (0x1A20, 0x1A54); (0x1A80, 0x1A89); (0x1A90, 0x1A99); (0x1AA7, 0x1AA7);
  (0x1B05, 0x1B33); (0x1B45, 0x1B4C); (0x1B50, 0x1B59); (0x1B83, 0x1BA0);
  (0x1BAE, 0x1BE5); (0x1C00, 0x1C23); (0x1C40, 0x1C49); (0x1C4D, 0x1C7D);
  (0x1C80, 0x1C88); (0x1C90, 0x1CBA); (0x1CBD, 0x1CBF); (0x1CE9, 0x1CEC);
  (0x1CEE, 0x1CF3); (0x1CF5, 0x1CF6); (0x1CFA, 0x1CFA); (0x1D00, 0x1DBF);
  (0x1E00, 0x1F15); (0x1F18, 0x1F1D); (0x1F20, 0x1F45); (0x1F48, 0x1F4D);
  (0x1F50, 0x1F57); (0x1F59, 0x1F59); (0x1F5B, 0x1F5B); (0x1F5D, 0x1F5D);
  (0x1F5F, 0x1F7D); (0x1F80, 0x1FB4); (0x1FB6, 0x1FBC); (0x1FBE, 0x1FBE);
  (0x1FC2, 0x1FC4); (0x1FC6, 0x1FCC); (0x1FD0, 0x1FD3); (0x1FD6, 0x1FDB);
  (0x1FE0, 0x1FEC); (0x1FF2, 0x1FF4); (0x1FF6, 0x1FFC); (0x2070, 0x2071);
  (0x2074, 0x2079); (0x207F, 0x2089); (0x2090, 0x209C); (0x2102, 0x2102);
  (0x2107, 0x2107); (0x210A, 0x2113); (0x2115, 0x2115); (0x2119, 0x211D);
  (0x2124, 0x2124); (0x2126, 0x2126); (0x2128, 0x2128); (0x212A, 0x212D);
  (0x212F, 0x2139); (0x213C, 0x213F); (0x2145, 0x2149); (0x214E, 0x214E);
  (0x2150, 0x2189); (0x2460, 0x249B); (0x24EA, 0x24FF); (0x2776, 0x2793);
  (0x2C00, 0x2CE4); (0x2CEB, 0x2CEE); (0x2CF2, 0x2CF3); (0x2CFD, 0x2CFD);
  (0x2D00, 0x2D25); (0x2D27, 0x2D27); (0x2D2D, 0x2D2D); (0x2D30, 0x2D67);
  (0x2D6F, 0x2D6F); (0x2D80, 0x2D96); (0x2DA0, 0x2DA6); (0x2DA8, 0x2DAE);
  (0x2DB0, 0x2DB6); (0x2DB8, 0x2DBE); (0x2DC0, 0x2DC6); (0x2DC8, 0x2DCE);
  (0x2DD0, 0x2DD6); (0x2DD8, 0x2DDE); (0x2E2F, 0x2E2F); (0x3005, 0x3007);
  (0x3021, 0x3029); (0x3031, 0x3035); (0x3038, 0x303C); (0x3041, 0x3096);
  (0x309D, 0x309F); (0x30A1, 0x30FA); (0x30FC, 0x30FF); (0x3105, 0x312F);
  (0x3131, 0x318E); (0x3192, 0x3195); (0x31A0, 0x31BF); (0x31F0, 0x31FF);
  (0x3220, 0x3229); (0x3248, 0x324F); (0x3251, 0x325F); (0x3280, 0x3289);
  (0x32B1, 0x32BF); (0x3400, 0x4DBF); (0x4E00, 0xA48C); (0xA4D0, 0xA4FD);
  (0xA500, 0xA60C); (0xA610, 0xA62B); (0xA640, 0xA66E); (0xA67F, 0xA69D);
  (0xA6A0, 0xA6EF); (0xA717, 0xA71F); (0xA722, 0xA788); (0xA78B, 0xA7CA);
  (0xA7D0, 0xA7D1); (0xA7D3, 0xA7D3); (0xA7D5, 0xA7D9); (0xA7F2, 0xA801);
  (0xA803, 0xA805); (0xA807, 0xA80A); (0xA80C, 0xA822); (0xA830, 0xA835);
  (0xA840, 0xA873); (0xA882, 0xA8B3); (0xA8D0, 0xA8D9); (0xA8F2, 0xA8F7);
  (0xA8FB, 0xA8FB); (0xA8FD, 0xA8FE); (0xA900, 0xA925); (0xA930, 0xA946);
  (0xA960, 0xA97C); (0xA984, 0xA9B2); (0xA9CF, 0xA9D9); (0xA9E0, 0xA9E4);
  (0xA9E6, 0xA9FE); (0xAA00, 0xAA28); (0xAA40, 0xAA42); (0xAA44, 0xAA4B);
  (0xAA50, 0xAA59); (0xAA60, 0xAA76); (0xAA7A, 0xAA7A); (0xAA7E, 0xAAAF);
  (0xAAB1, 0xAAB1); (0xAAB5, 0xAAB6); (0xAAB9, 0xAABD); (0xAAC0, 0xAAC0);
  (0xAAC2, 0xAAC2); (0xAADB, 0xAADD); (0xAAE0, 0xAAEA); (0xAAF2, 0xAAF4);
  (0xAB01, 0xAB06); (0xAB09, 0xAB0E); (0xAB11, 0xAB16); (0xAB20, 0xAB26);
  (0xAB28, 0xAB2E); (0xAB30, 0xAB5A); (0xAB5C, 0xAB69); (0xAB70, 0xABE2);
  (0xABF0, 0xABF9); (0xAC00, 0xD7A3); (0xD7B0, 0xD7C6); (0xD7CB, 0xD7FB);
  (0xF900, 0xFA6D); (0xFA70, 0xFAD9); (0xFB00, 0xFB06); (0xFB13, 0xFB17);
  (0xFB1D, 0xFB1D); (0xFB1F, 0xFB28); (0xFB2A, 0xFB36); (0xFB38, 0xFB3C);
  (0xFB3E, 0xFB3E); (0xFB40, 0xFB41); (0xFB43, 0xFB44); (0xFB46, 0xFBB1);
  (0xFBD3, 0xFD3D); (0xFD50, 0xFD8F); (0xFD92, 0xFDC7); (0xFDF0, 0xFDFB);
  (0xFE70, 0xFE74); (0xFE76, 0xFEFC); (0xFF10, 0xFF19); (0xFF21, 0xFF3A);
  (0xFF41, 0xFF5A); (0xFF66, 0xFFBE); (0xFFC2, 0xFFC7); (0xFFCA, 0xFFCF);
  (0xFFD2, 0xFFD7); (0xFFDA, 0xFFDC); (0x10000, 0x1000B);
  (0x1000D, 0x10026); (0x10028, 0x1003A); (0x1003C, 0x1003D);
  (0x1003F, 0x1004D); (0x10050, 0x1005D); (0x10080, 0x100FA);
  (0x10107, 0x10133); (0x10140, 0x10178); (0x1018A, 0x1018B);
  (0x10280, 0x1029C); (0x102A0, 0x102D0); (0x102E1, 0x102FB);
  (0x10300, 0x10323); (0x1032D, 0x1034A); (0x10350, 0x10375);
  (0x10380, 0x1039D); (0x103A0, 0x103C3); (0x103C8, 0x103CF);
  (0x103D1, 0x103D5); (0x10400, 0x1049D); (0x104A0, 0x104A9);
  (0x104B0, 0x104D3); (0x104D8, 0x104FB); (0x10500, 0x10527);
  (0x10530, 0x10563); (0x10570, 0x1057A); (0x1057C, 0x1058A);
  (0x1058C, 0x10592); (0x10594, 0x10595); (0x10597, 0x105A1);
  (0x105A3, 0x105B1); (0x105B3, 0x105B9); (0x105BB, 0x105BC);
  (0x10600, 0x10736); (0x10740, 0x10755); (0x10760, 0x10767);
  (0x10780, 0x10785); (0x10787, 0x107B0); (0x107B2, 0x107BA);
  (0x10800, 0x10805); (0x10808, 0x10808); (0x1080A, 0x10835);
  (0x10837, 0x10838); (0x1083C, 0x1083C); (0x1083F, 0x10855);
  (0x10858, 0x10876); (0x10879, 0x1089E); (0x108A7, 0x108AF);
  (0x108E0, 0x108F2); (0x108F4, 0x108F5); (0x108FB, 0x1091B);
  (0x10920, 0x10939); (0x10980, 0x109B7); (0x109BC, 0x109CF);
  (0x109D2, 0x10A00); (0x10A10, 0x10A13); (0x10A15, 0x10A17);
  (0x10A19, 0x10A35); (0x10A40, 0x10A48); (0x10A60, 0x10A7E);
  (0x10A80, 0x10A9F); (0x10AC0, 0x10AC7); (0x10AC9, 0x10AE4);
  (0x10AEB, 0x10AEF); (0x10B00, 0x10B35); (0x10B40, 0x10B55);
  (0x10B58, 0x10B72); (0x10B78, 0x10B91); (0x10BA9, 0x10BAF);
  (0x10C00, 0x10C48); (0x10C80, 0x10CB2); (0x10CC0, 0x10CF2);
  (0x10CFA, 0x10D23); (0x10D30, 0x10D39); (0x10E60, 0x10E7E);
  (0x10E80, 0x10EA9); (0x10EB0, 0x10EB1); (0x10F00, 0x10F27);
  (0x10F30, 0x10F45); (0x10F51, 0x10F54); (0x10F70, 0x10F81);
  (0x10FB0, 0x10FCB); (0x10FE0, 0x10FF6); (0x11003, 0x11037);
  (0x11052, 0x1106F); (0x11071, 0x11072); (0x11075, 0x11075);
  (0x11083, 0x110AF); (0x110D0, 0x110E8); (0x110F0, 0x110F9);
  (0x11103, 0x11126); (0x11136, 0x1113F); (0x11144, 0x11144);
  (0x11147, 0x11147); (0x11150, 0x11172); (0x11176, 0x11176);
  (0x11183, 0x111B2); (0x111C1, 0x111C4); (0x111D0, 0x111DA);
  (0x111DC, 0x111DC); (0x111E1, 0x111F4); (0x11200, 0x11211);
  (0x11213, 0x1122B); (0x11280, 0x11286); (0x11288, 0x11288);
  (0x1128A, 0x1128D); (0x1128F, 0x1129D); (0x1129F, 0x112A8);
  (0x112B0, 0x112DE); (0x112F0, 0x112F9); (0x11305, 0x1130C);
  (0x1130F, 0x11310); (0x11313, 0x11328); (0x1132A, 0x11330);
  (0x11332, 0x11333); (0x11335, 0x11339); (0x1133D, 0x1133D);
  (0x11350, 0x11350); (0x1135D, 0x11361); (0x11400, 0x11434);
  (0x11447, 0x1144A); (0x11450, 0x11459); (0x1145F, 0x11461);
  (0x11480, 0x114AF); (0x114C4, 0x114C5); (0x114C7, 0x114C7);
  (0x114D0, 0x114D9); (0x11580, 0x115AE); (0x115D8, 0x115DB);
  (0x11600, 0x1162F); (0x11644, 0x11644); (0x11650, 0x11659);
  (0x11680, 0x116AA); (0x116B8, 0x116B8); (0x116C0, 0x116C9);
  (0x11700, 0x1171A); (0x11730, 0x1173B); (0x11740, 0x11746);
  (0x11800, 0x1182B); (0x118A0, 0x118F2); (0x118FF, 0x11906);
  (0x11909, 0x11909); (0x1190C, 0x11913); (0x11915, 0x11916);
  (0x11918, 0x1192F); (0x1193F, 0x1193F); (0x11941, 0x11941);
  (0x11950, 0x11959); (0x119A0, 0x119A7); (0x119AA, 0x119D0);
  (0x119E1, 0x119E1); (0x119E3, 0x119E3); (0x11A00, 0x11A00);
  (0x11A0B, 0x11A32); (0x11A3A, 0x11A3A); (0x11A50, 0x11A50);
  (0x11A5C, 0x11A89); (0x11A9D, 0x11A9D); (0x11AB0, 0x11AF8);
  (0x11C00, 0x11C08); (0x11C0A, 0x11C2E); (0x11C40, 0x11C40);
  (0x11C50, 0x11C6C); (0x11C72, 0x11C8F); (0x11D00, 0x11D06);
  (0x11D08, 0x11D09); (0x11D0B, 0x11D30); (0x11D46, 0x11D46);
  (0x11D50, 0x11D59); (0x11D60, 0x11D65); (0x11D67, 0x11D68);
  (0x11D6A, 0x11D89); (0x11D98, 0x11D98); (0x11DA0, 0x11DA9);
  (0x11EE0, 0x11EF2); (0x11FB0, 0x11FB0); (0x11FC0, 0x11FD4);
  (0x12000, 0x12399); (0x12400, 0x1246E); (0x12480, 0x12543);
  (0x12F90, 0x12FF0); (0x13000, 0x1342E); (0x14400, 0x14646);
  (0x16800, 0x16A38); (0x16A40, 0x16A5E); (0x16A60, 0x16A69);
  (0x16A70, 0x16ABE); (0x16AC0, 0x16AC9); (0x16AD0, 0x16AED);
  (0x16B00, 0x16B2F); (0x16B40, 0x16B43); (0x16B50, 0x16B59);
  (0x16B5B, 0x16B61); (0x16B63, 0x16B77); (0x16B7D, 0x16B8F);
  (0x16E40, 0x16E96); (0x16F00, 0x16F4A); (0x16F50, 0x16F50);
  (0x16F93, 0x16F9F); (0x16FE0, 0x16FE1); (0x16FE3, 0x16FE3);
  (0x17000, 0x187F7); (0x18800, 0x18CD5); (0x18D00, 0x18D08);
  (0x1AFF0, 0x1AFF3); (0x1AFF5, 0x1AFFB); (0x1AFFD, 0x1AFFE);
  (0x1B000, 0x1B122); (0x1B150, 0x1B152); (0x1B164, 0x1B167);
  (0x1B170, 0x1B2FB); (0x1BC00, 0x1BC6A); (0x1BC70, 0x1BC7C);
  (0x1BC80, 0x1BC88); (0x1BC90, 0x1BC99); (0x1D2E0, 0x1D2F3);
  (0x1D360, 0x1D378); (0x1D400, 0x1D454); (0x1D456, 0x1D49C);
  (0x1D49E, 0x1D49F); (0x1D4A2, 0x1D4A2); (0x1D4A5, 0x1D4A6);
  (0x1D4A9, 0x1D4AC); (0x1D4AE, 0x1D4B9); (0x1D4BB, 0x1D4BB);
  (0x1D4BD, 0x1D4C3); (0x1D4C5, 0x1D505); (0x1D507, 0x1D50A);
  (0x1D50D, 0x1D514); (0x1D516, 0x1D51C); (0x1D51E, 0x1D539);
  (0x1D53B, 0x1D53E); (0x1D540, 0x1D544); (0x1D546, 0x1D546);
  (0x1D54A, 0x1D550); (0x1D552, 0x1D6A5); (0x1D6A8, 0x1D6C0);
  (0x1D6C2, 0x1D6DA); (0x1D6DC, 0x1D6FA); (0x1D6FC, 0x1D714);
  (0x1D716, 0x1D734); (0x1D736, 0x1D74E); (0x1D750, 0x1D76E);
  (0x1D770, 0x1D788); (0x1D78A, 0x1D7A8); (0x1D7AA, 0x1D7C2);
  (0x1D7C4, 0x1D7CB); (0x1D7CE, 0x1D7FF); (0x1DF00, 0x1DF1E);
  (0x1E100, 0x1E12C); (0x1E137, 0x1E13D); (0x1E140, 0x1E149);
  (0x1E14E, 0x1E14E); (0x1E290, 0x1E2AD); (0x1E2C0, 0x1E2EB);
  (0x1E2F0, 0x1E2F9); (0x1E7E0, 0x1E7E6); (0x1E7E8, 0x1E7EB);
  (0x1E7ED, 0x1E7EE); (0x1E7F0, 0x1E7FE); (0x1E800, 0x1E8C4);
  (0x1E8C7, 0x1E8CF); (0x1E900, 0x1E943); (0x1E94B, 0x1E94B);
  (0x1E950, 0x1E959); (0x1EC71, 0x1ECAB); (0x1ECAD, 0x1ECAF);
  (0x1ECB1, 0x1ECB4); (0x1ED01, 0x1ED2D); (0x1ED2F, 0x1ED3D);
  (0x1EE00, 0x1EE03); (0x1EE05, 0x1EE1F); (0x1EE21, 0x1EE22);
  (0x1EE24, 0x1EE24); (0x1EE27, 0x1EE27); (0x1EE29, 0x1EE32);
  (0x1EE34, 0x1EE37); (0x1EE39, 0x1EE39); (0x1EE3B, 0x1EE3B);
  (0x1EE42, 0x1EE42); (0x1EE47, 0x1EE47); (0x1EE49, 0x1EE49);
  (0x1EE4B, 0x1EE4B); (0x1EE4D, 0x1EE4F); (0x1EE51, 0x1EE52);
  (0x1EE54, 0x1EE54); (0x1EE57, 0x1EE57); (0x1EE59, 0x1EE59);
  (0x1EE5B, 0x1EE5B); (0x1EE5D, 0x1EE5D); (0x1EE5F, 0x1EE5F);
  (0x1EE61, 0x1EE62); (0x1EE64, 0x1EE64); (0x1EE67, 0x1EE6A);
  (0x1EE6C, 0x1EE72); (0x1EE74, 0x1EE77); (0x1EE79, 0x1EE7C);
  (0x1EE7E, 0x1EE7E); (0x1EE80, 0x1EE89); (0x1EE8B, 0x1EE9B);
  (0x1EEA1, 0x1EEA3); (0x1EEA5, 0x1EEA9); (0x1EEAB, 0x1EEBB);
  (0x1F100, 0x1F10C); (0x1FBF0, 0x1FBF9); (0x20000, 0x2A6DF);
  (0x2A700, 0x2B738); (0x2B740, 0x2B81D); (0x2B820, 0x2CEA1);
  (0x2CEB0, 0x2EBE0); (0x2F800, 0x2FA1D); (0x30000, 0x3134A)
  ]%N.

Definition ascii_lower (c : char) : char :=
  if ((0x41 <=? c) && (c <=? 0x5A))%N then (c + 32)%N else c.

(** A literal under [re.IGNORECASE]. For an ASCII letter the engine
    compares lower-cased characters; besides the two ASCII forms this
    admits U+0130 and U+0131 for i, U+212A for k and U+017F for s. Other
    ASCII characters are caseless. The patterns of the program contain
    ASCII literals only; for a literal outside ASCII the comparison is
    taken to be exact. *)
Definition ci_eq (c x : char) : bool :=
  let lo := ascii_lower c in
  (if (0x61 <=? lo) && (lo <=? 0x7A)
   then (ascii_lower x =? lo)
        || (lo =? 0x69) && ((x =? 0x130) || (x =? 0x131))
        || (lo =? 0x6B) && (x =? 0x212A)
        || (lo =? 0x73) && (x =? 0x17F)
   else x =? c)%N.

Definition db : Ucd.t :=
  {| Ucd.decimal := decimal_in decimal_ranges;
     Ucd.digit_extra := in_ranges digit_extra_ranges;
     Ucd.alnum := in_ranges alnum_ranges;
     Ucd.ci_eq := ci_eq |}.

End Ucd14.

(** * Properties *)

Unset Implicit Arguments.

(** ** Strings *)

Lemma first_line_split (s : str) : nth 0 (split nl s) [] = first_line s.
Proof.
  induction s as [|c s IH]; simpl; [reflexivity|].
  unfold is_nl. destruct (c =? nl)%N; [reflexivity|].
  destruct (split nl s) as [|h t]; simpl in *; now rewrite <- IH.
Qed.

Lemma isspace_nl : isspace nl = true.
Proof. reflexivity. Qed.

Lemma is_nl_space (c : char) : is_nl c = true -> isspace c = true.
Proof.
  unfold is_nl. intros H. apply N.eqb_eq in H. subst. reflexivity.
Qed.

Lemma lstrip_app_spaces (ws s : str) :
  Forall (fun c => isspace c = true) ws -> lstrip (ws ++ s) = lstrip s.
Proof.
  induction 1 as [|c ws Hc _ IH]; simpl; [reflexivity|].
  now rewrite Hc.
Qed.

Lemma lstrip_head (c : char) (s : str) :
  isspace c = false -> lstrip (c :: s) = c :: s.
Proof. intros H. simpl. now rewrite H. Qed.

(** ** The matcher *)

Module ReFacts.

Lemma consumed_app (u rest : str) : consumed (u ++ rest) rest = u.
Proof.
  unfold consumed. rewrite length_app, Nat.add_sub.
  rewrite firstn_app, Nat.sub_diag, firstn_all. simpl. apply app_nil_r.
Qed.

Lemma more_within (hi : option nat) (n : nat) :
  within hi (S n) -> more hi = true /\ within (dec hi) n.
Proof.
  destruct hi as [[|h]|]; simpl; intros H; try lia; split; auto; lia.
Qed.

Lemma within_more (hi : option nat) (n : nat) :
  more hi = true -> within (dec hi) n -> within hi (S n).
Proof.
  destruct hi as [[|h]|]; simpl; intros H1 H2; try discriminate; auto; lia.
Qed.

Lemma reps_In (p : char -> bool) (s : str) :
  forall lo hi rest,
    In rest (reps p lo hi s) <->
    exists u, s = u ++ rest /\ Forall (fun c => p c = true) u /\
              lo <= length u /\ within hi (length u).
Proof.
  induction s as [|c s IH]; intros lo hi rest; simpl.
  - split.
    + destruct lo; simpl; [|tauto]. intros [<-|[]].
      exists []. repeat split; auto. destruct hi as [h|]; simpl; lia.
    + intros (u & Hs & _ & Hlo & _). symmetry in Hs.
      apply app_eq_nil in Hs as [-> ->]. simpl in Hlo.
      destruct lo; [now left | lia].
  - rewrite in_app_iff. split.
    + intros [H|H].
      * destruct (p c) eqn:Hp; simpl in H; [|tauto].
        destruct (more hi) eqn:Hm; simpl in H; [|tauto].
        apply IH in H as (u & -> & Hu & Hlo & Hhi).
        exists (c :: u). repeat split; auto.
        -- simpl. lia.
        -- now apply within_more.
      * destruct lo; simpl in H; [|tauto]. destruct H as [<-|[]].
        exists []. repeat split; auto. destruct hi; simpl; lia.
    + intros ([|d u] & Hs & Hu & Hlo & Hhi); simpl in *.
      * subst rest. right. destruct lo; [now left | lia].
      * injection Hs as <- ->. left. inversion Hu; subst.
        apply more_within in Hhi as [Hm Hhi].
        rewrite H1, Hm. simpl. apply IH. exists u. repeat split; auto. lia.
Qed.

Lemma run_sound (r : regex) :
  forall s g rest, In (g, rest) (run r s) ->
                   exists u, s = u ++ rest /\ matches r u.
Proof.
  induction r as [|p|p lo hi|r1 IH1 r2 IH2|r IH]; intros s g rest; simpl.
  - intros [H|[]]. injection H as <- <-. exists []. split; [reflexivity|constructor].
  - destruct s as [|c s]; simpl; [tauto|]. destruct (p c) eqn:Hp; simpl; [|tauto].
    intros [H|[]]. injection H as <- <-. exists [c]. split; [reflexivity|now constructor].
  - rewrite in_map_iff. intros (x & H & Hin). injection H as <- ->.
    apply reps_In in Hin as (u & -> & Hu & Hlo & Hhi).
    exists u. split; [reflexivity|now constructor].
  - rewrite in_flat_map. intros ([g1 s1] & H1 & H2).
    rewrite in_map_iff in H2. destruct H2 as ([g2 s2] & H & H2).
    simpl in *. injection H as <- <-.
    apply IH1 in H1 as (u & -> & Hu). apply IH2 in H2 as (v & -> & Hv).
    exists (u ++ v). rewrite <- app_assoc. split; [reflexivity|now constructor].
  - rewrite in_map_iff. intros ([g' rest'] & H & Hin). simpl in H.
    injection H as <- <-. apply IH in Hin as (u & -> & Hu).
    exists u. split; [reflexivity|now constructor].
Qed.

Lemma run_complete (r : regex) (u : str) :
  matches r u -> forall rest, exists g, In (g, rest) (run r (u ++ rest)).
Proof.
  induction 1 as [|p c Hp|p lo hi u Hu Hlo Hhi|r1 r2 u v _ IH1 _ IH2|r u _ IH];
    intros rest; simpl.
  - exists []. now left.
  - rewrite Hp. exists []. now left.
  - exists []. apply in_map_iff. exists rest. split; [reflexivity|].
    apply reps_In. exists u. auto.
  - destruct (IH2 rest) as [g2 H2]. destruct (IH1 (v ++ rest)) as [g1 H1].
    exists (g1 ++ g2). rewrite <- app_assoc. apply in_flat_map.
    exists (g1, v ++ rest). split; [assumption|].
    apply in_map_iff. exists (g2, rest). split; [reflexivity|assumption].
  - destruct (IH rest) as [g Hg]. eexists. apply in_map_iff.
    exists (g, rest). split; [reflexivity|assumption].
Qed.

Lemma run_nil_no_prefix (r : regex) (s : str) :
  run r s = [] -> forall u post, s = u ++ post -> ~ matches r u.
Proof.
  intros Hnil u post -> Hm.
  destruct (@run_complete _ _ Hm post) as [g Hg]. now rewrite Hnil in Hg.
Qed.

Lemma run_consumed (r : regex) (s : str) (g : list str) (rest : str) :
  In (g, rest) (run r s) ->
  s = consumed s rest ++ rest /\ matches r (consumed s rest).
Proof.
  intros H. apply run_sound in H as (u & -> & Hu).
  now rewrite consumed_app.
Qed.

Lemma search_from_some (r : regex) (s : str) :
  forall pr m,
    search_from r pr s = Some m ->
    exists skipped,
      s = skipped ++ group m 0 ++ after m /\
      before m = rev pr ++ skipped /\
      matches r (group m 0) /\
      forall pre u post,
        s = pre ++ u ++ post -> matches r u -> length skipped <= length pre.
Proof.
  assert (Hhere : forall s pr g rest tl,
             run r s = (g, rest) :: tl ->
             let m := {| before := rev pr;
                         groups := consumed s rest :: g; after := rest |} in
             s = [] ++ group m 0 ++ after m /\
             before m = rev pr ++ [] /\
             matches r (group m 0) /\
             forall pre u post,
               s = pre ++ u ++ post -> matches r u ->
               length (@nil char) <= length pre).
  { intros s0 pr g rest tl Hrun m. unfold m, group. simpl.
    assert (Hin : In (g, rest) (run r s0)) by (rewrite Hrun; now left).
    apply run_consumed in Hin as [Hs Hm]. rewrite app_nil_r.
    repeat split; auto. intros; lia. }
  induction s as [|c s IH]; intros pr m; simpl.
  - destruct (run r []) as [|[g rest] tl] eqn:Hrun; [discriminate|].
    intros H. injection H as <-. exists []. exact (Hhere _ pr _ _ _ Hrun).
  - destruct (run r (c :: s)) as [|[g rest] tl] eqn:Hrun.
    + intros H. apply IH in H as (sk & Hs & Hb & Hm & Hleft).
      exists (c :: sk). simpl. repeat split; auto.
      * now rewrite Hs at 1.
      * rewrite Hb. simpl. now rewrite <- app_assoc.
      * intros [|d pre] u post Hsplit Hu.
        -- exfalso. simpl in Hsplit.
           exact (@run_nil_no_prefix _ _ Hrun u post Hsplit Hu).
        -- simpl in Hsplit. injection Hsplit as <- ->.
           specialize (Hleft _ _ _ eq_refl Hu). simpl. lia.
    + intros H. injection H as <-. exists []. exact (Hhere _ pr _ _ _ Hrun).
Qed.

Lemma search_from_none (r : regex) (s : str) :
  forall pr, search_from r pr s = None -> no_match r s.
Proof.
  induction s as [|c s IH]; intros pr; simpl.
  - destruct (run r []) eqn:Hrun; [|discriminate]. intros _ pre m post Hs.
    symmetry in Hs. apply app_eq_nil in Hs as [-> Hs]. simpl in Hs.
    exact (@run_nil_no_prefix _ _ Hrun m post (eq_sym Hs)).
  - destruct (run r (c :: s)) eqn:Hrun; [|discriminate]. intros H.
    specialize (IH _ H). intros [|d pre] m post Hs.
    + simpl in Hs. exact (@run_nil_no_prefix _ _ Hrun m post Hs).
    + simpl in Hs. injection Hs as <- ->. exact (IH _ _ _ eq_refl).
Qed.

(** [re.search] returns the leftmost match. *)
Lemma search_first_match (r : regex) (t : str) (m : match_obj) :
  search r t = Some m ->
  t = before m ++ group m 0 ++ after m /\ first_match r t (group m 0).
Proof.
  intros H. apply search_from_some in H as (sk & Hs & Hb & Hm & Hleft).
  simpl in Hb. subst sk. split; [assumption|].
  exists (before m), (after m). auto.
Qed.

Lemma search_first_match_is (r : regex) (t : str) (m : match_obj) (g : str) :
  search r t = Some m -> group m 0 = g -> first_match r t g.
Proof. intros H <-. exact (proj2 (search_first_match r t m H)). Qed.

Lemma search_no_match (r : regex) (t : str) :
  search r t = None -> no_match r t.
Proof. apply search_from_none. Qed.

End ReFacts.

(** ** Substitution of runs *)

Lemma span_exists (p : char -> bool) (s : str) :
  exists u rest,
    s = u ++ rest /\ Forall (fun c => p c = true) u /\ stops p rest.
Proof.
  induction s as [|c s (u & rest & -> & Hu & Hr)].
  - exists [], []. repeat split; constructor.
  - destruct (p c) eqn:Hp.
    + exists (c :: u), rest. repeat split; auto.
    + exists [], (c :: u ++ rest). repeat split; auto.
Qed.

Module SubFacts.

Import ReFacts.

(** A greedy repeat without upper bound takes the whole run first. *)
Lemma reps_greedy (p : char -> bool) (u rest : str) :
  Forall (fun c => p c = true) u -> stops p rest ->
  forall lo, lo <= length u ->
             exists tl, reps p lo None (u ++ rest) = rest :: tl.
Proof.
  intros Hu Hr. induction Hu as [|c u Hc Hu IH]; intros lo Hlo; simpl in *.
  - assert (lo = 0) by lia. subst lo.
    destruct rest as [|d rest]; simpl; [now exists []|].
    simpl in Hr. rewrite Hr. simpl. now exists [].
  - rewrite Hc. simpl. destruct (IH (pred lo)) as [tl Htl]; [lia|].
    rewrite Htl. simpl. eauto.
Qed.

Lemma reps_short (p : char -> bool) (u rest : str) :
  Forall (fun c => p c = true) u -> stops p rest ->
  forall lo hi, length u < lo -> reps p lo hi (u ++ rest) = [].
Proof.
  intros Hu Hr. induction Hu as [|c u Hc Hu IH]; intros lo hi Hlo; simpl in *.
  - destruct lo; [lia|]. destruct rest as [|d rest]; simpl; [reflexivity|].
    simpl in Hr. rewrite Hr. reflexivity.
  - destruct lo; [lia|]. rewrite Hc. simpl.
    rewrite IH by (simpl; lia). now destruct (more hi).
Qed.

Lemma sub_from_skip (r : regex) (repl u rest : str) :
  sub_from r repl (length u) (u ++ rest) = sub_from r repl 0 rest.
Proof.
  induction u as [|c u IH]; simpl; [|assumption].
  destruct rest; reflexivity.
Qed.

Lemma squeeze_run (p : char -> bool) (one c : char) (u rest : str) :
  Forall (fun c => p c = true) (c :: u) -> stops p rest ->
  squeeze p one (c :: u ++ rest) = one :: squeeze p one rest.
Proof.
  revert c. induction u as [|d u IH]; intros c Hu Hr.
  - inversion Hu; subst. simpl. rewrite H1.
    destruct rest as [|e rest]; [reflexivity|]. simpl in Hr. now rewrite Hr.
  - inversion Hu; subst. inversion H2; subst.
    change (squeeze p one (c :: (d :: u) ++ rest))
      with (if p c then if p d then squeeze p one (d :: u ++ rest)
                        else one :: squeeze p one (d :: u ++ rest)
            else c :: squeeze p one (d :: u ++ rest)).
    rewrite H1, H3. now apply IH.
Qed.

Lemma squeeze_skip (p : char -> bool) (one : char) (c : char) (t : str) :
  p c = false -> squeeze p one (c :: t) = c :: squeeze p one t.
Proof. intros H. simpl. now rewrite H. Qed.

(** Replacing the runs of at least [lo] characters of [p] by [one] is
    [squeeze]; for [lo = 2] the class has to be the single character
    [one], so that a run of one character is left as it is. *)
Lemma sub_from_cons (r : regex) (repl : str) (c : char) (s : str) :
  sub_from r repl 0 (c :: s) =
  match run r (c :: s) with
  | m :: _ =>
      match length (c :: s) - length (snd m) with
      | 0 => repl ++ c :: sub_from r repl 0 s
      | S k => repl ++ sub_from r repl k s
      end
  | [] => c :: sub_from r repl 0 s
  end.
Proof. reflexivity. Qed.

Lemma sub_rep_squeeze (p : char -> bool) (one : char) (lo : nat) :
  lo = 1 \/ (lo = 2 /\ forall c, p c = true -> c = one) ->
  forall t, sub (Rep p lo None) [one] t = squeeze p one t.
Proof.
  intros Hlo t. unfold sub.
  remember (length t) as n eqn:Hn. revert t Hn.
  induction n as [n IH] using lt_wf_ind. intros t Hn.
  destruct t as [|c t].
  - destruct Hlo as [->|[-> _]]; reflexivity.
  - rewrite sub_from_cons. cbn [run].
    destruct (p c) eqn:Hp.
    + destruct (span_exists p t) as (u & rest & -> & Hu & Hr).
      assert (Hcu : Forall (fun c => p c = true) (c :: u)) by auto.
      change (c :: u ++ rest) with ((c :: u) ++ rest).
      destruct (Nat.le_gt_cases lo (length (c :: u))) as [Hle|Hgt].
      * destruct (@reps_greedy p (c :: u) rest Hcu Hr lo Hle) as [tl ->].
        cbn [map snd]. rewrite length_app.
        rewrite Nat.add_sub. cbn [length].
        rewrite sub_from_skip.
        rewrite (IH (length rest)); [|subst n; simpl; rewrite length_app; lia|reflexivity].
        symmetry. exact (@squeeze_run p one c u rest Hcu Hr).
      * destruct Hlo as [->|[-> Hone]]; [simpl in Hgt; lia|].
        assert (u = []) by (destruct u; [reflexivity|simpl in Hgt; lia]). subst u.
        rewrite (@reps_short p [c] rest Hcu Hr 2 None Hgt). cbn [map].
        simpl app.
        rewrite (IH (length rest)); [|subst n; simpl; lia|reflexivity].
        rewrite (Hone c Hp).
        symmetry. apply (@squeeze_run p one one [] rest); [|assumption].
        constructor; [|constructor]. now rewrite <- (Hone c Hp).
    + assert (Hrun : reps p lo None (c :: t) = []).
      { simpl. rewrite Hp. simpl. destruct Hlo as [->|[-> _]]; reflexivity. }
      rewrite Hrun. cbn [map].
      rewrite (squeeze_skip p one c t Hp).
      f_equal. apply (IH (length t)); [subst n; simpl; lia|reflexivity].
Qed.

End SubFacts.

(** ** Normalisation *)

Module NormFacts.

Lemma lstrip_app (a b : str) :
  lstrip (a ++ b) = match lstrip a with [] => lstrip b | l => l ++ b end.
Proof.
  induction a as [|x a IH]; simpl; [reflexivity|].
  destruct (isspace x); [assumption|reflexivity].
Qed.

Lemma rstrip_cons (c : char) (s : str) :
  rstrip (c :: s) =
  match rstrip s with
  | [] => if isspace c then [] else [c]
  | r => c :: r
  end.
Proof.
  unfold rstrip. simpl rev at 2. rewrite lstrip_app.
  destruct (lstrip (rev s)) as [|x l] eqn:Hl; simpl.
  - destruct (isspace c); reflexivity.
  - rewrite rev_app_distr. simpl.
    destruct (rev l ++ [x]) eqn:Hr; [|reflexivity].
    apply app_eq_nil in Hr as [_ Hr]. discriminate.
Qed.

Lemma lstrip_suffix (s : str) : exists u, s = u ++ lstrip s.
Proof.
  induction s as [|c s [u Hu]]; simpl; [now exists []|].
  destruct (isspace c).
  - exists (c :: u). simpl. now f_equal.
  - now exists [].
Qed.

Lemma rstrip_prefix (s : str) : exists v, s = rstrip s ++ v.
Proof.
  unfold rstrip. destruct (lstrip_suffix (rev s)) as [u Hu].
  exists (rev u). rewrite <- rev_app_distr, <- Hu. now rewrite rev_involutive.
Qed.

Lemma lstrip_length (s : str) : length (lstrip s) <= length s.
Proof.
  induction s as [|c s IH]; simpl; [lia|]. destruct (isspace c); simpl; lia.
Qed.

Lemma lstrip_idem (s : str) : lstrip (lstrip s) = lstrip s.
Proof.
  induction s as [|c s IH]; simpl; [reflexivity|].
  destruct (isspace c) eqn:Hc; [assumption|]. simpl. now rewrite Hc.
Qed.

Lemma rstrip_idem (s : str) : rstrip (rstrip s) = rstrip s.
Proof. unfold rstrip. now rewrite rev_involutive, lstrip_idem. Qed.

Lemma lstrip_rstrip (y : str) : lstrip y = y -> lstrip (rstrip y) = rstrip y.
Proof.
  destruct y as [|c y]; [reflexivity|]. intros H.
  assert (Hc : isspace c = false).
  { simpl in H. destruct (isspace c); [|reflexivity].
    pose proof (lstrip_length y) as Hl. rewrite H in Hl. simpl in Hl. lia. }
  rewrite rstrip_cons. destruct (rstrip y); rewrite ?Hc; simpl; now rewrite Hc.
Qed.

Lemma strip_idem (s : str) : strip (strip s) = strip s.
Proof.
  unfold strip. rewrite (lstrip_rstrip (lstrip s) (lstrip_idem s)).
  apply rstrip_idem.
Qed.

Lemma strip_infix (s : str) : exists u v, s = u ++ strip s ++ v.
Proof.
  unfold strip. destruct (lstrip_suffix s) as [u Hu].
  destruct (rstrip_prefix (lstrip s)) as [v Hv].
  exists u, v. now rewrite <- Hv.
Qed.

Lemma no_adj_cons (p : char -> bool) (a : char) (s : str) :
  no_adj p (a :: s) = true -> no_adj p s = true.
Proof. simpl. intros H. now apply andb_true_iff in H. Qed.

Lemma no_adj_app (p : char -> bool) (u v : str) :
  no_adj p (u ++ v) = true -> no_adj p u = true /\ no_adj p v = true.
Proof.
  induction u as [|a u IH]; simpl; [auto|]. intros H.
  apply andb_true_iff in H as [H1 H2]. destruct (IH H2) as [Hu Hv].
  split; [|assumption]. rewrite Hu, andb_true_r.
  destruct u; [reflexivity|exact H1].
Qed.

Lemma squeeze_head (p : char -> bool) (one c : char) (s : str) :
  exists tl, squeeze p one (c :: s) = (if p c then one else c) :: tl.
Proof.
  revert c. induction s as [|d s IH]; intros c.
  - simpl. destruct (p c); eauto.
  - destruct (p c) eqn:Hc.
    + destruct (p d) eqn:Hd.
      * destruct (IH d) as [tl Htl]. rewrite Hd in Htl. exists tl.
        rewrite <- Htl. simpl. now rewrite Hc, Hd.
      * eexists. simpl. rewrite Hc, Hd. reflexivity.
    + eexists. simpl. rewrite Hc. reflexivity.
Qed.

(** A text without runs to collapse is left as it is. *)
Lemma squeeze_fix (p : char -> bool) (one : char) (s : str) :
  no_adj p s = true -> Forall (fun c => p c = true -> c = one) s ->
  squeeze p one s = s.
Proof.
  induction s as [|c s IH]; [reflexivity|]. intros Hadj Hall.
  inversion Hall as [|? ? Hc Hs]; subst.
  pose proof (no_adj_cons _ _ _ Hadj) as Hadj'.
  specialize (IH Hadj' Hs). simpl. simpl in Hadj.
  destruct (p c) eqn:Hpc.
  - destruct s as [|d s].
    + now rewrite (Hc eq_refl).
    + apply andb_true_iff in Hadj as [Hd _]. simpl in Hd.
      destruct (p d); [discriminate|]. rewrite IH. now rewrite (Hc eq_refl).
  - now rewrite IH.
Qed.

Lemma squeeze_no_adj (p : char -> bool) (one : char) (s : str) :
  no_adj p (squeeze p one s) = true.
Proof.
  induction s as [|c s IH]; [reflexivity|].
  destruct (p c) eqn:Hc.
  - destruct s as [|d s]; [simpl; now rewrite Hc|].
    destruct (p d) eqn:Hd.
    + simpl. rewrite Hc, Hd. simpl in IH. now rewrite Hd in IH.
    + replace (squeeze p one (c :: d :: s))
        with (one :: squeeze p one (d :: s)) by (simpl; now rewrite Hc, Hd).
      rewrite (SubFacts.squeeze_skip p one d s Hd) in *.
      cbn [no_adj] in *. rewrite Hd in IH |- *. rewrite andb_false_r.
      simpl in *. exact IH.
  - rewrite (SubFacts.squeeze_skip p one c s Hc).
    cbn [no_adj]. rewrite IH, Hc. simpl. now destruct (squeeze p one s).
Qed.

Lemma squeeze_class (p : char -> bool) (one : char) (s : str) :
  Forall (fun c => p c = true -> c = one) (squeeze p one s).
Proof.
  induction s as [|c s IH]; [constructor|]. simpl.
  destruct (p c) eqn:Hc.
  - destruct s as [|d s]; [repeat constructor|].
    destruct (p d); [assumption|]. constructor; auto.
  - constructor; [congruence|assumption].
Qed.

Lemma squeeze_Forall (P : char -> Prop) (p : char -> bool) (one : char)
      (s : str) :
  P one -> Forall P s -> Forall P (squeeze p one s).
Proof.
  intros Hone. induction s as [|c s IH]; [constructor|]. intros H.
  inversion H; subst. simpl. destruct (p c).
  - destruct s as [|d s]; [repeat constructor; assumption|].
    destruct (p d); auto.
  - auto.
Qed.

(** Collapsing the runs of a class [q] brings no two characters of a
    disjoint class [p] together. *)
Lemma squeeze_keeps_no_adj (p q : char -> bool) (one : char) (s : str) :
  (forall c, q c = true -> p c = false) -> p one = false ->
  no_adj p s = true -> no_adj p (squeeze q one s) = true.
Proof.
  intros Hdis Hone. induction s as [|c s IH]; [reflexivity|]. intros Hadj.
  pose proof (no_adj_cons _ _ _ Hadj) as Hadj'. specialize (IH Hadj').
  destruct (q c) eqn:Hc.
  - destruct s as [|d s]; [simpl; rewrite Hc; reflexivity|].
    destruct (q d) eqn:Hd.
    + simpl. rewrite Hc, Hd. simpl in IH. now rewrite Hd in IH.
    + replace (squeeze q one (c :: d :: s))
        with (one :: squeeze q one (d :: s)) by (simpl; now rewrite Hc, Hd).
      destruct (squeeze_head q one d s) as [tl Htl]. rewrite Htl in *.
      set (h := if q d then one else d) in *.
      change (no_adj p (one :: h :: tl))
        with (negb (p one && p h) && no_adj p (h :: tl)).
      now rewrite Hone, IH.
  - rewrite (SubFacts.squeeze_skip q one c s Hc).
    destruct s as [|d s]; [reflexivity|].
    destruct (squeeze_head q one d s) as [tl Htl]. rewrite Htl in *.
    set (h := if q d then one else d) in *.
    assert (Hh : negb (p c && p h) = true).
    { unfold h. destruct (q d) eqn:Hd.
      - now rewrite Hone, andb_false_r.
      - simpl in Hadj. now apply andb_true_iff in Hadj as [Hcd _]. }
    change (no_adj p (c :: h :: tl))
      with (negb (p c && p h) && no_adj p (h :: tl)).
    now rewrite Hh, IH.
Qed.

Lemma normalize_text_squeeze (t : str) :
  normalize_text t =
  strip (squeeze is_nl nl (squeeze is_blank_char sp t)).
Proof.
  unfold normalize_text, re_blanks, re_newlines.
  rewrite (SubFacts.sub_rep_squeeze is_blank_char sp 1) by now left.
  rewrite (SubFacts.sub_rep_squeeze is_nl nl 2); [reflexivity|].
  right. split; [reflexivity|]. intros c Hc. now apply N.eqb_eq in Hc.
Qed.

Lemma is_blank_sp (c : char) :
  is_blank_char c = true -> c = sp \/ c = tab.
Proof.
  unfold is_blank_char. intros H. apply orb_true_iff in H as [H|H];
    apply N.eqb_eq in H; auto.
Qed.

(** What a normalised text looks like: no tab, no two blanks and no two
    line breaks in a row, no whitespace at either end. *)
Lemma normalize_text_shape (t : str) :
  let z := normalize_text t in
  no_adj is_blank_char z = true /\
  Forall (fun c => is_blank_char c = true -> c = sp) z /\
  no_adj is_nl z = true /\
  strip z = z.
Proof.
  intros z. unfold z. rewrite normalize_text_squeeze.
  set (a := squeeze is_blank_char sp t). set (b := squeeze is_nl nl a).
  destruct (strip_infix b) as (u & v & Hb).
  assert (Ha1 : no_adj is_blank_char b = true).
  { apply squeeze_keeps_no_adj; [| reflexivity | apply squeeze_no_adj].
    intros c Hc. apply N.eqb_eq in Hc. now subst. }
  assert (Ha2 : Forall (fun c => is_blank_char c = true -> c = sp) b).
  { apply squeeze_Forall; [discriminate | apply squeeze_class]. }
  assert (Ha3 : no_adj is_nl b = true) by apply squeeze_no_adj.
  rewrite Hb in Ha1, Ha2, Ha3.
  apply no_adj_app in Ha1 as [_ Ha1]. apply no_adj_app in Ha1 as [Ha1 _].
  apply no_adj_app in Ha3 as [_ Ha3]. apply no_adj_app in Ha3 as [Ha3 _].
  apply Forall_app in Ha2 as [_ Ha2]. apply Forall_app in Ha2 as [Ha2 _].
  repeat split; auto using strip_idem.
Qed.

End NormFacts.

(** C9. [normalize_text] is idempotent; it replaces each maximal run of
    spaces and tabs by one space, each run of two or more line breaks by
    one line break, and trims whitespace at both ends; it is defined on
    every text, the empty one included. *)
Theorem normalize_text_idempotent : forall t : str,
  normalize_text (normalize_text t) = normalize_text t /\
  normalize_text t = strip (squeeze is_nl nl (squeeze is_blank_char sp t)) /\
  normalize_text [] = [].
Proof.
  intros t. split; [|split; [apply NormFacts.normalize_text_squeeze|reflexivity]].
  destruct (NormFacts.normalize_text_shape t) as (H1 & H2 & H3 & H4).
  rewrite (NormFacts.normalize_text_squeeze (normalize_text t)).
  rewrite (NormFacts.squeeze_fix _ _ _ H1 H2).
  rewrite (NormFacts.squeeze_fix is_nl nl _ H3); [exact H4|].
  apply Forall_forall. intros c _ Hc. now apply N.eqb_eq in Hc.
Qed.

(** ** Label-anchored capture *)

Module FindFacts.

Import ReFacts SubFacts.

Lemma run_cat_head (r1 r2 : regex) (s s1 s2 : str) (g1 g2 : list str)
      (tl1 tl2 : list (list str * str)) :
  run r1 s = (g1, s1) :: tl1 -> run r2 s1 = (g2, s2) :: tl2 ->
  exists tl, run (Cat r1 r2) s = (g1 ++ g2, s2) :: tl.
Proof.
  intros H1 H2. cbn [run]. rewrite H1. cbn [flat_map fst snd].
  rewrite H2. cbn [map app fst snd]. eauto.
Qed.

Lemma run_rep_head (p : char -> bool) (lo : nat) (hi : option nat)
      (s rest : str) (tl : list str) :
  reps p lo hi s = rest :: tl ->
  run (Rep p lo hi) s = ([], rest) :: map (fun x => ([], x)) tl.
Proof. intros H. cbn [run]. now rewrite H. Qed.

Lemma first_line_span (s : str) :
  exists rest,
    s = first_line s ++ rest /\
    Forall (fun c => is_dot c = true) (first_line s) /\ stops is_dot rest.
Proof.
  induction s as [|c s (rest & Hs & Hl & Hr)]; simpl.
  - exists []. repeat split; constructor.
  - destruct (is_nl c) eqn:Hc.
    + exists (c :: s). repeat split; [constructor|].
      simpl. unfold is_dot. unfold is_nl in Hc. now rewrite Hc.
    + exists rest. repeat split; auto.
      * simpl. now f_equal.
      * constructor; [|assumption]. unfold is_dot. unfold is_nl in Hc.
        now rewrite Hc.
Qed.

Lemma lstrip_span (r : str) :
  exists ws,
    r = ws ++ lstrip r /\ Forall (fun c => isspace c = true) ws /\
    stops isspace (lstrip r).
Proof.
  induction r as [|c r (ws & Hr & Hws & Hst)]; simpl.
  - exists []. repeat split; constructor.
  - destruct (isspace c) eqn:Hc.
    + exists (c :: ws). repeat split; auto. simpl. now f_equal.
    + exists []. repeat split; auto.
Qed.

Lemma not_space_dot (c : char) : isspace c = false -> is_dot c = true.
Proof.
  intros H. unfold is_dot. destruct (c =? nl)%N eqn:E; [|reflexivity].
  apply N.eqb_eq in E. subst. discriminate.
Qed.

Lemma colon_dash_not_space (c : char) :
  is_colon_dash c = true -> isspace c = false.
Proof.
  unfold is_colon_dash. intros H.
  apply orb_true_iff in H as [H|H]; apply N.eqb_eq in H; now subst.
Qed.

(** The capture [(.+)] at a character that is no line break takes the
    rest of the line. *)
Lemma run_line (c : char) (more : str) :
  is_dot c = true ->
  exists rest tl,
    run (Cat (Grp (Rep is_dot 1 None)) Emp) (c :: more)
    = ([first_line (c :: more)], rest) :: tl.
Proof.
  intros Hc. destruct (first_line_span (c :: more)) as (rest & Hs & Hl & Hr).
  assert (Hlen : 1 <= length (first_line (c :: more))).
  { simpl. unfold is_nl. unfold is_dot in Hc.
    destruct (c =? nl)%N; [discriminate|simpl; lia]. }
  destruct (reps_greedy is_dot _ rest Hl Hr 1 Hlen) as [tl Htl].
  rewrite <- Hs in Htl. exists rest. eexists.
  cbn [run]. rewrite Htl. cbn [map flat_map fst snd app].
  rewrite Hs at 1. rewrite consumed_app. reflexivity.
Qed.

(** After the label: whitespace, an optional colon or dash and whitespace
    are passed over, and the capture starts at the text that follows. *)
Lemma run_capture (r : str) (c : char) (more : str) :
  after_separator r = c :: more ->
  exists rest tl,
    run re_capture r = ([first_line (c :: more)], rest) :: tl.
Proof.
  unfold after_separator. intros H.
  destruct (lstrip_span r) as (ws1 & Hr & Hws1 & Hst1).
  destruct (reps_greedy isspace ws1 _ Hws1 Hst1 0 (Nat.le_0_l _)) as [tl1 H1].
  rewrite <- Hr in H1. apply run_rep_head in H1.
  destruct (lstrip r) as [|c0 r2] eqn:Hl; [discriminate|].
  destruct (is_colon_dash c0) eqn:Hc0.
  - destruct (lstrip_span r2) as (ws2 & Hr2 & Hws2 & Hst2).
    rewrite H in Hr2, Hst2.
    assert (H2 : exists tl, reps is_colon_dash 0 (Some 1) (c0 :: r2) = r2 :: tl).
    { simpl. rewrite Hc0. simpl. destruct r2 as [|d r2]; simpl; eauto.
      rewrite andb_false_r. simpl. eauto. }
    destruct H2 as [tl2 H2]. apply run_rep_head in H2.
    destruct (reps_greedy isspace ws2 _ Hws2 Hst2 0 (Nat.le_0_l _)) as [tl3 H3].
    rewrite <- Hr2 in H3. apply run_rep_head in H3.
    destruct (run_line c more (not_space_dot c Hst2)) as (rest & tl4 & H4).
    destruct (run_cat_head _ _ _ _ _ _ _ _ _ H3 H4) as [tl5 H5].
    destruct (run_cat_head _ _ _ _ _ _ _ _ _ H2 H5) as [tl6 H6].
    destruct (run_cat_head _ _ _ _ _ _ _ _ _ H1 H6) as [tl7 H7].
    exists rest, tl7. exact H7.
  - injection H as <- <-. simpl in Hst1.
    assert (H2 : exists tl, reps is_colon_dash 0 (Some 1) (c0 :: r2) = (c0 :: r2) :: tl).
    { simpl. rewrite Hc0. simpl. eauto. }
    destruct H2 as [tl2 H2]. apply run_rep_head in H2.
    assert (H3 : exists tl, reps isspace 0 None (c0 :: r2) = (c0 :: r2) :: tl).
    { simpl. rewrite Hst1. simpl. eauto. }
    destruct H3 as [tl3 H3]. apply run_rep_head in H3.
    destruct (run_line c0 r2 (not_space_dot c0 Hst1)) as (rest & tl4 & H4).
    destruct (run_cat_head _ _ _ _ _ _ _ _ _ H3 H4) as [tl5 H5].
    destruct (run_cat_head _ _ _ _ _ _ _ _ _ H2 H5) as [tl6 H6].
    destruct (run_cat_head _ _ _ _ _ _ _ _ _ H1 H6) as [tl7 H7].
    exists rest, tl7. exact H7.
Qed.

(** A colon or dash with nothing after it: the optional separator is
    given back and becomes the captured text. *)
Lemma run_capture_separator (ws : str) (c : char) :
  Forall (fun x => isspace x = true) ws -> is_colon_dash c = true ->
  exists tl, run re_capture (ws ++ [c]) = ([[c]], []) :: tl.
Proof.
  intros Hws Hc.
  assert (Hst : stops isspace [c]) by (simpl; now apply colon_dash_not_space).
  destruct (reps_greedy isspace ws _ Hws Hst 0 (Nat.le_0_l _)) as [tl1 H1].
  apply run_rep_head in H1.
  assert (H2 : exists tl,
             run (seq [Rep is_colon_dash 0 (Some 1); Rep isspace 0 None;
                       Grp (Rep is_dot 1 None)]) [c] = ([[c]], []) :: tl).
  { unfold is_colon_dash in Hc. apply orb_true_iff in Hc as [Hc|Hc];
      apply N.eqb_eq in Hc; subst c; vm_compute; eauto. }
  destruct H2 as [tl2 H2].
  destruct (run_cat_head _ _ _ _ _ _ _ _ _ H1 H2) as [tl3 H3].
  exists tl3. exact H3.
Qed.

Section WithUcd.

Variable U : Ucd.t.

Lemma run_label (label s : str) :
  run (re_label U label) s =
  match ci_prefix U label s with Some rest => [([], rest)] | None => [] end.
Proof.
  revert s. induction label as [|c label IH]; intros s; [reflexivity|].
  change (re_label U (c :: label))
    with (Cat (Chr (Ucd.ci_eq U c)) (re_label U label)).
  cbn [run]. destruct s as [|x s]; [reflexivity|]. simpl ci_prefix.
  destruct (Ucd.ci_eq U c x); [|reflexivity].
  cbn [flat_map fst snd]. rewrite IH.
  now destruct (ci_prefix U label s).
Qed.

Lemma run_find_after (label s : str) :
  run (re_find_after U label) s =
  match ci_prefix U label s with
  | Some r => run re_capture r
  | None => []
  end.
Proof.
  change (re_find_after U label) with (Cat (re_label U label) re_capture).
  cbn [run]. rewrite run_label.
  destruct (ci_prefix U label s) as [r|]; [|reflexivity].
  cbn [flat_map fst snd app]. rewrite app_nil_r.
  rewrite <- (map_id (run re_capture r)) at 2.
  apply map_ext. now intros [g rest].
Qed.

Lemma search_from_eq (r : regex) (pr s : str) :
  search_from r pr s =
  match run r s with
  | m :: _ =>
      Some {| before := rev pr;
              groups := consumed s (snd m) :: fst m;
              after := snd m |}
  | [] =>
      match s with
      | [] => None
      | c :: s' => search_from r (c :: pr) s'
      end
  end.
Proof. destruct s; reflexivity. Qed.

(** The search stops at the first occurrence of the label, when the rest
    of the pattern can follow it there. *)
Lemma search_at_label (label : str) (text : str) :
  forall pr r g rest tl,
    after_label U label text = Some r ->
    run re_capture r = (g, rest) :: tl ->
    exists m, search_from (re_find_after U label) pr text = Some m /\
              group m 1 = nth 0 g [].
Proof.
  induction text as [|x text IH]; intros pr r g rest tl Hl Hrun;
    rewrite search_from_eq, run_find_after; simpl in Hl.
  - destruct (ci_prefix U label []) as [r'|]; [|discriminate].
    injection Hl as ->. rewrite Hrun. eexists. split; reflexivity.
  - destruct (ci_prefix U label (x :: text)) as [r'|].
    + injection Hl as ->. rewrite Hrun. eexists. split; reflexivity.
    + exact (IH _ _ _ _ _ Hl Hrun).
Qed.


Lemma find_after_value (label text r : str) (g : list str) (rest : str)
      (tl : list (list str * str)) (maxlen : nat) :
  after_label U label text = Some r ->
  run re_capture r = (g, rest) :: tl ->
  find_after U label text maxlen
  = firstn maxlen (strip (first_line (strip (nth 0 g [])))).
Proof.
  intros Hl Hrun. unfold find_after, search.
  destruct (search_at_label label text [] r g rest tl Hl Hrun) as (m & -> & Hg).
  now rewrite Hg, first_line_split.
Qed.


Lemma first_line_no_nl (s : str) :
  Forall (fun c => is_nl c = false) (first_line s).
Proof.
  induction s as [|c s IH]; simpl; [constructor|].
  destruct (is_nl c) eqn:Hc; constructor; assumption.
Qed.

Lemma first_line_whole (s : str) :
  Forall (fun c => is_nl c = false) s -> first_line s = s.
Proof.
  induction 1 as [|c s Hc _ IH]; simpl; [reflexivity|].
  rewrite Hc. now f_equal.
Qed.


Lemma no_nl_forallb (u : str) :
  forallb (fun c => negb (is_nl c)) u = true ->
  Forall (fun c => is_nl c = false) u.
Proof.
  intros H. apply Forall_forall. intros c Hc.
  rewrite forallb_forall in H. specialize (H c Hc).
  now destruct (is_nl c).
Qed.

Lemma strip_first_line (s : str) :
  strip (first_line (strip (first_line s))) = strip (first_line s).
Proof.
  pose proof (first_line_no_nl s) as H.
  destruct (NormFacts.strip_infix (first_line s)) as (u & v & Huv).
  rewrite Huv in H. apply Forall_app in H as [_ H].
  apply Forall_app in H as [H _].
  rewrite (first_line_whole _ H). apply NormFacts.strip_idem.
Qed.

(** The value of a field whose label is followed by text. *)
Lemma find_after_text (label text r : str) (c : char) (more : str)
      (maxlen : nat) :
  after_label U label text = Some r ->
  after_separator r = c :: more ->
  find_after U label text maxlen
  = firstn maxlen (strip (first_line (c :: more))).
Proof.
  intros Hl Hsep. destruct (run_capture r c more Hsep) as (rest & tl & Hrun).
  rewrite (find_after_value label text r _ rest tl maxlen Hl Hrun).
  cbn [nth]. now rewrite strip_first_line.
Qed.

(** The value of a field whose label is followed by a colon or a dash
    and nothing else. *)
Lemma find_after_separator (label text ws : str) (c : char) (maxlen : nat) :
  after_label U label text = Some (ws ++ [c]) ->
  Forall (fun x => isspace x = true) ws -> is_colon_dash c = true ->
  find_after U label text maxlen = firstn maxlen [c].
Proof.
  intros Hl Hws Hc. destruct (run_capture_separator ws c Hws Hc) as [tl Hrun].
  rewrite (find_after_value label text _ _ _ tl maxlen Hl Hrun).
  cbn [nth]. f_equal.
  unfold is_colon_dash in Hc. apply orb_true_iff in Hc as [Hc|Hc];
    apply N.eqb_eq in Hc; subst c; reflexivity.
Qed.

End WithUcd.

End FindFacts.

(** ** The field mapping *)

Module FieldFacts.

Import ReFacts SubFacts FindFacts.

Lemma sub_chr_filter (p : char -> bool) (s : str) :
  sub (Chr p) [] s = filter (fun c => negb (p c)) s.
Proof.
  unfold sub. induction s as [|c s IH]; [reflexivity|].
  rewrite sub_from_cons. cbn [run filter]. destruct (p c); cbn [negb].
  - cbn [snd length]. rewrite Nat.sub_succ_l, Nat.sub_diag by lia. exact IH.
  - now f_equal.
Qed.

Section WithUcd.

Variable U : Ucd.t.

Lemma digits_of_decimal (s : str) :
  Forall (fun c => Ucd.isdecimal U c = true) (digits_of U s).
Proof. apply Forall_forall. intros c Hc. now apply filter_In in Hc. Qed.

Lemma digits_value_all (ds : str) :
  Forall (fun c => Ucd.isdecimal U c = true) ds ->
  forall acc,
    digits_value U acc ds
    = Some (fold_left (fun a c => 10 * a + digit_val U c)%Z ds acc).
Proof.
  induction 1 as [|c ds Hc _ IH]; intros acc; simpl; [reflexivity|].
  unfold Ucd.isdecimal in Hc. unfold digit_val at 2.
  destruct (Ucd.decimal U c); [apply IH|discriminate].
Qed.

Lemma isdigit_all (ds : str) :
  Forall (fun c => Ucd.isdecimal U c = true) ds ->
  forallb (Ucd.isdigit U) ds = true.
Proof.
  intros H. apply forallb_forall. intros c Hc.
  rewrite Forall_forall in H. unfold Ucd.isdigit. now rewrite (H c Hc).
Qed.

(** Within the conversion limit [to_int_num] never raises: it gives the
    number written by the digits of the text, or [None] without digits. *)
Lemma to_int_num_digits (v : str) :
  length v <= int_max_str_digits ->
  to_int_num U (Some v)
  = Ok (match digits_of U v with
        | [] => None
        | ds => Some (number_of U ds)
        end).
Proof.
  intros Hlen. destruct v as [|c v]; [reflexivity|].
  unfold to_int_num, re_non_digit. rewrite sub_chr_filter.
  replace (filter (fun c0 => negb (negb (Ucd.isdecimal U c0))) (c :: v))
    with (digits_of U (c :: v))
    by (apply filter_ext; intros a; now rewrite negb_involutive).
  pose proof (digits_of_decimal (c :: v)) as Hdec.
  pose proof (filter_length_le (Ucd.isdecimal U) (c :: v)) as Hle.
  fold (digits_of U (c :: v)) in Hle.
  destruct (digits_of U (c :: v)) as [|d ds] eqn:Hds; [reflexivity|].
  unfold str_isdigit. rewrite (isdigit_all _ Hdec). unfold int.
  replace (length (d :: ds) <=? int_max_str_digits) with true
    by (symmetry; apply Nat.leb_le; lia).
  now rewrite (digits_value_all _ Hdec).
Qed.

Lemma find_after_length (label text : str) (maxlen : nat) :
  length (find_after U label text maxlen) <= maxlen.
Proof.
  unfold find_after. destruct (search _ text); [|simpl; lia].
  apply firstn_le_length.
Qed.

(** [extract_fields] returns the five fields, whatever the text. *)
Lemma extract_fields_ok (text : str) :
  let t := normalize_text text in
  extract_fields U text
  = Ok [(lit "Fecha Documento",
         VStr (match search (re_date U) t with
               | Some m => group m 1
               | None => []
               end));
        (lit "Solicitante (Nombre)", VStr (find_after U (lit "NOMBRE") t 400));
        (lit "Unidad Requirente",
         VStr (find_after U (lit "REQUIRENTE (UNIDAD)") t 400));
        (lit "Objetivo", VStr (find_after U (lit "OBJETIVO") t 400));
        (lit "Monto Estimado",
         of_optional_int
           (match digits_of U (find_after U (lit "MONTO ESTIMADO") t 400) with
            | [] => None
            | ds => Some (number_of U ds)
            end))].
Proof.
  intros t. unfold extract_fields. fold t.
  rewrite to_int_num_digits; [reflexivity|].
  pose proof (find_after_length (lit "MONTO ESTIMADO") t 400) as H.
  unfold int_max_str_digits. lia.
Qed.

Lemma field_date (text : str) :
  field U text (lit "Fecha Documento")
  = Some (VStr (match search (re_date U) (normalize_text text) with
                | Some m => group m 1
                | None => []
                end)).
Proof.
  unfold field. rewrite extract_fields_ok.
  generalize (normalize_text text). intros t.
  generalize (search (re_date U) t), (find_after U (lit "NOMBRE") t 400),
    (find_after U (lit "REQUIRENTE (UNIDAD)") t 400),
    (find_after U (lit "OBJETIVO") t 400),
    (find_after U (lit "MONTO ESTIMADO") t 400).
  intros. reflexivity.
Qed.


Lemma field_amount (text : str) :
  field U text (lit "Monto Estimado")
  = Some (match digits_of U (find_after U (lit "MONTO ESTIMADO")
                                        (normalize_text text) 400) with
          | [] => VNone
          | ds => VInt (number_of U ds)
          end).
Proof.
  unfold field. rewrite extract_fields_ok.
  generalize (normalize_text text). intros t.
  generalize (search (re_date U) t), (find_after U (lit "NOMBRE") t 400),
    (find_after U (lit "REQUIRENTE (UNIDAD)") t 400),
    (find_after U (lit "OBJETIVO") t 400),
    (digits_of U (find_after U (lit "MONTO ESTIMADO") t 400)).
  intros o a b c ds. destruct ds; reflexivity.
Qed.

Lemma search_group_whole (r : regex) (t : str) (m : match_obj) :
  search (Grp r) t = Some m -> group m 1 = group m 0.
Proof.
  unfold search. generalize (@nil char) as pr. revert m.
  induction t as [|c t IH]; intros m pr; rewrite search_from_eq; cbn [run].
  - destruct (run r []) as [|[g rest] tl]; [discriminate|].
    cbn [map]. intros H. injection H as <-. reflexivity.
  - destruct (run r (c :: t)) as [|[g rest] tl]; cbn [map].
    + apply IH.
    + intros H. injection H as <-. reflexivity.
Qed.

End WithUcd.

End FieldFacts.

(** ** The date pattern *)

Module DateFacts.

Lemma app_same_length {A : Type} (u1 u2 x1 x2 : list A) :
  u1 ++ x1 = u2 ++ x2 -> length u1 = length u2 -> u1 = u2.
Proof.
  revert u2. induction u1 as [|a u1 IH]; intros [|b u2] H Hlen;
    simpl in *; try discriminate; [reflexivity|].
  injection H as -> H. f_equal. apply (IH u2 H). now injection Hlen.
Qed.

Lemma determined_length (r : regex) (n : nat) (K : str -> Prop) :
  (forall u, matches r u -> length u = n) -> determined r K.
Proof.
  intros Hlen u1 u2 x1 x2 H1 H2 Heq _ _.
  apply (app_same_length _ _ _ _ Heq). now rewrite (Hlen u1), (Hlen u2).
Qed.

(** A repeat is settled by a following character outside its class. *)
Lemma determined_rep (p : char -> bool) (lo : nat) (hi : option nat) :
  determined (Rep p lo hi) (starts_with (fun c => negb (p c))).
Proof.
  intros u1 u2 x1 x2 H1 H2. inversion H1 as [| |? ? ? ? Hu1 _ _| |]; subst.
  inversion H2 as [| |? ? ? ? Hu2 _ _| |]; subst. clear H1 H2.
  revert u2 Hu2. induction Hu1 as [|a u1 Ha _ IH]; intros u2 Hu2 Heq K1 K2.
  - destruct Hu2 as [|b u2 Hb _]; [reflexivity|].
    destruct K1 as (c & x' & -> & Hc). simpl in Heq. injection Heq as -> _.
    now rewrite Hb in Hc.
  - destruct Hu2 as [|b u2 Hb Hu2].
    + destruct K2 as (c & x' & -> & Hc). simpl in Heq. injection Heq as <- _.
      now rewrite Ha in Hc.
    + simpl in Heq. injection Heq as -> Heq. f_equal.
      exact (IH u2 Hu2 Heq K1 K2).
Qed.

Lemma determined_cat (r1 r2 : regex) (K1 K : str -> Prop) :
  determined r1 K1 -> determined r2 K ->
  (forall v x, matches r2 v -> K x -> K1 (v ++ x)) ->
  determined (Cat r1 r2) K.
Proof.
  intros D1 D2 Hnext u1 u2 x1 x2 H1 H2 Heq Kx1 Kx2.
  inversion H1 as [| | |? ? a1 b1 Ha1 Hb1|]; subst.
  inversion H2 as [| | |? ? a2 b2 Ha2 Hb2|]; subst.
  rewrite <- !app_assoc in Heq.
  assert (a1 = a2) by (apply (D1 _ _ _ _ Ha1 Ha2 Heq); auto). subst a2.
  apply app_inv_head in Heq. f_equal. exact (D2 _ _ _ _ Hb1 Hb2 Heq Kx1 Kx2).
Qed.

Lemma determined_weaken (r : regex) (K K' : str -> Prop) :
  determined r K -> (forall x, K' x -> K x) -> determined r K'.
Proof. intros D HK u1 u2 x1 x2 H1 H2 Heq K1 K2. eapply D; eauto. Qed.

Lemma begins_app (q : char -> bool) (v x : str) :
  starts_with q v -> starts_with q (v ++ x).
Proof. intros (c & v' & -> & Hc). exists c, (v' ++ x). auto. Qed.

Lemma begins_rep (p : char -> bool) (lo : nat) (hi : option nat) :
  1 <= lo -> begins (Rep p lo hi) p.
Proof.
  intros Hlo u H. inversion H as [| |? ? ? ? Hu Hlen _| |]; subst.
  destruct Hu as [|c u Hc _]; [simpl in Hlen; lia|]. exists c, u. auto.
Qed.

Lemma begins_chr_cat (p : char -> bool) (r : regex) :
  begins (Cat (Chr p) r) p.
Proof.
  intros u H. inversion H as [| | |? ? a b Ha Hb|]; subst.
  inversion Ha; subst. exists c, b. auto.
Qed.

Lemma begins_cat (r1 r2 : regex) (q : char -> bool) :
  begins r1 q -> begins (Cat r1 r2) q.
Proof.
  intros B u H. inversion H as [| | |? ? a b Ha Hb|]; subst.
  apply begins_app. exact (B a Ha).
Qed.

Lemma begins_implies (q q' : char -> bool) (x : str) :
  (forall c, q c = true -> q' c = true) -> starts_with q x ->
  starts_with q' x.
Proof. intros Hq (c & x' & -> & Hc). exists c, x'. auto. Qed.

Section WithUcd.

Variable U : Ucd.t.

Lemma label_length (label u : str) :
  matches (re_label U label) u -> length u = length label.
Proof.
  revert u. induction label as [|c label IH]; intros u H.
  - now inversion H.
  - change (re_label U (c :: label))
      with (Cat (Chr (Ucd.ci_eq U c)) (re_label U label)) in H.
    inversion H as [| | |? ? a b Ha Hb|]; subst. inversion Ha; subst.
    simpl. f_equal. exact (IH b Hb).
Qed.

Lemma begins_de : begins (re_label U (lit "de")) (Ucd.ci_eq U 0x64%N).
Proof.
  exact (begins_chr_cat (Ucd.ci_eq U 0x64%N) (re_label U [0x65%N])).
Qed.

Hypothesis Hsep : separates U.

(** At a given place the date pattern matches at most one text. *)
Lemma date_determined : determined (re_date U) (fun _ => True).
Proof.
  assert (Hspace_digit : forall c, isspace c = true ->
                                   negb (Ucd.isdecimal U c) = true).
  { intros c Hc. destruct (Hsep c Hc) as (-> & _ & _). reflexivity. }
  assert (Hspace_word : forall c, isspace c = true ->
                                  negb (Ucd.isword U c) = true).
  { intros c Hc. destruct (Hsep c Hc) as (_ & -> & _). reflexivity. }
  assert (Hnot_space : forall q, (forall c, isspace c = true -> q c = false) ->
                                 forall c, q c = true ->
                                           negb (isspace c) = true).
  { intros q Hq c Hc. destruct (isspace c) eqn:E; [|reflexivity].
    now rewrite (Hq c E) in Hc. }
  assert (Hd : forall c, Ucd.ci_eq U 0x64%N c = true ->
                         negb (isspace c) = true).
  { apply Hnot_space. intros c Hc. now destruct (Hsep c Hc) as (_ & _ & ->). }
  assert (Hw : forall c, Ucd.isword U c = true -> negb (isspace c) = true).
  { apply Hnot_space. intros c Hc. now destruct (Hsep c Hc) as (_ & ->  & _). }
  assert (Hn : forall c, Ucd.isdecimal U c = true -> negb (isspace c) = true).
  { apply Hnot_space. intros c Hc. now destruct (Hsep c Hc) as (-> & _ & _). }
  intros u1 u2 x1 x2 H1 H2.
  inversion H1 as [| | | |? ? H1']; subst.
  inversion H2 as [| | | |? ? H2']; subst. clear H1 H2.
  revert u1 u2 x1 x2 H1' H2'.
  change (determined
            (seq [Rep (Ucd.isdecimal U) 1 (Some 2); Rep isspace 1 None;
                  re_label U (lit "de"); Rep isspace 1 None;
                  Rep (Ucd.isword U) 1 None; Rep isspace 1 None;
                  re_label U (lit "de"); Rep isspace 1 None;
                  Rep (Ucd.isdecimal U) 4 (Some 4)])
            (fun _ => True)).
  cbn [seq fold_right].
  (* digits, then whitespace *)
  eapply determined_cat; [apply determined_rep| |].
  2:{ intros v x Hv _. apply begins_app.
      apply (begins_implies isspace); [exact Hspace_digit|].
      exact (begins_cat _ _ _ (begins_rep isspace 1 None (le_n 1)) v Hv). }
  (* whitespace, then "de" *)
  eapply determined_cat; [apply determined_rep| |].
  2:{ intros v x Hv _. apply begins_app.
      apply (begins_implies (Ucd.ci_eq U 0x64%N)); [exact Hd|].
      exact (begins_cat _ _ _ begins_de v Hv). }
  (* "de", then whitespace *)
  eapply determined_cat;
    [apply (determined_length _ 2 (fun _ => True)); apply label_length| |auto].
  (* whitespace, then the word *)
  eapply determined_cat; [apply determined_rep| |].
  2:{ intros v x Hv _. apply begins_app.
      apply (begins_implies (Ucd.isword U)); [exact Hw|].
      exact (begins_cat _ _ _ (begins_rep _ 1 None (le_n 1)) v Hv). }
  (* the word, then whitespace *)
  eapply determined_cat; [apply determined_rep| |].
  2:{ intros v x Hv _. apply begins_app.
      apply (begins_implies isspace); [exact Hspace_word|].
      exact (begins_cat _ _ _ (begins_rep isspace 1 None (le_n 1)) v Hv). }
  (* whitespace, then "de" *)
  eapply determined_cat; [apply determined_rep| |].
  2:{ intros v x Hv _. apply begins_app.
      apply (begins_implies (Ucd.ci_eq U 0x64%N)); [exact Hd|].
      exact (begins_cat _ _ _ begins_de v Hv). }
  (* "de", then whitespace *)
  eapply determined_cat;
    [apply (determined_length _ 2 (fun _ => True)); apply label_length| |auto].
  (* whitespace, then four digits *)
  eapply determined_cat; [apply determined_rep| |].
  2:{ intros v x Hv _. apply begins_app.
      apply (begins_implies (Ucd.isdecimal U)); [exact Hn|].
      exact (begins_cat _ _ _ (begins_rep _ 4 (Some 4) (le_S _ _ (le_S _ _ (le_S _ _ (le_n 1))))) v Hv). }
  (* four digits *)
  apply (determined_cat _ _ (fun _ => True) (fun _ => True)).
  - apply (determined_length _ 4 (fun _ => True)).
    intros u H. inversion H as [| |? ? ? ? _ Hlo Hhi| |]; subst.
    simpl in Hhi. lia.
  - apply (determined_length _ 0 (fun _ => True)).
    intros u H. now inversion H.
  - intros. exact I.
Qed.

(** The leftmost match of the date pattern is one text. *)
Lemma date_first_match_unique (t m1 m2 : str) :
  first_match (re_date U) t m1 -> first_match (re_date U) t m2 -> m1 = m2.
Proof.
  intros (pre1 & post1 & Ht1 & Hm1 & Hleft1) (pre2 & post2 & Ht2 & Hm2 & Hleft2).
  pose proof (Hleft1 _ _ _ Ht2 Hm2) as L1.
  pose proof (Hleft2 _ _ _ Ht1 Hm1) as L2.
  assert (Hlen : length pre1 = length pre2) by lia.
  rewrite Ht1 in Ht2.
  pose proof (app_same_length _ _ _ _ Ht2 Hlen) as Hpre. subst pre2.
  apply app_inv_head in Ht2.
  exact (date_determined _ _ _ _ Hm1 Hm2 Ht2 I I).
Qed.

End WithUcd.

Lemma isspace_chars (c : char) : isspace c = true -> In c whitespace_chars.
Proof.
  unfold isspace. rewrite !orb_true_iff, !andb_true_iff, !N.leb_le, !N.eqb_eq.
  intros H. unfold whitespace_chars. cbn [In]. lia.
Qed.

(** The tables of Unicode 14.0 keep whitespace apart. *)
Lemma ucd14_separates : separates Ucd14.db.
Proof.
  assert (Hall : forallb (fun c => negb (Ucd.isdecimal Ucd14.db c)
                                   && negb (Ucd.isword Ucd14.db c)
                                   && negb (Ucd.ci_eq Ucd14.db 0x64%N c))
                         whitespace_chars = true)
    by (vm_compute; reflexivity).
  intros c Hc. apply isspace_chars in Hc.
  rewrite forallb_forall in Hall. specialize (Hall c Hc).
  apply andb_true_iff in Hall as [Hall H3].
  apply andb_true_iff in Hall as [H1 H2].
  repeat split; [destruct (Ucd.isdecimal Ucd14.db c)
                |destruct (Ucd.isword Ucd14.db c)
                |destruct (Ucd.ci_eq Ucd14.db 0x64%N c)];
    simpl in *; congruence.
Qed.

End DateFacts.

(** C7. The Document Date field is the first substring of the normalised
    text that matches the date pattern (one or two digits, "de", a word,
    "de" and four digits, separated by whitespace, case ignored), the
    whole of it; it is the empty text when no substring matches. In both
    cases [extract_fields] returns. With tables that keep whitespace apart
    from digits, word characters and the letter d, as those of Unicode
    do, only one text matches at the leftmost place. *)
Theorem document_date_first_match :
  (forall (U : Ucd.t) (text : str),
     let t := normalize_text text in
     (exists m, first_match (re_date U) t m /\
                field U text (lit "Fecha Documento") = Some (VStr m))
     \/ (no_match (re_date U) t /\
         field U text (lit "Fecha Documento") = Some (VStr [])))
  /\ (forall (U : Ucd.t) (text m : str),
        separates U ->
        first_match (re_date U) (normalize_text text) m ->
        field U text (lit "Fecha Documento") = Some (VStr m))
  /\ separates Ucd14.db.
Proof.
  assert (Hgen : forall (U : Ucd.t) (text : str),
             let t := normalize_text text in
             (exists m, first_match (re_date U) t m /\
                        field U text (lit "Fecha Documento") = Some (VStr m))
             \/ (no_match (re_date U) t /\
                 field U text (lit "Fecha Documento") = Some (VStr []))).
  { intros U text t. rewrite FieldFacts.field_date. fold t.
    destruct (search (re_date U) t) as [m|] eqn:Hs.
    - left. exists (group m 0).
      pose proof (FieldFacts.search_group_whole _ _ _ Hs) as Hg.
      apply ReFacts.search_first_match in Hs as [_ Hfirst].
      split; [assumption|]. now rewrite Hg.
    - right. split; [|reflexivity]. now apply ReFacts.search_no_match. }
  split; [exact Hgen|]. split; [|exact DateFacts.ucd14_separates].
  intros U text m Hsep Hm.
  destruct (Hgen U text) as [(m' & Hm' & Hf)|[Hno _]].
  - now rewrite (DateFacts.date_first_match_unique U Hsep _ _ _ Hm Hm').
  - destruct Hm as (pre & post & Ht & Hmatch & _).
    exfalso. exact (Hno _ _ _ Ht Hmatch).
Qed.

Lemma document_date_first_match_witness :
  separates Ucd14.db /\
  first_match (re_date Ucd14.db)
    (normalize_text (lines ["Petorca,  3 de  Marzo DE 20245"; "NOMBRE: Ana"]))
    (lit "3 de Marzo DE 2024") /\
  field Ucd14.db (lines ["Petorca,  3 de  Marzo DE 20245"; "NOMBRE: Ana"])
    (lit "Fecha Documento")
  = Some (VStr (lit "3 de Marzo DE 2024")).
Proof.
  assert (Hs : search (re_date Ucd14.db)
                 (normalize_text
                    (lines ["Petorca,  3 de  Marzo DE 20245"; "NOMBRE: Ana"]))
               = Some {| before := lit "Petorca, ";
                         groups := [lit "3 de Marzo DE 2024";
                                    lit "3 de Marzo DE 2024"];
                         after := lines ["5"; "NOMBRE: Ana"] |})
    by (vm_compute; reflexivity).
  assert (Hg : group {| before := lit "Petorca, ";
                        groups := [lit "3 de Marzo DE 2024";
                                   lit "3 de Marzo DE 2024"];
                        after := lines ["5"; "NOMBRE: Ana"] |} 0
               = lit "3 de Marzo DE 2024") by (vm_compute; reflexivity).
  pose proof (ReFacts.search_first_match_is _ _ _ _ Hs Hg) as Hm.
  split; [exact (proj2 (proj2 document_date_first_match))|].
  split; [exact Hm|].
  exact (proj1 (proj2 document_date_first_match) Ucd14.db _ _
           (proj2 (proj2 document_date_first_match)) Hm).
Defined.







(** C10. The whitespace around the optional colon or dash may hold line
    breaks: a label followed only by whitespace, an optional colon or
    dash and whitespace up to some later text gives the line of that
    text, not the empty text; for the normalised text
    "NOMBRE:\nJuana Pérez" the Applicant Name is "Juana Pérez". When a
    label is followed by a colon or dash and nothing else, the colon or
    dash itself is the value. *)
Theorem capture_spans_lines :
  (forall (U : Ucd.t) (label text ws1 sep ws2 : str) (c : char) (more : str)
          (maxlen : nat),
     after_label U label text = Some (ws1 ++ sep ++ ws2 ++ c :: more) ->
     Forall (fun x => isspace x = true) ws1 ->
     Forall (fun x => isspace x = true) ws2 ->
     (sep = [] /\ is_colon_dash c = false
      \/ exists x, sep = [x] /\ is_colon_dash x = true) ->
     isspace c = false ->
     find_after U label text maxlen
     = firstn maxlen (strip (first_line (c :: more))))
  /\ (forall (U : Ucd.t) (label text ws : str) (x : char) (maxlen : nat),
        after_label U label text = Some (ws ++ [x]) ->
        Forall (fun y => isspace y = true) ws -> is_colon_dash x = true ->
        find_after U label text maxlen = firstn maxlen [x])
  /\ normalize_text (lines ["NOMBRE:"; "Juana Pérez"])
     = lines ["NOMBRE:"; "Juana Pérez"]
  /\ field Ucd14.db (lines ["NOMBRE:"; "Juana Pérez"])
           (lit "Solicitante (Nombre)")
     = Some (VStr (lit "Juana Pérez"))
  /\ field Ucd14.db (lit "NOMBRE:") (lit "Solicitante (Nombre)")
     = Some (VStr (lit ":")).
Proof.
  split; [|split; [|repeat split; vm_compute; reflexivity]].
  - intros U label text ws1 sep ws2 c more maxlen Hl Hws1 Hws2 Hsep Hc.
    apply (FindFacts.find_after_text U label text _ c more maxlen Hl).
    unfold after_separator. rewrite (lstrip_app_spaces ws1 _ Hws1).
    destruct Hsep as [[-> Hcd]|(x & -> & Hx)]; cbn [app].
    + rewrite (lstrip_app_spaces ws2 _ Hws2), (lstrip_head c more Hc).
      now rewrite Hcd.
    + rewrite (lstrip_head x _ (FindFacts.colon_dash_not_space x Hx)), Hx.
      now rewrite (lstrip_app_spaces ws2 _ Hws2), (lstrip_head c more Hc).
  - intros U label text ws x maxlen Hl Hws Hx.
    exact (FindFacts.find_after_separator U label text ws x maxlen Hl Hws Hx).
Qed.

Lemma capture_spans_lines_witness :
  after_label Ucd14.db (lit "REQUIRENTE (UNIDAD)")
    (lines ["Unidad"; "requirente (unidad)  :"; ""; "Finanzas"])
  = Some (lit "  " ++ lit ":" ++ [nl; nl] ++ 0x46%N :: lit "inanzas") /\
  find_after Ucd14.db (lit "REQUIRENTE (UNIDAD)")
    (lines ["Unidad"; "requirente (unidad)  :"; ""; "Finanzas"]) 400
  = lit "Finanzas" /\
  after_label Ucd14.db (lit "OBJETIVO") (lit "Objetivo -")
  = Some (lit " " ++ [0x2D%N]) /\
  find_after Ucd14.db (lit "OBJETIVO") (lit "Objetivo -") 400 = lit "-".
Proof.
  assert (H1 : after_label Ucd14.db (lit "REQUIRENTE (UNIDAD)")
                 (lines ["Unidad"; "requirente (unidad)  :"; ""; "Finanzas"])
               = Some (lit "  " ++ lit ":" ++ [nl; nl]
                         ++ 0x46%N :: lit "inanzas"))
    by (vm_compute; reflexivity).
  assert (H2 : after_label Ucd14.db (lit "OBJETIVO") (lit "Objetivo -")
               = Some (lit " " ++ [0x2D%N])) by (vm_compute; reflexivity).
  assert (Hsp : forall s, forallb isspace s = true ->
                          Forall (fun x => isspace x = true) s)
    by (intros s Hs; apply Forall_forall; now apply forallb_forall).
  assert (Hw1 : forallb isspace (lit "  ") = true) by (vm_compute; reflexivity).
  assert (Hw2 : forallb isspace [nl; nl] = true) by (vm_compute; reflexivity).
  assert (Hw3 : forallb isspace (lit " ") = true) by (vm_compute; reflexivity).
  assert (Hc : is_colon_dash 0x3A%N = true) by (vm_compute; reflexivity).
  assert (Hd : is_colon_dash 0x2D%N = true) by (vm_compute; reflexivity).
  assert (Hf : isspace 0x46%N = false) by (vm_compute; reflexivity).
  split; [exact H1|]. split; [|split; [exact H2|]].
  - rewrite (proj1 capture_spans_lines Ucd14.db _ _ (lit "  ") (lit ":")
               [nl; nl] 0x46%N (lit "inanzas") 400 H1
               (Hsp _ Hw1) (Hsp _ Hw2)
               (or_intror (ex_intro _ 0x3A%N (conj eq_refl Hc))) Hf).
    vm_compute. reflexivity.
  - rewrite (proj1 (proj2 capture_spans_lines) Ucd14.db _ _ (lit " ") 0x2D%N
               400 H2 (Hsp _ Hw3) Hd).
    vm_compute. reflexivity.
Defined.

(** ** The extraction stages *)

Module ExtractFacts.

Section WithEnv.

Variables page image : Type.
Variable E : env page image.

Lemma returns_ret {A : Type} (a : A) : returns (ret (image := image) a).
Proof. unfold returns, ret. eauto. Qed.

Lemma returns_bind {A B : Type} (m : M image A) (f : A -> M image B) :
  returns m -> (forall a, returns (f a)) -> returns (bind m f).
Proof.
  intros (w & a & ->) Hf. destruct (Hf a) as (w' & b & Hb).
  unfold returns, bind. rewrite Hb. eauto.
Qed.

Lemma returns_try {A : Type} (m : M image A) (h : exn -> M image A) :
  (forall e, returns (h e)) -> returns (try_except m h).
Proof.
  intros Hh. destruct m as [w [a|e]]; unfold returns, try_except; [eauto|].
  destruct (Hh e) as (w' & a & ->). eauto.
Qed.

Lemma returns_emit (ev : event image) : returns (emit ev).
Proof. unfold returns, emit. eauto. Qed.

Lemma returns_handler {A : Type} (ev : event image) (a : A) :
  returns (bind (emit ev) (fun _ => ret a)).
Proof. unfold returns, bind, emit, ret. simpl. eauto. Qed.

(** A loop whose body returns at every element. *)
Lemma for_each_ok {A B : Type} (f : A -> M image B)
      (w : A -> list (event image)) (l : list A) (bs : list B) :
  Forall2 (fun a b => f a = (w a, Ok b)) l bs ->
  for_each f l = (flat_map w l, Ok bs).
Proof.
  induction 1 as [|a b l bs Ha _ IH]; [reflexivity|].
  cbn [for_each flat_map]. unfold bind at 1. rewrite Ha.
  unfold bind at 1. rewrite IH. unfold ret. now rewrite app_nil_r.
Qed.

(** A loop whose body raises at some element stops there. *)
Lemma for_each_raise {A B : Type} (f : A -> M image B)
      (w : A -> list (event image)) (done : list A) (a : A) (todo : list A)
      (bs : list B) (wa : list (event image)) (e : exn) :
  Forall2 (fun x b => f x = (w x, Ok b)) done bs ->
  f a = (wa, Raise e) ->
  for_each f (done ++ a :: todo) = (flat_map w done ++ wa, Raise e).
Proof.
  intros Hdone Ha. induction Hdone as [|x b done bs Hx _ IH].
  - cbn [app for_each flat_map]. unfold bind at 1. now rewrite Ha.
  - cbn [app for_each flat_map]. unfold bind at 1. rewrite Hx.
    unfold bind at 1. rewrite IH. now rewrite app_assoc.
Qed.

Lemma flat_map_nil {A B : Type} (l : list A) :
  flat_map (fun _ : A => @nil B) l = [].
Proof. induction l; [reflexivity|assumption]. Qed.

Lemma docx_to_text_primary_returns (f : file_like) :
  returns (docx_to_text_primary E f).
Proof.
  unfold docx_to_text_primary. destruct (_docx E) as [Document|];
    [|apply returns_ret].
  destruct (Document f) as [opened f']. apply returns_try.
  intros e. apply returns_handler.
Qed.

Lemma docx_to_text_returns (f : file_like) : returns (docx_to_text E f).
Proof.
  unfold docx_to_text. apply returns_bind;
    [apply docx_to_text_primary_returns|].
  intros [[text|] f']; [apply returns_ret|].
  apply returns_try. intros e. apply returns_handler.
Qed.

Lemma pdf_to_text_returns (raw : bytes) : returns (pdf_to_text E raw).
Proof.
  unfold pdf_to_text. apply returns_bind.
  - unfold pdf_to_text_layout. destruct (_pdfplumber E); [|apply returns_ret].
    apply returns_try. intros e. apply returns_handler.
  - intros [txt|]; [apply returns_ret|]. unfold pdf_to_text_ocr.
    destruct (_pytesseract E); [|apply returns_ret].
    destruct (_convert_from_bytes E); [|apply returns_ret].
    apply returns_try. intros e. apply returns_handler.
Qed.

Lemma str_eqb_eq (a b : str) : str_eqb a b = true <-> a = b.
Proof.
  revert b. induction a as [|x a IH]; intros [|y b]; simpl;
    try (split; [discriminate|discriminate]); [tauto|].
  rewrite andb_true_iff, N.eqb_eq, IH. split; [intros [-> ->]|intros H];
    [reflexivity|injection H; auto].
Qed.

Lemma pages_loop (pages : list page) (texts : list (option str)) :
  pages_text E pages texts ->
  Forall2 (fun p b => bind (call (extract_text E p))
                           (fun t => ret (image := image) (or_empty t))
                      = ([], Ok b))
          pages (map or_empty texts).
Proof.
  induction 1 as [|p t pages texts Hp _ IH]; constructor; [|assumption].
  unfold bind, call, ret. now rewrite Hp.
Qed.

(** The layout-aware stage returns the text of the pages when it is not
    blank, and leaves no event. *)
Lemma layout_text (raw : bytes) (open : bytes -> result (list page))
      (pages : list page) (texts : list (option str)) :
  _pdfplumber E = Some open -> open raw = Ok pages ->
  pages_text E pages texts ->
  pdf_to_text_layout E raw
  = ([], Ok (if nonblank (join [nl] (map or_empty texts))
             then Some (join [nl] (map or_empty texts)) else None)).
Proof.
  intros Hlib Hopen Hpages. unfold pdf_to_text_layout. rewrite Hlib, Hopen.
  assert (Hloop : for_each (image := image)
                    (fun p => bind (call (extract_text E p))
                                          (fun t => ret (or_empty t))) pages
                  = ([], Ok (map or_empty texts))).
  { rewrite (for_each_ok _ (fun _ => []) pages (map or_empty texts)).
    - now rewrite flat_map_nil.
    - exact (pages_loop pages texts Hpages). }
  unfold bind at 1. unfold call at 1. unfold bind at 1. rewrite Hloop.
  cbn [app]. now destruct (nonblank (join [nl] (map or_empty texts))).
Qed.

(** When the layout-aware stage does not give a text, [pdf_to_text] is
    the OCR stage, and the first stage has called no OCR. *)
Lemma layout_falls_through_ocr (raw : bytes) :
  layout_falls_through E raw ->
  exists w, no_ocr w /\
            pdf_to_text E raw
            = (w ++ fst (pdf_to_text_ocr E raw), snd (pdf_to_text_ocr E raw)).
Proof.
  assert (Hnone : forall w, pdf_to_text_layout E raw = (w, Ok None) ->
                            pdf_to_text E raw
                            = (w ++ fst (pdf_to_text_ocr E raw),
                               snd (pdf_to_text_ocr E raw))).
  { intros w Hw. unfold pdf_to_text, bind. rewrite Hw.
    now destruct (pdf_to_text_ocr E raw). }
  assert (Hnil : no_ocr (@nil (event image))) by (intros ev []).
  assert (Hwarn : forall msg, no_ocr [@StWarning image msg]).
  { intros msg ev [<-|[]]. reflexivity. }
  intros [Hlib|[(open & e & Hlib & Hopen)
               |[(open & done & p & todo & texts & e & Hlib & Hopen & Hdone & Hp)
                |(open & pages & texts & Hlib & Hopen & Hpages & Hblank)]]].
  - exists []. split; [exact Hnil|]. apply Hnone.
    unfold pdf_to_text_layout. now rewrite Hlib.
  - eexists. split; [apply Hwarn|]. apply Hnone.
    unfold pdf_to_text_layout. rewrite Hlib, Hopen. reflexivity.
  - eexists. split; [apply Hwarn|]. apply Hnone.
    unfold pdf_to_text_layout. rewrite Hlib, Hopen.
    assert (Hloop : for_each (image := image)
                    (fun p => bind (call (extract_text E p))
                                            (fun t => ret (or_empty t)))
                             (done ++ p :: todo)
                    = ([], Raise e)).
    { rewrite (for_each_raise _ (fun _ => []) done p todo
                              (map or_empty texts) [] e).
      - now rewrite flat_map_nil.
      - exact (pages_loop done texts Hdone).
      - unfold bind, call. now rewrite Hp. }
    unfold bind at 1. unfold call at 1. unfold bind at 1. rewrite Hloop.
    reflexivity.
  - exists []. split; [exact Hnil|]. apply Hnone.
    rewrite (layout_text raw open pages texts Hlib Hopen Hpages).
    now rewrite Hblank.
Qed.

End WithEnv.

End ExtractFacts.

(** C2. When pdfplumber is available and the texts of the pages, in
    order and with the empty text for a page without text, joined by
    line breaks are not blank, [pdf_to_text] returns exactly that text
    and makes no call to the OCR capability. *)
Theorem pdf_layout_text_is_final :
  forall (page image : Type) (E : env page image) (raw : bytes)
         (open : bytes -> result (list page)) (pages : list page)
         (texts : list (option str)),
    _pdfplumber E = Some open -> open raw = Ok pages ->
    pages_text E pages texts ->
    nonblank (join [nl] (map or_empty texts)) = true ->
    snd (pdf_to_text E raw) = Ok (join [nl] (map or_empty texts)) /\
    no_ocr (fst (pdf_to_text E raw)).
Proof.
  intros page image E raw open pages texts Hlib Hopen Hpages Hnb.
  unfold pdf_to_text.
  rewrite (ExtractFacts.layout_text page image E raw open pages texts
             Hlib Hopen Hpages).
  rewrite Hnb. cbn. split; [reflexivity|]. intros ev [].
Qed.

Lemma pdf_layout_text_is_final_witness :
  _pdfplumber env_digital
  = Some (fun _ => Ok [Some (lit "Solicitud"); None; Some (lit "NOMBRE: Ana")])
  /\ pages_text env_digital
       [Some (lit "Solicitud"); None; Some (lit "NOMBRE: Ana")]
       [Some (lit "Solicitud"); None; Some (lit "NOMBRE: Ana")]
  /\ snd (pdf_to_text env_digital (utf8 "%PDF-1.7"))
     = Ok (lines ["Solicitud"; ""; "NOMBRE: Ana"])
  /\ no_ocr (fst (pdf_to_text env_digital (utf8 "%PDF-1.7"))).
Proof.
  assert (Hp : pages_text env_digital
                 [Some (lit "Solicitud"); None; Some (lit "NOMBRE: Ana")]
                 [Some (lit "Solicitud"); None; Some (lit "NOMBRE: Ana")])
    by (repeat constructor).
  assert (Hnb : nonblank (join [nl] (map or_empty
                   [Some (lit "Solicitud"); None; Some (lit "NOMBRE: Ana")]))
                = true) by (vm_compute; reflexivity).
  destruct (pdf_layout_text_is_final _ _ env_digital (utf8 "%PDF-1.7") _ _ _
              eq_refl eq_refl Hp Hnb) as [Htext Hocr].
  split; [reflexivity|]. split; [exact Hp|]. split; [|exact Hocr].
  rewrite Htext. vm_compute. reflexivity.
Defined.

Module OcrFacts.

Section WithEnv.

Variables page image : Type.
Variable E : env page image.

Lemma recognize_loop (image_to_string : image -> str -> result str)
      (images : list image) (outs : list str) :
  Forall2 (fun img s => image_to_string img (lit "spa+eng") = Ok s)
          images outs ->
  Forall2 (fun img s =>
             bind (emit (Recognize img (lit "spa+eng")))
                  (fun _ => call (image_to_string img (lit "spa+eng")))
             = ([Recognize img (lit "spa+eng")], Ok s))
          images outs.
Proof.
  induction 1 as [|img s images outs H _ IH]; constructor; [|assumption].
  unfold bind, emit, call. now rewrite H.
Qed.

Lemma flat_map_singleton {A B : Type} (f : A -> B) (l : list A) :
  flat_map (fun a => [f a]) l = map f l.
Proof. induction l as [|a l IH]; [reflexivity|]. simpl. now rewrite IH. Qed.

(** The OCR stage when both libraries are there and nothing raises. *)
Lemma ocr_text (raw : bytes)
      (image_to_string : image -> str -> result str)
      (convert_from_bytes : bytes -> N -> result (list image))
      (images : list image) (outs : list str) :
  _pytesseract E = Some image_to_string ->
  _convert_from_bytes E = Some convert_from_bytes ->
  convert_from_bytes raw 300%N = Ok images ->
  Forall2 (fun img s => image_to_string img (lit "spa+eng") = Ok s)
          images outs ->
  pdf_to_text_ocr E raw
  = (Rasterize raw 300
       :: map (fun img => Recognize img (lit "spa+eng")) images,
     Ok (join [nl] outs)).
Proof.
  intros Hts Hconv Himgs Houts. unfold pdf_to_text_ocr.
  rewrite Hts, Hconv, Himgs.
  pose proof (ExtractFacts.for_each_ok image _ _ images outs
                (recognize_loop image_to_string images outs Houts)) as Hloop.
  rewrite flat_map_singleton in Hloop.
  unfold bind at 1. unfold emit at 1. unfold bind at 1. unfold call at 1.
  unfold bind at 1. rewrite Hloop. unfold ret, try_except. cbn [app].
  now rewrite app_nil_r.
Qed.

(** The OCR stage when rasterising raises. *)
Lemma ocr_rasterize_raises (raw : bytes)
      (image_to_string : image -> str -> result str)
      (convert_from_bytes : bytes -> N -> result (list image)) (e : exn) :
  _pytesseract E = Some image_to_string ->
  _convert_from_bytes E = Some convert_from_bytes ->
  convert_from_bytes raw 300%N = Raise e ->
  pdf_to_text_ocr E raw
  = ([Rasterize raw 300; StWarning (lit "OCR falló: " ++ exn_str e)], Ok []).
Proof.
  intros Hts Hconv Himgs. unfold pdf_to_text_ocr.
  rewrite Hts, Hconv, Himgs. reflexivity.
Qed.

(** The OCR stage when the recogniser raises at some page image. *)
Lemma ocr_recognize_raises (raw : bytes)
      (image_to_string : image -> str -> result str)
      (convert_from_bytes : bytes -> N -> result (list image))
      (done : list image) (img : image) (todo : list image)
      (outs : list str) (e : exn) :
  _pytesseract E = Some image_to_string ->
  _convert_from_bytes E = Some convert_from_bytes ->
  convert_from_bytes raw 300%N = Ok (done ++ img :: todo) ->
  Forall2 (fun i s => image_to_string i (lit "spa+eng") = Ok s) done outs ->
  image_to_string img (lit "spa+eng") = Raise e ->
  pdf_to_text_ocr E raw
  = (Rasterize raw 300
       :: map (fun i => Recognize i (lit "spa+eng")) (done ++ [img])
       ++ [StWarning (lit "OCR falló: " ++ exn_str e)],
     Ok []).
Proof.
  intros Hts Hconv Himgs Hdone Himg. unfold pdf_to_text_ocr.
  rewrite Hts, Hconv, Himgs.
  pose proof (ExtractFacts.for_each_raise image
                (fun i => bind (emit (Recognize i (lit "spa+eng")))
                               (fun _ => call (image_to_string i (lit "spa+eng"))))
                (fun i => [Recognize i (lit "spa+eng")])
                done img todo outs [Recognize img (lit "spa+eng")] e
                (recognize_loop image_to_string done outs Hdone)) as Hloop.
  rewrite flat_map_singleton in Hloop.
  unfold bind at 1. unfold emit at 1. unfold bind at 1. unfold call at 1.
  unfold bind at 1. rewrite Hloop.
  - unfold try_except, bind, emit, ret. cbn [app].
    now rewrite map_app.
  - unfold bind, emit, call. now rewrite Himg.
Qed.

Lemma ocr_unavailable (raw : bytes) :
  _pytesseract E = None \/ _convert_from_bytes E = None ->
  pdf_to_text_ocr E raw = ([], Ok []).
Proof.
  unfold pdf_to_text_ocr. intros [H|H]; rewrite H; [reflexivity|].
  now destruct (_pytesseract E).
Qed.

End WithEnv.

End OcrFacts.

(** C3. When the layout-aware stage is unavailable, raises or gives only
    blank text, [pdf_to_text] is settled by the OCR stage. If OCR is
    available the document is rasterised once at 300 DPI, every page
    image is recognised with the languages spa+eng in page order, and the
    outputs joined by line breaks are returned as they are, blank or not.
    If rasterising or recognising raises, the empty text is returned; if
    OCR is unavailable, the empty text is returned and no OCR call is
    made. *)
Theorem pdf_ocr_fallback :
  forall (page image : Type) (E : env page image) (raw : bytes),
    layout_falls_through E raw ->
    (forall image_to_string convert_from_bytes images outs,
        _pytesseract E = Some image_to_string ->
        _convert_from_bytes E = Some convert_from_bytes ->
        convert_from_bytes raw 300%N = Ok images ->
        Forall2 (fun img s => image_to_string img (lit "spa+eng") = Ok s)
                images outs ->
        exists w,
          no_ocr w /\
          pdf_to_text E raw
          = (w ++ Rasterize raw 300
               :: map (fun img => Recognize img (lit "spa+eng")) images,
             Ok (join [nl] outs)))
    /\ (forall image_to_string convert_from_bytes e,
          _pytesseract E = Some image_to_string ->
          _convert_from_bytes E = Some convert_from_bytes ->
          convert_from_bytes raw 300%N = Raise e ->
          snd (pdf_to_text E raw) = Ok [])
    /\ (forall image_to_string convert_from_bytes done img todo outs e,
          _pytesseract E = Some image_to_string ->
          _convert_from_bytes E = Some convert_from_bytes ->
          convert_from_bytes raw 300%N = Ok (done ++ img :: todo) ->
          Forall2 (fun i s => image_to_string i (lit "spa+eng") = Ok s)
                  done outs ->
          image_to_string img (lit "spa+eng") = Raise e ->
          snd (pdf_to_text E raw) = Ok [])
    /\ (_pytesseract E = None \/ _convert_from_bytes E = None ->
        snd (pdf_to_text E raw) = Ok [] /\ no_ocr (fst (pdf_to_text E raw))).
Proof.
  intros page image E raw Hfall.
  destruct (ExtractFacts.layout_falls_through_ocr page image E raw Hfall)
    as (w & Hw & ->).
  split; [|split; [|split]].
  - intros its conv images outs Hts Hconv Himgs Houts. exists w.
    split; [exact Hw|].
    now rewrite (OcrFacts.ocr_text page image E raw its conv images outs
                   Hts Hconv Himgs Houts).
  - intros its conv e Hts Hconv Himgs.
    now rewrite (OcrFacts.ocr_rasterize_raises page image E raw its conv e
                   Hts Hconv Himgs).
  - intros its conv done img todo outs e Hts Hconv Himgs Hdone Himg.
    now rewrite (OcrFacts.ocr_recognize_raises page image E raw its conv
                   done img todo outs e Hts Hconv Himgs Hdone Himg).
  - intros Hno. rewrite (OcrFacts.ocr_unavailable page image E raw Hno).
    split; [reflexivity|]. cbn [fst]. now rewrite app_nil_r.
Qed.

Lemma pdf_ocr_fallback_witness :
  layout_falls_through env_scanned (utf8 "%PDF-1.4") /\
  snd (pdf_to_text env_scanned (utf8 "%PDF-1.4"))
  = Ok (lines ["OBJETIVO: sillas"; ""]).
Proof.
  assert (Hfall : layout_falls_through env_scanned (utf8 "%PDF-1.4")).
  { right. right. right.
    exists (fun _ => Ok [None; None]), [None; None], [None; None].
    repeat split; repeat constructor. }
  split; [exact Hfall|].
  destruct (proj1 (pdf_ocr_fallback _ _ env_scanned (utf8 "%PDF-1.4") Hfall)
              _ _ [lit "OBJETIVO: sillas"; []] [lit "OBJETIVO: sillas"; []]
              eq_refl eq_refl eq_refl)
    as (w & _ & Heq).
  - repeat constructor.
  - rewrite Heq. vm_compute. reflexivity.
Defined.

Module DocxFacts.

Section WithEnv.

Variables page image : Type.
Variable E : env page image.

Lemma primary_ok (f f' : file_like)
      (Document : file_like -> result docx_document * file_like)
      (document : docx_document) :
  _docx E = Some Document -> Document f = (Ok document, f') ->
  docx_to_text E f = ([], Ok (join [nl] (docx_parts document))).
Proof.
  intros Hlib Hdoc. unfold docx_to_text, docx_to_text_primary.
  rewrite Hlib, Hdoc. reflexivity.
Qed.

(** After a failed primary reader [docx_to_text] is the fallback on the
    stream that reader left. *)
Lemma primary_fails_fallback (f f' : file_like) (w : list (event image)) :
  primary_fails E f f' w ->
  docx_to_text E f
  = match zip_read E (read_all f') (lit "word/document.xml") with
    | Ok xml =>
        (w, Ok (sub re_space_nl [nl]
                  (sub re_tag [] (sub re_p_close [nl] (decode xml)))))
    | Raise e =>
        (w ++ [StError (lit "No se pudo leer el DOCX (fallback ZIP/XML): "
                        ++ exn_str e)],
         Ok [])
    end.
Proof.
  intros [(Hlib & -> & ->)|(Document & e & Hlib & Hdoc & ->)];
    unfold docx_to_text, docx_to_text_primary, docx_zip_xml;
    rewrite Hlib; [|rewrite Hdoc];
    cbn [bind ret call emit try_except app];
    now destruct (zip_read E _ _).
Qed.

End WithEnv.

End DocxFacts.

(** The chain of [docx_to_text] as the program runs it. A stage succeeds
    when it does not raise, whatever its output. When python-docx reads
    the document the result is the paragraph texts in document order
    followed by one line per row of every table, the trimmed cell texts
    of the row joined by " | ", all joined by line breaks. When
    python-docx is missing or raises, the fallback is applied to the
    bytes left in the stream [f'], not to the bytes of the file: it reads
    the archive entry word/document.xml from them, decodes it as UTF-8
    dropping invalid bytes, puts a line break for every paragraph-close
    tag, removes the remaining tags and replaces whitespace before a line
    break by the line break. When the fallback raises as well the result
    is the empty text. *)
Theorem docx_fallback_chain :
  forall (page image : Type) (E : env page image) (f : file_like),
    (forall Document document f',
        _docx E = Some Document -> Document f = (Ok document, f') ->
        docx_to_text E f
        = ([], Ok (join [nl]
                     (paragraphs document
                      ++ flat_map
                           (fun t =>
                              map (fun row => join (lit " | ") (map strip row))
                                  t)
                           (tables document)))))
    /\ (forall f' w,
          primary_fails E f f' w ->
          (forall xml,
              zip_read E (read_all f') (lit "word/document.xml") = Ok xml ->
              docx_to_text E f
              = (w, Ok (sub re_space_nl [nl]
                          (sub re_tag []
                             (sub re_p_close [nl] (decode xml))))))
          /\ (forall e,
                zip_read E (read_all f') (lit "word/document.xml") = Raise e ->
                snd (docx_to_text E f) = Ok [])).
Proof.
  intros page image E f. split.
  - intros Document document f' Hlib Hdoc.
    exact (DocxFacts.primary_ok page image E f f' Document document Hlib Hdoc).
  - intros f' w Hfail.
    rewrite (DocxFacts.primary_fails_fallback page image E f f' w Hfail).
    split; [intros xml ->|intros e ->]; reflexivity.
Qed.

Lemma docx_fallback_chain_witness :
  primary_fails env_docx_fallback_rewound
    (BytesIO (utf8 "<w:p><w:r>NOMBRE:  </w:r></w:p><w:p>Ana Díaz</w:p>") 0)
    (BytesIO (utf8 "<w:p><w:r>NOMBRE:  </w:r></w:p><w:p>Ana Díaz</w:p>") 0)
    [StWarning (lit "No se pudo leer DOCX con python-docx: Package not found")]
  /\ snd (docx_to_text env_docx_fallback_rewound
            (BytesIO (utf8 "<w:p><w:r>NOMBRE:  </w:r></w:p><w:p>Ana Díaz</w:p>")
                     0))
     = Ok (lines ["NOMBRE:"; "Ana Díaz"; ""]).
Proof.
  assert (Hfail : primary_fails env_docx_fallback_rewound
            (BytesIO (utf8 "<w:p><w:r>NOMBRE:  </w:r></w:p><w:p>Ana Díaz</w:p>") 0)
            (BytesIO (utf8 "<w:p><w:r>NOMBRE:  </w:r></w:p><w:p>Ana Díaz</w:p>") 0)
            [StWarning
               (lit "No se pudo leer DOCX con python-docx: Package not found")]).
  { right. eexists. exists (Exception (lit "Package not found")).
    split; [reflexivity|]. split; [reflexivity|]. vm_compute. reflexivity. }
  split; [exact Hfail|].
  rewrite (proj1 (proj2 (docx_fallback_chain _ _ env_docx_fallback_rewound _)
                    _ _ Hfail) _ eq_refl).
  vm_compute. reflexivity.
Defined.

(** C4. The fallback of [docx_to_text] does not read the DOCX it was
    given but what is left of its stream: [file_like.read()] follows the
    attempt of python-docx on the same stream and nothing rewinds it.
    When python-docx raises after it has moved the stream to [pos] and
    the bytes from [pos] on are no archive with the entry
    word/document.xml, the result is the empty text and an error
    message, whatever the entry holds in the file itself. *)
Theorem docx_fallback_misses_document :
  forall (page image : Type) (E : env page image) (buf : bytes) (pos : nat)
         (Document : file_like -> result docx_document * file_like)
         (e e' : exn),
    _docx E = Some Document ->
    Document (BytesIO buf 0) = (Raise e, BytesIO buf pos) ->
    zip_read E (skipn pos buf) (lit "word/document.xml") = Raise e' ->
    docx_to_text E (BytesIO buf 0)
    = ([StWarning (lit "No se pudo leer DOCX con python-docx: " ++ exn_str e);
        StError (lit "No se pudo leer el DOCX (fallback ZIP/XML): "
                 ++ exn_str e')],
       Ok []).
Proof.
  intros page image E buf pos Document e e' Hlib Hdoc Hzip.
  rewrite (DocxFacts.primary_fails_fallback page image E (BytesIO buf 0)
             (BytesIO buf pos)
             [StWarning (lit "No se pudo leer DOCX con python-docx: "
                         ++ exn_str e)]).
  - cbn [read_all]. rewrite Hzip. reflexivity.
  - right. exists Document, e. auto.
Qed.

(** The file holds the entry with the text "NOMBRE: Ana" and a line
    break, as the chain gives it on the file; python-docx rejects the
    file after reading its stream to the end, and [docx_to_text] returns
    the empty text. *)
Lemma docx_fallback_misses_document_witness :
  (zip_read (env_docx_stream_read 22 0) (utf8 "<w:p>NOMBRE: Ana</w:p>")
     (lit "word/document.xml")
   = Ok (utf8 "<w:p>NOMBRE: Ana</w:p>")
   /\ sub re_space_nl [nl]
        (sub re_tag []
           (sub re_p_close [nl] (decode (utf8 "<w:p>NOMBRE: Ana</w:p>"))))
      = lines ["NOMBRE: Ana"; ""])
  /\ docx_to_text (env_docx_stream_read 22 0)
       (BytesIO (utf8 "<w:p>NOMBRE: Ana</w:p>") 0)
     = ([StWarning
           (lit "No se pudo leer DOCX con python-docx: "
            ++ exn_str (Exception (lit "Package not found")));
         StError
           (lit "No se pudo leer el DOCX (fallback ZIP/XML): "
            ++ exn_str (Exception (lit "File is not a zip file")))],
        Ok []).
Proof.
  assert (Hdoc : (fun f : file_like =>
                    (raising (B := docx_document) "Package not found" tt,
                     match f with
                     | BytesIO buf _ => BytesIO buf (length buf - 0)
                     | RawBytes b => RawBytes b
                     end)) (BytesIO (utf8 "<w:p>NOMBRE: Ana</w:p>") 0)
                 = (Raise (Exception (lit "Package not found")),
                    BytesIO (utf8 "<w:p>NOMBRE: Ana</w:p>") 22))
    by (vm_compute; reflexivity).
  assert (Hzip : zip_read (env_docx_stream_read 22 0)
                   (skipn 22 (utf8 "<w:p>NOMBRE: Ana</w:p>"))
                   (lit "word/document.xml")
                 = Raise (Exception (lit "File is not a zip file")))
    by (vm_compute; reflexivity).
  split; [split; vm_compute; reflexivity|].
  exact (docx_fallback_misses_document _ _ (env_docx_stream_read 22 0)
           (utf8 "<w:p>NOMBRE: Ana</w:p>") 22 _ _ _ eq_refl Hdoc Hzip).
Defined.

(** What the fallback gets to read depends on where python-docx left the
    stream: from a stream it read to the end nothing is left, and the
    text of the document is lost. *)
Example docx_fallback_reads_rest_of_stream :
  snd (docx_to_text env_docx_fallback
         (BytesIO (utf8 "<w:p>NOMBRE: Ana</w:p>") 0)) = Ok []
  /\ snd (docx_to_text env_docx_fallback_rewound
            (BytesIO (utf8 "<w:p>NOMBRE: Ana</w:p>") 0))
     = Ok (lines ["NOMBRE: Ana"; ""]).
Proof. split; vm_compute; reflexivity. Qed.

(** The primary reader on a document of two paragraphs and one table. *)
Example docx_primary_rows :
  docx_to_text env_docx (BytesIO (utf8 "PK..") 0)
  = ([], Ok (lines ["Solicitud"; "NOMBRE: Ana"; "Item | Monto";
                    "Sillas | 1000"])).
Proof. vm_compute. reflexivity. Qed.

(** A scanned PDF where pdfplumber and the recogniser both raise: two
    warnings, the empty text and a log that ends with the failure. *)
Example pdf_all_stages_fail :
  extract_text_any env_broken_ocr (utf8 "%PDF-1.4") (lit "pdf")
  = ([StWarning (lit "pdfplumber falló: No /Root object");
      Rasterize (utf8 "%PDF-1.4") 300;
      Recognize (lit "x") (lit "spa+eng");
      StWarning (lit "OCR falló: tesseract is not installed")],
     Ok ([], [lit "Intentando PDF digital con pdfplumber…";
              lit "OCR disponible (pytesseract + pdf2image).";
              lit "No se pudo extraer texto (ni pdfplumber ni OCR)."])).
Proof. vm_compute. reflexivity. Qed.

(** C8. For an extension other than docx and pdf [extract_text_any]
    returns the empty text and a log of exactly one entry, and raises
    nothing. *)
Theorem unsupported_extension :
  forall (page image : Type) (E : env page image) (file_bytes : bytes)
         (ext : str),
    ext <> lit "docx" -> ext <> lit "pdf" ->
    extract_text_any E file_bytes ext
    = ([], Ok ([], [lit "Extensión no soportada."])).
Proof.
  intros page image E file_bytes ext Hdocx Hpdf. unfold extract_text_any.
  destruct (str_eqb ext (lit "docx")) eqn:H1;
    [now apply ExtractFacts.str_eqb_eq in H1|].
  destruct (str_eqb ext (lit "pdf")) eqn:H2;
    [now apply ExtractFacts.str_eqb_eq in H2|].
  reflexivity.
Qed.

Lemma unsupported_extension_witness :
  lit "txt" <> lit "docx" /\ lit "txt" <> lit "pdf" /\
  extract_text_any env_docx (utf8 "NOMBRE: Ana") (lit "txt")
  = ([], Ok ([], [lit "Extensión no soportada."])).
Proof.
  assert (H1 : lit "txt" <> lit "docx") by (vm_compute; discriminate).
  assert (H2 : lit "txt" <> lit "pdf") by (vm_compute; discriminate).
  split; [exact H1|]. split; [exact H2|].
  exact (unsupported_extension _ _ env_docx (utf8 "NOMBRE: Ana") (lit "txt")
           H1 H2).
Defined.

Module AnyFacts.

Section WithEnv.

Variables page image : Type.
Variable E : env page image.

Lemma extract_text_any_docx (file_bytes : bytes) :
  extract_text_any E file_bytes (lit "docx")
  = bind (docx_to_text E (BytesIO file_bytes 0))
         (fun text =>
            ret (text,
                 if negb (nonblank text)
                 then [lit "DOCX leído (python-docx o fallback ZIP/XML).";
                       lit "No se pudo extraer texto del DOCX."]
                 else [lit "DOCX leído (python-docx o fallback ZIP/XML)."])).
Proof.
  unfold extract_text_any.
  replace (str_eqb (lit "docx") (lit "docx")) with true
    by (vm_compute; reflexivity).
  f_equal.
Qed.

Lemma extract_text_any_pdf (file_bytes : bytes) :
  exists logs,
    extract_text_any E file_bytes (lit "pdf")
    = bind (pdf_to_text E file_bytes)
           (fun text =>
              if nonblank text
              then ret (text, logs ++ [lit "Texto extraído (digital u OCR)."])
              else ret ([], logs ++ [lit "No se pudo extraer texto (ni pdfplumber ni OCR)."])).
Proof.
  unfold extract_text_any.
  replace (str_eqb (lit "pdf") (lit "docx")) with false
    by (vm_compute; reflexivity).
  replace (str_eqb (lit "pdf") (lit "pdf")) with true
    by (vm_compute; reflexivity).
  eexists. reflexivity.
Qed.

Lemma extract_text_any_returns (file_bytes : bytes) (ext : str) :
  returns (extract_text_any E file_bytes ext).
Proof.
  unfold extract_text_any.
  destruct (str_eqb ext (lit "docx")).
  - apply ExtractFacts.returns_bind;
      [apply ExtractFacts.docx_to_text_returns|].
    intros text. apply ExtractFacts.returns_ret.
  - destruct (str_eqb ext (lit "pdf")); [|apply ExtractFacts.returns_ret].
    apply ExtractFacts.returns_bind;
      [apply ExtractFacts.pdf_to_text_returns|].
    intros text. destruct (nonblank text); apply ExtractFacts.returns_ret.
Qed.

(** A blank result comes with a log that ends in a failure message; for
    a PDF and for an unsupported extension the blank result is the empty
    text. *)
Lemma blank_docx (file_bytes : bytes)
      (w : list (event image)) (text : str) (logs : list str) :
  extract_text_any E file_bytes (lit "docx") = (w, Ok (text, logs)) ->
  nonblank text = false ->
  last logs [] = lit "No se pudo extraer texto del DOCX.".
Proof.
  intros Hrun Hblank. rewrite extract_text_any_docx in Hrun.
  destruct (ExtractFacts.docx_to_text_returns page image E
              (BytesIO file_bytes 0)) as (w1 & t1 & H1).
  rewrite H1 in Hrun.
  generalize dependent (lit "DOCX leído (python-docx o fallback ZIP/XML).").
  generalize (lit "No se pudo extraer texto del DOCX.").
  intros b a Hrun. unfold bind, ret in Hrun.
  injection Hrun as _ Ht Hl. subst t1. rewrite Hblank in Hl. now subst logs.
Qed.

Lemma blank_pdf (file_bytes : bytes)
      (w : list (event image)) (text : str) (logs : list str) :
  extract_text_any E file_bytes (lit "pdf") = (w, Ok (text, logs)) ->
  nonblank text = false ->
  text = [] /\
  last logs [] = lit "No se pudo extraer texto (ni pdfplumber ni OCR).".
Proof.
  intros Hrun Hblank.
  destruct (extract_text_any_pdf file_bytes) as [l Hl]. rewrite Hl in Hrun.
  destruct (ExtractFacts.pdf_to_text_returns page image E file_bytes)
    as (w1 & t1 & H1).
  rewrite H1 in Hrun.
  generalize dependent (lit "Texto extraído (digital u OCR).").
  generalize (lit "No se pudo extraer texto (ni pdfplumber ni OCR).").
  intros b a Hrun. unfold bind in Hrun.
  destruct (nonblank t1) eqn:Ht1; unfold ret in Hrun;
    injection Hrun as _ Ht Hlog; subst text logs.
  - congruence.
  - split; [reflexivity|]. apply last_last.
Qed.

Lemma other_ext (file_bytes : bytes) (ext : str)
      (w : list (event image)) (text : str) (logs : list str) :
  str_eqb ext (lit "docx") = false -> str_eqb ext (lit "pdf") = false ->
  extract_text_any E file_bytes ext = (w, Ok (text, logs)) ->
  text = [] /\ last logs [] = lit "Extensión no soportada.".
Proof.
  intros Hdocx Hpdf Hrun. unfold extract_text_any in Hrun.
  rewrite Hdocx, Hpdf in Hrun.
  generalize dependent (lit "Extensión no soportada."). intros c Hrun.
  unfold ret in Hrun. injection Hrun as _ Ht Hlog. subst text logs.
  split; reflexivity.
Qed.

Lemma blank_result_logged (file_bytes : bytes) (ext : str)
      (w : list (event image)) (text : str) (logs : list str) :
  extract_text_any E file_bytes ext = (w, Ok (text, logs)) ->
  nonblank text = false ->
  (ext = lit "docx" \/ text = []) /\ In (last logs []) failure_messages.
Proof.
  intros Hrun Hblank.
  destruct (str_eqb ext (lit "docx")) eqn:Hdocx.
  - apply ExtractFacts.str_eqb_eq in Hdocx. subst ext.
    split; [left; reflexivity|]. left. symmetry.
    exact (blank_docx file_bytes w text logs Hrun Hblank).
  - destruct (str_eqb ext (lit "pdf")) eqn:Hpdf.
    + apply ExtractFacts.str_eqb_eq in Hpdf. subst ext.
      destruct (blank_pdf file_bytes w text logs Hrun Hblank) as [Ht Hl].
      split; [right; exact Ht|]. right. left. symmetry. exact Hl.
    + destruct (other_ext file_bytes ext w text logs Hdocx Hpdf Hrun)
        as [Ht Hl].
      split; [right; exact Ht|]. right. right. left. symmetry. exact Hl.
Qed.

(** Both DOCX readers fail: the empty text, and the log says so. *)
Lemma docx_readers_fail (file_bytes : bytes) (f' : file_like)
      (w0 : list (event image)) (e : exn) :
  primary_fails E (BytesIO file_bytes 0) f' w0 ->
  zip_read E (read_all f') (lit "word/document.xml") = Raise e ->
  snd (extract_text_any E file_bytes (lit "docx"))
  = Ok ([], [lit "DOCX leído (python-docx o fallback ZIP/XML).";
             lit "No se pudo extraer texto del DOCX."]).
Proof.
  intros Hfail Hzip. rewrite extract_text_any_docx.
  rewrite (DocxFacts.primary_fails_fallback page image E _ f' w0 Hfail), Hzip.
  reflexivity.
Qed.

End WithEnv.

End AnyFacts.

(** C1. [extract_text_any] returns a text and a log for every byte
    string and every extension, and [extract_fields] returns the mapping
    of the five fields for every text: neither raises. A failed
    extraction shows in the result: a blank text comes with a log ending
    in a failure message, it is the empty text for a PDF and for an
    unsupported extension, and it is the empty text for a DOCX when both
    readers fail. *)
Theorem extraction_never_raises :
  (forall (page image : Type) (E : env page image) (file_bytes : bytes)
          (ext : str),
      returns (extract_text_any E file_bytes ext))
  /\ (forall (U : Ucd.t) (text : str),
        exists d, extract_fields U text = Ok d /\ map fst d = field_keys)
  /\ (forall (page image : Type) (E : env page image) (file_bytes : bytes)
             (ext : str) w text logs,
        extract_text_any E file_bytes ext = (w, Ok (text, logs)) ->
        nonblank text = false ->
        (ext = lit "docx" \/ text = []) /\
        In (last logs []) failure_messages)
  /\ (forall (page image : Type) (E : env page image) (file_bytes : bytes)
             f' w0 e,
        primary_fails E (BytesIO file_bytes 0) f' w0 ->
        zip_read E (read_all f') (lit "word/document.xml") = Raise e ->
        snd (extract_text_any E file_bytes (lit "docx"))
        = Ok ([], [lit "DOCX leído (python-docx o fallback ZIP/XML).";
                   lit "No se pudo extraer texto del DOCX."])).
Proof.
  split; [|split; [|split]].
  - exact AnyFacts.extract_text_any_returns.
  - intros U text. eexists. split;
      [apply FieldFacts.extract_fields_ok|reflexivity].
  - exact AnyFacts.blank_result_logged.
  - exact AnyFacts.docx_readers_fail.
Qed.

Lemma extraction_never_raises_witness :
  primary_fails env_bare (BytesIO (utf8 "PK..") 0) (BytesIO (utf8 "PK..") 0) []
  /\ zip_read env_bare (read_all (BytesIO (utf8 "PK..") 0))
       (lit "word/document.xml")
     = Raise (Exception (lit "File is not a zip file"))
  /\ snd (extract_text_any env_bare (utf8 "PK..") (lit "docx"))
     = Ok ([], [lit "DOCX leído (python-docx o fallback ZIP/XML).";
                lit "No se pudo extraer texto del DOCX."])
  /\ (lit "pdf" = lit "docx" \/ @nil char = [])
  /\ In (last [lit "pdfplumber no disponible; intentaré OCR…";
               lit "OCR NO disponible. Revisa requirements.txt y packages.txt.";
               lit "No se pudo extraer texto (ni pdfplumber ni OCR)."] [])
        failure_messages.
Proof.
  assert (Hfail : primary_fails env_bare (BytesIO (utf8 "PK..") 0)
                    (BytesIO (utf8 "PK..") 0) [])
    by (left; repeat split).
  assert (Hzip : zip_read env_bare (read_all (BytesIO (utf8 "PK..") 0))
                   (lit "word/document.xml")
                 = Raise (Exception (lit "File is not a zip file")))
    by reflexivity.
  assert (Hpdf : extract_text_any env_bare (utf8 "%PDF") (lit "pdf")
                 = ([], Ok ([], [lit "pdfplumber no disponible; intentaré OCR…";
                                 lit "OCR NO disponible. Revisa requirements.txt y packages.txt.";
                                 lit "No se pudo extraer texto (ni pdfplumber ni OCR)."])))
    by (vm_compute; reflexivity).
  split; [exact Hfail|]. split; [exact Hzip|]. split.
  - exact (proj2 (proj2 (proj2 extraction_never_raises))
             _ _ env_bare (utf8 "PK..") _ _ _ Hfail Hzip).
  - exact (proj1 (proj2 (proj2 extraction_never_raises))
             _ _ env_bare (utf8 "%PDF") (lit "pdf") _ _ _ Hpdf eq_refl).
Defined.

(** * Further properties of the program *)

(** ** Normalised text *)

Module NormMore.

Import NormFacts.

Lemma normalize_text_idem (t : str) :
  normalize_text (normalize_text t) = normalize_text t.
Proof.
  destruct (normalize_text_shape t) as (H1 & H2 & H3 & H4).
  rewrite (normalize_text_squeeze (normalize_text t)).
  rewrite (squeeze_fix _ _ _ H1 H2).
  rewrite (squeeze_fix is_nl nl _ H3); [exact H4|].
  apply Forall_forall. intros c _ Hc. now apply N.eqb_eq in Hc.
Qed.

Lemma lstrip_fixed_head (c : char) (s : str) :
  lstrip (c :: s) = c :: s -> isspace c = false.
Proof.
  simpl. destruct (isspace c); [|reflexivity]. intros H.
  pose proof (lstrip_length s) as Hl. rewrite H in Hl. simpl in Hl. lia.
Qed.

Lemma strip_fixed_lstrip (z : str) : strip z = z -> lstrip z = z.
Proof.
  intros H. rewrite <- H at 1. unfold strip.
  rewrite (lstrip_rstrip (lstrip z) (lstrip_idem z)). exact H.
Qed.

Lemma strip_fixed_rstrip (z : str) : strip z = z -> rstrip z = z.
Proof.
  intros H. rewrite <- H at 1. unfold strip. rewrite rstrip_idem. exact H.
Qed.

Lemma strip_fixed_ends (z : str) :
  strip z = z ->
  (forall c z', z = c :: z' -> isspace c = false) /\
  (forall z' c, z = z' ++ [c] -> isspace c = false).
Proof.
  intros H. split.
  - intros c z' ->. apply (lstrip_fixed_head c z').
    exact (strip_fixed_lstrip _ H).
  - intros z' c ->. pose proof (strip_fixed_rstrip _ H) as Hr.
    unfold rstrip in Hr. rewrite rev_app_distr in Hr. simpl in Hr.
    destruct (isspace c) eqn:Hc; [|reflexivity]. exfalso.
    apply (f_equal (@length char)) in Hr.
    rewrite length_rev, length_app in Hr. simpl in Hr.
    pose proof (lstrip_length (rev z')) as Hl. rewrite length_rev in Hl. lia.
Qed.

Lemma squeeze_length (p : char -> bool) (one : char) (s : str) :
  length (squeeze p one s) <= length s.
Proof.
  induction s as [|c s IH]; [simpl; lia|].
  simpl. destruct (p c).
  - destruct s as [|d s]; [simpl; lia|]. destruct (p d); simpl in *; lia.
  - simpl. lia.
Qed.

Lemma strip_length (s : str) : length (strip s) <= length s.
Proof.
  unfold strip, rstrip. rewrite length_rev.
  pose proof (lstrip_length (rev (lstrip s))) as H1.
  rewrite length_rev in H1. pose proof (lstrip_length s). lia.
Qed.

Lemma lstrip_nil_iff (s : str) :
  lstrip s = [] <-> Forall (fun c => isspace c = true) s.
Proof.
  induction s as [|c s IH]; simpl.
  - split; [constructor|reflexivity].
  - destruct (isspace c) eqn:Hc.
    + rewrite IH. split; [now constructor|]. intros H. now inversion H.
    + split; [discriminate|]. intros H. inversion H; congruence.
Qed.

Lemma strip_nil_iff (s : str) :
  strip s = [] <-> Forall (fun c => isspace c = true) s.
Proof.
  unfold strip, rstrip. split.
  - intros H. apply (f_equal (@rev char)) in H. rewrite rev_involutive in H.
    simpl in H. apply lstrip_nil_iff in H. apply Forall_rev in H.
    rewrite rev_involutive in H.
    destruct (lstrip_suffix s) as [u Hu].
    destruct (lstrip s) as [|c l] eqn:Hl; [now apply lstrip_nil_iff|].
    inversion H as [|? ? Hc _]; subst.
    assert (Hfix : lstrip (c :: l) = c :: l) by (rewrite <- Hl; apply lstrip_idem).
    now rewrite (lstrip_fixed_head c l Hfix) in Hc.
  - intros H. apply lstrip_nil_iff in H. rewrite H. reflexivity.
Qed.

Lemma squeeze_all_space (p : char -> bool) (one : char) (s : str) :
  isspace one = true ->
  Forall (fun c => isspace c = true) s ->
  Forall (fun c => isspace c = true) (squeeze p one s).
Proof. intros Hone. now apply squeeze_Forall. Qed.

Lemma squeeze_keeps (p : char -> bool) (one : char) (s : str) (c : char) :
  In c s -> p c = false -> In c (squeeze p one s).
Proof.
  intros Hin Hc. induction s as [|d s IH]; [contradiction|].
  destruct Hin as [->|Hin].
  - rewrite (SubFacts.squeeze_skip p one c s Hc). now left.
  - specialize (IH Hin). simpl. destruct (p d).
    + destruct s as [|e s]; [contradiction|]. destruct (p e); [exact IH|].
      now right.
    + now right.
Qed.

Lemma blank_not_all_space (s : str) (c : char) :
  In c s -> isspace c = false -> ~ Forall (fun x => isspace x = true) s.
Proof.
  intros Hin Hc H. rewrite Forall_forall in H. rewrite (H c Hin) in Hc.
  discriminate.
Qed.

Lemma class_space (p : char -> bool) :
  (forall c, p c = true -> isspace c = true) ->
  forall c, isspace c = false -> p c = false.
Proof.
  intros Hp c Hc. destruct (p c) eqn:E; [|reflexivity].
  now rewrite (Hp c E) in Hc.
Qed.

Lemma blank_is_space (c : char) : is_blank_char c = true -> isspace c = true.
Proof.
  intros H. destruct (is_blank_sp c H); subst; reflexivity.
Qed.

(** Normalising keeps a text blank or not blank as it was. *)
Lemma normalize_text_blank (t : str) :
  normalize_text t = [] <-> Forall (fun c => isspace c = true) t.
Proof.
  rewrite normalize_text_squeeze, strip_nil_iff. split.
  - intros H. apply Forall_forall. intros c Hc.
    destruct (isspace c) eqn:E; [reflexivity|]. exfalso.
    apply (blank_not_all_space _ c) in H; [exact H| |exact E].
    apply squeeze_keeps; [|exact (class_space _ is_nl_space c E)].
    apply squeeze_keeps; [exact Hc|exact (class_space _ blank_is_space c E)].
  - intros H. apply squeeze_all_space; [reflexivity|].
    apply squeeze_all_space; [reflexivity|exact H].
Qed.

Lemma normalize_text_length (t : str) :
  length (normalize_text t) <= length t.
Proof.
  rewrite normalize_text_squeeze.
  pose proof (strip_length (squeeze is_nl nl (squeeze is_blank_char sp t))).
  pose proof (squeeze_length is_nl nl (squeeze is_blank_char sp t)).
  pose proof (squeeze_length is_blank_char sp t). lia.
Qed.

End NormMore.

(** X1. A normalised text holds no tab, no two blanks in a row and no two
    line breaks in a row, and neither starts nor ends with whitespace. *)
Theorem normalize_text_tidy : forall (t : str),
  let z := normalize_text t in
  ~ In tab z /\
  no_adj is_blank_char z = true /\
  no_adj is_nl z = true /\
  (forall c z', z = c :: z' -> isspace c = false) /\
  (forall z' c, z = z' ++ [c] -> isspace c = false).
Proof.
  intros t z.
  destruct (NormFacts.normalize_text_shape t) as (H1 & H2 & H3 & H4).
  fold z in H1, H2, H3, H4.
  destruct (NormMore.strip_fixed_ends z H4) as [Hhd Hlast].
  repeat split; auto.
  intros Hin. rewrite Forall_forall in H2.
  assert (E : tab = sp) by (apply (H2 tab Hin); reflexivity). discriminate.
Qed.

(** X2. Normalising never lengthens a text, and its result is empty
    exactly when the text holds nothing but whitespace. *)
Theorem normalize_text_shrinks : forall (t : str),
  length (normalize_text t) <= length t /\
  (normalize_text t = [] <-> nonblank t = false).
Proof.
  intros t. split; [apply NormMore.normalize_text_length|].
  rewrite NormMore.normalize_text_blank, <- NormMore.strip_nil_iff.
  unfold nonblank. destruct (strip t); split; congruence.
Qed.

(** X3. [extract_fields] gives the same result for a text and for its
    normalised form: normalising beforehand changes no field. *)
Theorem extract_fields_normalized : forall (U : Ucd.t) (text : str),
  extract_fields U (normalize_text text) = extract_fields U text.
Proof.
  intros U text. unfold extract_fields.
  now rewrite NormMore.normalize_text_idem.
Qed.

(** ** Captured values *)

Module FindMore.

Import ReFacts FindFacts.

Lemma Forall_firstn {A : Type} (P : A -> Prop) (n : nat) (l : list A) :
  Forall P l -> Forall P (firstn n l).
Proof.
  intros H. rewrite <- (firstn_skipn n l) in H.
  now apply Forall_app in H as [H _].
Qed.

Lemma strip_no_nl (s : str) :
  Forall (fun c => is_nl c = false) s ->
  Forall (fun c => is_nl c = false) (strip s).
Proof.
  intros H. destruct (NormFacts.strip_infix s) as (u & v & Huv).
  rewrite Huv in H. apply Forall_app in H as [_ H].
  now apply Forall_app in H as [H _].
Qed.

(** The text a match is turned into: one line, trimmed. *)
Lemma value_shape (g : str) (maxlen : nat) :
  let v := firstn maxlen (strip (first_line (strip g))) in
  length v <= maxlen /\
  Forall (fun c => is_nl c = false) v /\
  (forall c v', v = c :: v' -> isspace c = false).
Proof.
  intros v. unfold v. split; [apply firstn_le_length|]. split.
  - apply Forall_firstn, strip_no_nl, first_line_no_nl.
  - intros c v' Hv.
    destruct (strip (first_line (strip g))) as [|d l] eqn:Hs;
      [now rewrite firstn_nil in Hv|].
    destruct maxlen; [discriminate|]. simpl in Hv. injection Hv as <- _.
    apply (proj1 (NormMore.strip_fixed_ends (d :: l)
                    ltac:(rewrite <- Hs; apply NormFacts.strip_idem))
             d l eq_refl).
Qed.

(** The text matched by the part of the pattern after the label holds a
    character that is no line break. *)
Lemma capture_has_text (u : str) :
  matches re_capture u -> exists c, In c u /\ is_dot c = true.
Proof.
  intros H. unfold re_capture in H. cbn [seq fold_right] in H.
  inversion H as [| | |? ? a1 b1 _ H1|]; subst.
  inversion H1 as [| | |? ? a2 b2 _ H2|]; subst.
  inversion H2 as [| | |? ? a3 b3 _ H3|]; subst.
  inversion H3 as [| | |? ? a4 b4 H4 _|]; subst.
  inversion H4 as [| | | |? ? H5]; subst.
  inversion H5 as [| |? ? ? ? Hall Hlen _| |]; subst.
  destruct a4 as [|c a4]; [simpl in Hlen; lia|].
  exists c. split; [|now inversion Hall].
  rewrite !in_app_iff. right. right. right. left. now left.
Qed.

Lemma run_capture_newlines (r : str) :
  Forall (fun c => is_nl c = true) r -> run re_capture r = [].
Proof.
  intros Hr. destruct (run re_capture r) as [|[g rest] tl] eqn:Hrun;
    [reflexivity|]. exfalso.
  assert (Hin : In (g, rest) (run re_capture r)) by (rewrite Hrun; now left).
  apply run_sound in Hin as (u & -> & Hu).
  destruct (capture_has_text u Hu) as (c & Hc & Hdot).
  apply Forall_app in Hr as [Hr _]. rewrite Forall_forall in Hr.
  specialize (Hr c Hc). unfold is_dot in Hdot. unfold is_nl in Hr.
  now rewrite Hr in Hdot.
Qed.

Section WithUcd.

Variable U : Ucd.t.

Lemma ci_prefix_split (label s r : str) :
  ci_prefix U label s = Some r ->
  exists o, s = o ++ r /\ length o = length label.
Proof.
  revert s. induction label as [|c label IH]; intros s H; simpl in H.
  - injection H as ->. now exists [].
  - destruct s as [|x s]; [discriminate|].
    destruct (Ucd.ci_eq U c x); [|discriminate].
    destruct (IH s H) as (o & -> & Hlen). exists (x :: o). simpl. auto.
Qed.

(** Where no occurrence of the label is followed by anything but line
    breaks, the search finds nothing. *)
Lemma search_only_newlines (label s : str) :
  (forall p s' r', s = p ++ s' -> ci_prefix U label s' = Some r' ->
                   Forall (fun c => is_nl c = true) r') ->
  forall pr, search_from (re_find_after U label) pr s = None.
Proof.
  induction s as [|x s IH]; intros Hall pr;
    rewrite search_from_eq, run_find_after.
  - destruct (ci_prefix U label []) as [r'|] eqn:Hp; [|reflexivity].
    now rewrite (run_capture_newlines r' (Hall [] [] r' eq_refl Hp)).
  - destruct (ci_prefix U label (x :: s)) as [r'|] eqn:Hp.
    + rewrite (run_capture_newlines r' (Hall [] _ r' eq_refl Hp)).
      apply IH. intros p s' r0 -> Hp0. exact (Hall (x :: p) s' r0 eq_refl Hp0).
    + apply IH. intros p s' r0 -> Hp0. exact (Hall (x :: p) s' r0 eq_refl Hp0).
Qed.

Lemma later_rest_suffix (label s r p s' r' : str) :
  ci_prefix U label s = Some r -> s = p ++ s' ->
  ci_prefix U label s' = Some r' -> exists w, r = w ++ r'.
Proof.
  intros H1 Hs H2.
  destruct (ci_prefix_split _ _ _ H1) as (o & Ho & Hlo).
  destruct (ci_prefix_split _ _ _ H2) as (o' & Ho' & Hlo').
  subst s'. rewrite Ho in Hs. rewrite app_assoc in Hs.
  apply app_eq_app in Hs as [l [[E1 E2]|[E1 E2]]].
  - assert (l = []).
    { apply (f_equal (@length char)) in E1. rewrite !length_app in E1.
      destruct l; [reflexivity|simpl in E1; lia]. }
    subst l. exists []. now rewrite E2.
  - now exists l.
Qed.

Lemma find_after_only_newlines (label text r : str) (maxlen : nat) :
  after_label U label text = Some r ->
  Forall (fun c => is_nl c = true) r ->
  find_after U label text maxlen = [].
Proof.
  intros Hl Hr. unfold find_after, search.
  assert (Hnone : forall pr,
             search_from (re_find_after U label) pr text = None).
  { revert Hl. induction text as [|x text IH]; intros Hl pr; simpl in Hl.
    - destruct (ci_prefix U label []) as [r0|] eqn:Hp; [|discriminate].
      injection Hl as ->. apply search_only_newlines.
      intros p s' r' Hs Hp'.
      destruct (later_rest_suffix _ _ _ _ _ _ Hp Hs Hp') as [w ->].
      now apply Forall_app in Hr as [_ Hr].
    - destruct (ci_prefix U label (x :: text)) as [r0|] eqn:Hp.
      + injection Hl as ->. apply search_only_newlines.
        intros p s' r' Hs Hp'.
        destruct (later_rest_suffix _ _ _ _ _ _ Hp Hs Hp') as [w ->].
        now apply Forall_app in Hr as [_ Hr].
      + rewrite search_from_eq, run_find_after, Hp. now apply IH. }
  now rewrite Hnone.
Qed.

Lemma find_after_shape (label text : str) (maxlen : nat) :
  let v := find_after U label text maxlen in
  length v <= maxlen /\
  Forall (fun c => is_nl c = false) v /\
  (forall c v', v = c :: v' -> isspace c = false).
Proof.
  unfold find_after. destruct (search (re_find_after U label) text) as [m|].
  - rewrite first_line_split. apply value_shape.
  - simpl. repeat split; [lia|constructor|discriminate].
Qed.

End WithUcd.

End FindMore.

(** X4. Whatever the label and the text, for a [maxlen] that is not
    negative the value [find_after] returns is at most [maxlen]
    characters long, holds no line break and does not start with
    whitespace. The program always calls it with the default 400. *)
Theorem find_after_single_line :
  forall (U : Ucd.t) (label text : str) (maxlen : Z),
    (0 <= maxlen)%Z ->
    let v := find_after U label text (Z.to_nat maxlen) in
    (Z.of_nat (length v) <= maxlen)%Z /\
    Forall (fun c => is_nl c = false) v /\
    (forall c v', v = c :: v' -> isspace c = false).
Proof.
  intros U label text maxlen Hmax.
  destruct (FindMore.find_after_shape U label text (Z.to_nat maxlen))
    as (Hlen & Hline & Hhead).
  split; [lia|]. split; [exact Hline|exact Hhead].
Qed.

Lemma find_after_single_line_witness :
  (0 <= 3)%Z
  /\ find_after Ucd14.db (lit "NOMBRE") (lines ["Nombre:"; "  Juana"; "x"])
       (Z.to_nat 3)
     = lit "Jua"
  /\ (Z.of_nat
        (length (find_after Ucd14.db (lit "NOMBRE")
                   (lines ["Nombre:"; "  Juana"; "x"]) (Z.to_nat 3))) <= 3)%Z.
Proof.
  assert (H0 : (0 <= 3)%Z) by lia.
  split; [exact H0|]. split; [vm_compute; reflexivity|].
  exact (proj1 (find_after_single_line Ucd14.db (lit "NOMBRE")
                  (lines ["Nombre:"; "  Juana"; "x"]) 3%Z H0)).
Defined.

(** X5. When the first occurrence of the label is followed by nothing, or
    by line breaks only, [find_after] returns the empty text. *)
Theorem find_after_label_at_end :
  forall (U : Ucd.t) (label text r : str) (maxlen : nat),
    after_label U label text = Some r ->
    Forall (fun c => is_nl c = true) r ->
    find_after U label text maxlen = [].
Proof. exact FindMore.find_after_only_newlines. Qed.

Lemma find_after_label_at_end_witness :
  after_label Ucd14.db (lit "OBJETIVO") (lines ["Compra"; "Objetivo"; ""; ""])
  = Some [nl; nl] /\
  Forall (fun c => is_nl c = true) [nl; nl] /\
  find_after Ucd14.db (lit "OBJETIVO") (lines ["Compra"; "Objetivo"; ""; ""]) 400
  = [].
Proof.
  assert (Hl : after_label Ucd14.db (lit "OBJETIVO")
                 (lines ["Compra"; "Objetivo"; ""; ""]) = Some [nl; nl])
    by (vm_compute; reflexivity).
  assert (Hr : Forall (fun c => is_nl c = true) [nl; nl])
    by (repeat constructor).
  split; [exact Hl|]. split; [exact Hr|].
  exact (find_after_label_at_end Ucd14.db _ _ _ 400 Hl Hr).
Defined.

(** ** Conversion of the amount *)

Module IntMore.

Import FieldFacts.

Section WithUcd.

Variable U : Ucd.t.

Lemma to_int_num_filter (c : char) (v : str) :
  to_int_num U (Some (c :: v))
  = if str_isdigit U (digits_of U (c :: v))
    then match int U (digits_of U (c :: v)) with
         | Ok n => Ok (Some n)
         | Raise e => Raise e
         end
    else Ok None.
Proof.
  unfold to_int_num, re_non_digit. rewrite sub_chr_filter.
  replace (filter (fun c0 => negb (negb (Ucd.isdecimal U c0))) (c :: v))
    with (digits_of U (c :: v))
    by (apply filter_ext; intros a; now rewrite negb_involutive).
  reflexivity.
Qed.

(** The outcome of [to_int_num] in terms of the digits of the text. *)
Lemma to_int_num_outcome (s : str) :
  to_int_num U (Some s)
  = match digits_of U s with
    | [] => Ok None
    | ds =>
        if length ds <=? int_max_str_digits
        then Ok (Some (number_of U ds))
        else Raise (Exception (lit "Exceeds the limit (4300 digits)"))
    end.
Proof.
  destruct s as [|c v]; [reflexivity|]. rewrite to_int_num_filter.
  pose proof (digits_of_decimal U (c :: v)) as Hdec.
  destruct (digits_of U (c :: v)) as [|d ds]; [reflexivity|].
  unfold str_isdigit. rewrite (isdigit_all U _ Hdec). unfold int.
  destruct (length (d :: ds) <=? int_max_str_digits); [|reflexivity].
  now rewrite (digits_value_all U _ Hdec).
Qed.

Lemma digits_of_idem (s : str) : digits_of U (digits_of U s) = digits_of U s.
Proof.
  unfold digits_of. induction s as [|c s IH]; [reflexivity|]. simpl.
  destruct (Ucd.isdecimal U c) eqn:Hc; [|exact IH]. simpl. now rewrite Hc, IH.
Qed.

Lemma digit_val_nonneg (c : char) : (0 <= digit_val U c)%Z.
Proof. unfold digit_val. destruct (Ucd.decimal U c); lia. Qed.

Lemma fold_digits_nonneg (ds : str) (acc : Z) :
  (0 <= acc)%Z ->
  (0 <= fold_left (fun a c => 10 * a + digit_val U c) ds acc)%Z.
Proof.
  revert acc. induction ds as [|c ds IH]; intros acc Hacc; cbn [fold_left];
    [exact Hacc|].
  apply IH. pose proof (digit_val_nonneg c). lia.
Qed.

Lemma number_of_nonneg (ds : str) : (0 <= number_of U ds)%Z.
Proof. apply fold_digits_nonneg. lia. Qed.

Hypothesis Hten : decimal_below_ten U.

Lemma digit_val_below_ten (c : char) : (digit_val U c < 10)%Z.
Proof.
  unfold digit_val. destruct (Ucd.decimal U c) as [d|] eqn:Hd; [|lia].
  pose proof (Hten c d Hd). lia.
Qed.

Lemma fold_digits_bound (ds : str) (acc : Z) (k : nat) :
  (0 <= acc < 10 ^ Z.of_nat k)%Z ->
  (fold_left (fun a c => 10 * a + digit_val U c) ds acc
   < 10 ^ Z.of_nat (k + length ds))%Z.
Proof.
  revert acc k. induction ds as [|c ds IH]; intros acc k Hacc;
    cbn [fold_left length].
  - rewrite Nat.add_0_r. lia.
  - replace (k + S (length ds)) with (S k + length ds) by lia.
    apply IH. pose proof (digit_val_nonneg c).
    pose proof (digit_val_below_ten c).
    rewrite Nat2Z.inj_succ, Z.pow_succ_r by lia. lia.
Qed.

Lemma number_of_bound (ds : str) :
  (number_of U ds < 10 ^ Z.of_nat (length ds))%Z.
Proof.
  unfold number_of.
  apply (fold_digits_bound ds 0%Z 0). simpl. lia.
Qed.

End WithUcd.

Lemma decimal_in_below_ten (tbl : list (N * N)) (c : char) (d : N) :
  Ucd14.decimal_in tbl c = Some d -> (d < 10)%N.
Proof.
  induction tbl as [|[lo hi] tbl IH]; simpl; [discriminate|].
  destruct ((lo <=? c) && (c <=? hi))%N; [|exact IH].
  intros H. injection H as <-. now apply N.mod_lt.
Qed.

Lemma ucd14_below_ten : decimal_below_ten Ucd14.db.
Proof. intros c d. apply decimal_in_below_ten. Qed.

End IntMore.

(** X6. [to_int_num] looks at the digit characters of the text only. With
    none it returns [None]; with up to 4300 of them (the interpreter's
    limit for converting text to [int]) it returns the number they write;
    with more, [int] raises and so does [to_int_num]. *)
Theorem to_int_num_limit : forall (U : Ucd.t) (s : str),
  (digits_of U s = [] -> to_int_num U (Some s) = Ok None) /\
  (digits_of U s <> [] -> length (digits_of U s) <= 4300 ->
   to_int_num U (Some s) = Ok (Some (number_of U (digits_of U s)))) /\
  (4300 < length (digits_of U s) ->
   exists e, to_int_num U (Some s) = Raise e).
Proof.
  intros U s. rewrite IntMore.to_int_num_outcome.
  change int_max_str_digits with 4300.
  destruct (digits_of U s) as [|d ds] eqn:Hds.
  - split; [reflexivity|]. split; [congruence|]. simpl. lia.
  - split; [discriminate|]. split.
    + intros _ Hlen. apply Nat.leb_le in Hlen. cbv zeta. now rewrite Hlen.
    + intros Hlen. apply Nat.leb_gt in Hlen. cbv zeta. rewrite Hlen. eauto.
Qed.

Lemma to_int_num_limit_witness :
  4300 < length (digits_of Ucd14.db (lit "$" ++ repeat 0x39%N 4301)) /\
  exists e,
    to_int_num Ucd14.db (Some (lit "$" ++ repeat 0x39%N 4301)) = Raise e.
Proof.
  assert (Hlen : 4300 < length (digits_of Ucd14.db
                                  (lit "$" ++ repeat 0x39%N 4301))).
  { apply Nat.ltb_lt. vm_compute. reflexivity. }
  split; [exact Hlen|].
  exact (proj2 (proj2 (to_int_num_limit Ucd14.db
                         (lit "$" ++ repeat 0x39%N 4301))) Hlen).
Defined.

(** X7. Characters that are no digits do not change what [to_int_num]
    returns: the text and its digits alone give the same result. A sign
    is such a character, so a number returned is never negative. *)
Theorem to_int_num_digits_only : forall (U : Ucd.t) (s : str),
  to_int_num U (Some s) = to_int_num U (Some (digits_of U s)) /\
  (forall n, to_int_num U (Some s) = Ok (Some n) -> (0 <= n)%Z).
Proof.
  intros U s. split.
  - now rewrite !IntMore.to_int_num_outcome, IntMore.digits_of_idem.
  - intros n. rewrite IntMore.to_int_num_outcome.
    destruct (digits_of U s) as [|d ds]; [discriminate|]. cbv zeta.
    destruct (length (d :: ds) <=? int_max_str_digits); [|discriminate].
    intros H. injection H as <-. apply IntMore.number_of_nonneg.
Qed.

Lemma to_int_num_digits_only_witness :
  to_int_num Ucd14.db (Some (lit "-$ 1.200")) = Ok (Some 1200%Z)
  /\ (0 <= 1200)%Z.
Proof.
  assert (H : to_int_num Ucd14.db (Some (lit "-$ 1.200")) = Ok (Some 1200%Z))
    by (vm_compute; reflexivity).
  split; [exact H|].
  exact (proj2 (to_int_num_digits_only Ucd14.db (lit "-$ 1.200")) 1200%Z H).
Defined.

(** X8. With digit values below ten, as in Unicode, the Estimated Amount
    [extract_fields] returns is a number of at most 400 digits: it lies
    between 0 and 10^400. *)
Theorem estimated_amount_bound :
  forall (U : Ucd.t) (text : str) (n : Z),
    decimal_below_ten U ->
    field U text (lit "Monto Estimado") = Some (VInt n) ->
    (0 <= n < 10 ^ 400)%Z.
Proof.
  intros U text n Hten. rewrite FieldFacts.field_amount.
  set (v := find_after U (lit "MONTO ESTIMADO") (normalize_text text) 400).
  pose proof (FieldFacts.find_after_length U (lit "MONTO ESTIMADO")
                (normalize_text text) 400) as Hv. fold v in Hv.
  pose proof (filter_length_le (Ucd.isdecimal U) v) as Hle.
  fold (digits_of U v) in Hle.
  destruct (digits_of U v) as [|d ds] eqn:Hds; [discriminate|].
  intros H. injection H as <-. split; [apply IntMore.number_of_nonneg|].
  pose proof (IntMore.number_of_bound U Hten (d :: ds)) as Hb.
  eapply Z.lt_le_trans; [exact Hb|].
  apply Z.pow_le_mono_r; lia.
Qed.

Lemma estimated_amount_bound_witness :
  decimal_below_ten Ucd14.db /\
  field Ucd14.db (lit "Monto estimado: -1.500 (IVA incl.)") (lit "Monto Estimado")
  = Some (VInt 1500) /\
  (0 <= 1500 < 10 ^ 400)%Z.
Proof.
  assert (Hf : field Ucd14.db (lit "Monto estimado: -1.500 (IVA incl.)")
                 (lit "Monto Estimado") = Some (VInt 1500))
    by (vm_compute; reflexivity).
  split; [exact IntMore.ucd14_below_ten|]. split; [exact Hf|].
  exact (estimated_amount_bound Ucd14.db _ 1500
           IntMore.ucd14_below_ten Hf).
Defined.

(** ** Traces and logs of the extraction *)

Module TraceFacts.

Section WithEnv.

Variables page image : Type.
Variable E : env page image.
Variable P : event image -> Prop.

Lemma traced_ret {A : Type} (a : A) : traced P (ret (image := image) a).
Proof. constructor. Qed.

Lemma traced_call {A : Type} (r : result A) :
  traced P (call (image := image) r).
Proof. constructor. Qed.

Lemma traced_emit (ev : event image) : P ev -> traced P (emit ev).
Proof. intros H. unfold traced, emit. simpl. auto. Qed.

Lemma traced_bind {A B : Type} (m : M image A) (f : A -> M image B) :
  traced P m -> (forall a, traced P (f a)) -> traced P (bind m f).
Proof.
  unfold traced. destruct m as [w [a|e]]; simpl; intros Hm Hf; [|exact Hm].
  specialize (Hf a). destruct (f a) as [w' r]. simpl in *.
  apply Forall_app. auto.
Qed.

Lemma traced_try {A : Type} (m : M image A) (h : exn -> M image A) :
  traced P m -> (forall e, traced P (h e)) -> traced P (try_except m h).
Proof.
  unfold traced. destruct m as [w [a|e]]; simpl; intros Hm Hh; [exact Hm|].
  specialize (Hh e). destruct (h e) as [w' r]. simpl in *.
  apply Forall_app. auto.
Qed.

Lemma traced_for_each {A B : Type} (f : A -> M image B) (l : list A) :
  (forall a, traced P (f a)) -> traced P (for_each f l).
Proof.
  intros Hf. induction l as [|a l IH]; [apply traced_ret|].
  cbn [for_each]. apply traced_bind; [apply Hf|]. intros b.
  apply traced_bind; [exact IH|]. intros bs. apply traced_ret.
Qed.

Hypothesis Hmsg : forall ev, is_message ev -> P ev.

Lemma traced_handler {A : Type} (ev : event image) (a : A) :
  is_message ev -> traced P (bind (emit ev) (fun _ => ret a)).
Proof.
  intros H. apply traced_bind; [apply traced_emit; auto|].
  intros _. apply traced_ret.
Qed.

(** [docx_to_text] leaves nothing but messages. *)
Lemma docx_to_text_traced (f : file_like) : traced P (docx_to_text E f).
Proof.
  unfold docx_to_text. apply traced_bind.
  - unfold docx_to_text_primary. destruct (_docx E) as [Document|];
      [|apply traced_ret].
    destruct (Document f) as [opened f']. apply traced_try.
    + apply traced_bind; [apply traced_call|]. intros d. apply traced_ret.
    + intros e. apply traced_handler. exact I.
  - intros [[text|] f']; [apply traced_ret|]. apply traced_try.
    + unfold docx_zip_xml. apply traced_bind; [apply traced_call|].
      intros xml. apply traced_ret.
    + intros e. apply traced_handler. exact I.
Qed.

(** The layout-aware stage leaves nothing but messages. *)
Lemma pdf_layout_traced (raw : bytes) : traced P (pdf_to_text_layout E raw).
Proof.
  unfold pdf_to_text_layout. destruct (_pdfplumber E) as [open|];
    [|apply traced_ret].
  apply traced_try; [|intros e; apply traced_handler; exact I].
  apply traced_bind; [apply traced_call|]. intros pdf.
  apply traced_bind.
  - apply traced_for_each. intros p.
    apply traced_bind; [apply traced_call|]. intros t. apply traced_ret.
  - intros pages. destruct (nonblank _); apply traced_ret.
Qed.

End WithEnv.

Section Ocr.

Variables page image : Type.
Variable E : env page image.

Lemma message_call_ok (raw : bytes) (ev : event image) :
  is_message ev -> ocr_call_ok raw ev.
Proof. destruct ev; simpl; tauto. Qed.

(** Every OCR call of [pdf_to_text] is made with the document itself, at
    300 DPI, and with the languages spa+eng. *)
Lemma pdf_to_text_calls (raw : bytes) :
  traced (ocr_call_ok raw) (pdf_to_text E raw).
Proof.
  unfold pdf_to_text. apply traced_bind.
  - apply pdf_layout_traced. apply message_call_ok.
  - intros [txt|]; [apply traced_ret|]. unfold pdf_to_text_ocr.
    destruct (_pytesseract E) as [image_to_string|]; [|apply traced_ret].
    destruct (_convert_from_bytes E) as [convert|]; [|apply traced_ret].
    apply traced_try.
    + apply traced_bind; [apply traced_emit; simpl; auto|]. intros _.
      apply traced_bind; [apply traced_call|]. intros images.
      apply traced_bind; [|intros out; apply traced_ret].
      apply traced_for_each. intros img.
      apply traced_bind; [apply traced_emit; reflexivity|].
      intros _. apply traced_call.
    + intros e. apply traced_handler; [apply message_call_ok|exact I].
Qed.

Lemma message_not_ocr (ev : event image) : is_message ev -> is_ocr ev = false.
Proof. destruct ev; simpl; tauto. Qed.

End Ocr.

End TraceFacts.

(** X9. Whatever the environment does, every OCR call [pdf_to_text] makes
    is a rasterisation of the bytes it was given at 300 DPI or a
    recognition with the languages spa+eng. *)
Theorem pdf_ocr_calls_fixed :
  forall (page image : Type) (E : env page image) (raw : bytes)
         (ev : event image),
    In ev (fst (pdf_to_text E raw)) -> ocr_call_ok raw ev.
Proof.
  intros page image E raw ev Hin.
  pose proof (TraceFacts.pdf_to_text_calls page image E raw) as H.
  unfold traced in H. rewrite Forall_forall in H. exact (H ev Hin).
Qed.

Lemma pdf_ocr_calls_fixed_witness :
  In (Rasterize (utf8 "%PDF-1.4") 300%N)
     (fst (pdf_to_text env_scanned (utf8 "%PDF-1.4")))
  /\ ocr_call_ok (utf8 "%PDF-1.4")
       (Rasterize (image := str) (utf8 "%PDF-1.4") 300%N).
Proof.
  assert (Hin : In (Rasterize (utf8 "%PDF-1.4") 300%N)
                   (fst (pdf_to_text env_scanned (utf8 "%PDF-1.4"))))
    by (vm_compute; left; reflexivity).
  split; [exact Hin|].
  exact (pdf_ocr_calls_fixed _ _ env_scanned _ _ Hin).
Defined.

(** X10. For an extension other than pdf [extract_text_any] makes no OCR
    call: a DOCX is read without OCR even where OCR is installed. *)
Theorem no_ocr_outside_pdf :
  forall (page image : Type) (E : env page image) (file_bytes : bytes)
         (ext : str),
    ext <> lit "pdf" -> no_ocr (fst (extract_text_any E file_bytes ext)).
Proof.
  intros page image E file_bytes ext Hpdf ev Hin.
  assert (H : traced (fun ev => is_ocr ev = false)
                     (extract_text_any E file_bytes ext)).
  { unfold extract_text_any. destruct (str_eqb ext (lit "docx")).
    - apply TraceFacts.traced_bind.
      + apply TraceFacts.docx_to_text_traced.
        apply TraceFacts.message_not_ocr.
      + intros text. apply TraceFacts.traced_ret.
    - destruct (str_eqb ext (lit "pdf")) eqn:H2;
        [now apply ExtractFacts.str_eqb_eq in H2|].
      apply TraceFacts.traced_ret. }
  unfold traced in H. rewrite Forall_forall in H. exact (H ev Hin).
Qed.

Lemma no_ocr_outside_pdf_witness :
  lit "docx" <> lit "pdf" /\
  no_ocr (fst (extract_text_any env_scanned (utf8 "PK..") (lit "docx"))).
Proof.
  assert (H : lit "docx" <> lit "pdf") by (vm_compute; discriminate).
  split; [exact H|].
  exact (no_ocr_outside_pdf _ _ env_scanned (utf8 "PK..") (lit "docx") H).
Defined.

Module LogFacts.

Section WithEnv.

Variables page image : Type.
Variable E : env page image.

Lemma success_messages :
  ~ In (lit "DOCX leído (python-docx o fallback ZIP/XML).") failure_messages
  /\ ~ In (lit "Texto extraído (digital u OCR).") failure_messages.
Proof.
  split; vm_compute; intros [H|[H|[H|[]]]]; discriminate.
Qed.

(** The log of a DOCX: one entry, or two when the text is blank. *)
Lemma docx_log (file_bytes : bytes) (w : list (event image)) (text : str)
      (logs : list str) :
  extract_text_any E file_bytes (lit "docx") = (w, Ok (text, logs)) ->
  logs = lit "DOCX leído (python-docx o fallback ZIP/XML)."
           :: (if nonblank text then []
               else [lit "No se pudo extraer texto del DOCX."]).
Proof.
  intros Hrun. rewrite AnyFacts.extract_text_any_docx in Hrun.
  destruct (ExtractFacts.docx_to_text_returns page image E
              (BytesIO file_bytes 0)) as (w1 & t1 & H1).
  rewrite H1 in Hrun.
  generalize dependent (lit "DOCX leído (python-docx o fallback ZIP/XML).").
  generalize (lit "No se pudo extraer texto del DOCX.").
  intros b a Hrun. unfold bind, ret in Hrun.
  injection Hrun as _ Ht Hl. subst t1 logs. now destruct (nonblank text).
Qed.

Lemma extract_text_any_pdf_logs (file_bytes : bytes) :
  exists l1 l2,
    extract_text_any E file_bytes (lit "pdf")
    = bind (pdf_to_text E file_bytes)
           (fun text =>
              if nonblank text
              then ret (text, [l1; l2; lit "Texto extraído (digital u OCR)."])
              else ret ([], [l1; l2; lit "No se pudo extraer texto (ni pdfplumber ni OCR)."])).
Proof.
  unfold extract_text_any.
  replace (str_eqb (lit "pdf") (lit "docx")) with false
    by (vm_compute; reflexivity).
  replace (str_eqb (lit "pdf") (lit "pdf")) with true
    by (vm_compute; reflexivity).
  destruct (is_some (_pdfplumber E));
    destruct (is_some (_pytesseract E) && is_some (_convert_from_bytes E));
    eexists; eexists; reflexivity.
Qed.

(** The log of a PDF: three entries, the last one telling whether a text
    was found; a text that is returned is not blank. *)
Lemma pdf_log (file_bytes : bytes) (w : list (event image)) (text : str)
      (logs : list str) :
  extract_text_any E file_bytes (lit "pdf") = (w, Ok (text, logs)) ->
  exists l1 l2,
    (nonblank text = true /\
     logs = [l1; l2; lit "Texto extraído (digital u OCR)."])
    \/ (text = [] /\
        logs = [l1; l2; lit "No se pudo extraer texto (ni pdfplumber ni OCR)."]).
Proof.
  intros Hrun. destruct (extract_text_any_pdf_logs file_bytes) as (l1 & l2 & Hl).
  rewrite Hl in Hrun. clear Hl.
  destruct (ExtractFacts.pdf_to_text_returns page image E file_bytes)
    as (w1 & t1 & H1).
  rewrite H1 in Hrun.
  generalize dependent (lit "Texto extraído (digital u OCR).").
  generalize (lit "No se pudo extraer texto (ni pdfplumber ni OCR).").
  intros b a Hrun. exists l1, l2. unfold bind in Hrun.
  destruct (nonblank t1) eqn:Ht1; unfold ret in Hrun;
    injection Hrun as _ Ht Hlog; subst text logs; auto.
Qed.

Lemma log_agrees (file_bytes : bytes) (ext : str) (w : list (event image))
      (text : str) (logs : list str) :
  extract_text_any E file_bytes ext = (w, Ok (text, logs)) ->
  (In (last logs []) failure_messages <-> nonblank text = false) /\
  1 <= length logs <= 3.
Proof.
  intros Hrun. destruct success_messages as [Hs1 Hs2].
  destruct (str_eqb ext (lit "docx")) eqn:Hdocx.
  - apply ExtractFacts.str_eqb_eq in Hdocx. subst ext.
    rewrite (docx_log file_bytes w text logs Hrun).
    destruct (nonblank text); cbn [last length]; split; try lia.
    + split; [intros H; now apply Hs1 in H|discriminate].
    + split; [reflexivity|]. intros _. left. reflexivity.
  - destruct (str_eqb ext (lit "pdf")) eqn:Hpdf.
    + apply ExtractFacts.str_eqb_eq in Hpdf. subst ext.
      destruct (pdf_log file_bytes w text logs Hrun)
        as (l1 & l2 & [[Hnb ->]|[-> ->]]); cbn [last length];
        split; try lia.
      * rewrite Hnb. split; [intros H; now apply Hs2 in H|discriminate].
      * split; [reflexivity|]. intros _. right. left. reflexivity.
    + unfold extract_text_any in Hrun. rewrite Hdocx, Hpdf in Hrun.
      set (c := lit "Extensión no soportada.") in Hrun.
      unfold ret in Hrun. injection Hrun as _ <- <-. cbn [last length].
      split; [|lia]. split; [reflexivity|]. intros _. subst c.
      right. right. left. reflexivity.
Qed.

(** [st.error] is shown by [docx_to_text] only when both readers have
    failed, and the result is then the empty text. *)
Lemma docx_error_empty (f : file_like) (msg : str) :
  In (StError msg) (fst (docx_to_text E f)) ->
  snd (docx_to_text E f) = Ok [].
Proof.
  assert (Hno : forall (w : list (event image)) f',
             primary_fails E f f' w -> ~ In (StError msg) w).
  { intros w f' [(_ & _ & ->)|(D & e & _ & _ & ->)] Hin;
      [contradiction|]. destruct Hin as [Hin|[]]. discriminate. }
  destruct (_docx E) as [Document|] eqn:Hlib.
  - destruct (Document f) as [[document|e] f'] eqn:Hdoc.
    + rewrite (DocxFacts.primary_ok page image E f f' Document document
                 Hlib Hdoc). intros [].
    + assert (Hfail : primary_fails E f f'
                        [StWarning (lit "No se pudo leer DOCX con python-docx: "
                                    ++ exn_str e)])
        by (right; exists Document, e; auto).
      rewrite (DocxFacts.primary_fails_fallback page image E f f' _ Hfail).
      destruct (zip_read E _ _); [|reflexivity].
      intros Hin. now apply (Hno _ _ Hfail) in Hin.
  - assert (Hfail : primary_fails E f f []) by (left; auto).
    rewrite (DocxFacts.primary_fails_fallback page image E f f _ Hfail).
    destruct (zip_read E _ _); [|reflexivity]. intros [].
Qed.

End WithEnv.

End LogFacts.

(** X11. In every result of [extract_text_any] the log has one to three
    entries, and its last entry is a failure message exactly when the
    returned text is blank: log and text never disagree. *)
Theorem log_tells_the_outcome :
  forall (page image : Type) (E : env page image) (file_bytes : bytes)
         (ext : str) (w : list (event image)) (text : str) (logs : list str),
    extract_text_any E file_bytes ext = (w, Ok (text, logs)) ->
    (In (last logs []) failure_messages <-> nonblank text = false) /\
    1 <= length logs <= 3.
Proof. exact LogFacts.log_agrees. Qed.

Lemma log_tells_the_outcome_witness :
  extract_text_any env_docx (utf8 "PK..") (lit "docx")
  = ([], Ok (lines ["Solicitud"; "NOMBRE: Ana"; "Item | Monto"; "Sillas | 1000"],
             [lit "DOCX leído (python-docx o fallback ZIP/XML)."]))
  /\ ~ In (last [lit "DOCX leído (python-docx o fallback ZIP/XML)."] [])
          failure_messages.
Proof.
  assert (Hrun : extract_text_any env_docx (utf8 "PK..") (lit "docx")
                 = ([], Ok (lines ["Solicitud"; "NOMBRE: Ana"; "Item | Monto";
                                   "Sillas | 1000"],
                            [lit "DOCX leído (python-docx o fallback ZIP/XML)."])))
    by (vm_compute; reflexivity).
  assert (Hnb : nonblank (lines ["Solicitud"; "NOMBRE: Ana"; "Item | Monto";
                                 "Sillas | 1000"]) = true)
    by (vm_compute; reflexivity).
  split; [exact Hrun|]. intros Hin.
  apply (proj1 (log_tells_the_outcome _ _ _ _ _ _ _ _ Hrun)) in Hin.
  rewrite Hnb in Hin. discriminate.
Defined.

(** X12. When [docx_to_text] shows an error message ([st.error]), both
    readers have failed and the text it returns is empty. *)
Theorem docx_error_means_empty :
  forall (page image : Type) (E : env page image) (f : file_like) (msg : str),
    In (StError msg) (fst (docx_to_text E f)) ->
    snd (docx_to_text E f) = Ok [].
Proof. exact LogFacts.docx_error_empty. Qed.

Lemma docx_error_means_empty_witness :
  In (StError (lit "No se pudo leer el DOCX (fallback ZIP/XML): File is not a zip file"))
     (fst (docx_to_text env_bare (BytesIO (utf8 "hola") 0)))
  /\ snd (docx_to_text env_bare (BytesIO (utf8 "hola") 0)) = Ok [].
Proof.
  assert (Hin : In (StError (lit "No se pudo leer el DOCX (fallback ZIP/XML): File is not a zip file"))
                   (fst (docx_to_text env_bare (BytesIO (utf8 "hola") 0))))
    by (left; vm_compute; reflexivity).
  split; [exact Hin|].
  exact (docx_error_means_empty _ _ env_bare _ _ Hin).
Defined.

(** ** The text of a DOCX *)

Module DocxMore.

Lemma split_one_line (s : str) : one_line s -> split nl s = [s].
Proof.
  induction 1 as [|c s Hc _ IH]; [reflexivity|]. simpl.
  unfold is_nl in Hc. now rewrite Hc, IH.
Qed.

Lemma split_app_nl (a b : str) :
  one_line a -> split nl (a ++ nl :: b) = a :: split nl b.
Proof.
  induction 1 as [|c a Hc _ IH]; [reflexivity|]. simpl.
  unfold is_nl in Hc. now rewrite Hc, IH.
Qed.

(** Joining lines by line breaks and splitting again gives the lines. *)
Lemma split_join (parts : list str) :
  parts <> [] -> Forall one_line parts ->
  split nl (join [nl] parts) = parts.
Proof.
  intros Hne H. induction H as [|p ps Hp Hps IH]; [congruence|].
  destruct ps as [|q ps]; [now apply split_one_line|].
  change (join [nl] (p :: q :: ps)) with (p ++ nl :: join [nl] (q :: ps)).
  rewrite (split_app_nl _ _ Hp). f_equal. apply IH. discriminate.
Qed.

Lemma join_one_line (sep : str) (parts : list str) :
  one_line sep -> Forall one_line parts -> one_line (join sep parts).
Proof.
  intros Hsep H. induction H as [|p ps Hp Hps IH]; [constructor|].
  destruct ps as [|q ps]; [exact Hp|].
  change (join sep (p :: q :: ps)) with (p ++ sep ++ join sep (q :: ps)).
  unfold one_line in *. rewrite !Forall_app. auto.
Qed.

Lemma docx_parts_one_line (document : docx_document) :
  Forall one_line (paragraphs document) ->
  Forall (Forall (Forall one_line)) (tables document) ->
  Forall one_line (docx_parts document).
Proof.
  intros Hp Ht. unfold docx_parts. apply Forall_app. split; [exact Hp|].
  apply Forall_flat_map. eapply Forall_impl; [|exact Ht].
  intros t Hrows. apply Forall_map. eapply Forall_impl; [|exact Hrows].
  intros row Hcells. apply join_one_line.
  - apply FindFacts.no_nl_forallb. vm_compute. reflexivity.
  - apply Forall_map. eapply Forall_impl; [|exact Hcells].
    intros cell Hcell. now apply FindMore.strip_no_nl.
Qed.

Lemma one_line_all (l : list str) :
  forallb (forallb (fun c => negb (is_nl c))) l = true ->
  Forall one_line l.
Proof.
  intros H. apply Forall_forall. intros s Hs.
  rewrite forallb_forall in H. apply FindFacts.no_nl_forallb. now apply H.
Qed.

Lemma one_line_tables (l : list (list (list str))) :
  forallb (forallb (forallb (forallb (fun c => negb (is_nl c))))) l = true ->
  Forall (Forall (Forall one_line)) l.
Proof.
  intros H. apply Forall_forall. intros t Ht.
  rewrite forallb_forall in H. specialize (H t Ht).
  apply Forall_forall. intros row Hrow.
  rewrite forallb_forall in H. now apply one_line_all, H.
Qed.

End DocxMore.

(** X13. When python-docx reads a document that has at least one
    paragraph or table row, and no paragraph or cell text holds a line
    break, the lines of the text [docx_to_text] returns are the
    paragraphs followed by the table rows, one line each, in order. *)
Theorem docx_one_line_per_part :
  forall (page image : Type) (E : env page image) (f f' : file_like)
         (Document : file_like -> result docx_document * file_like)
         (document : docx_document),
    _docx E = Some Document -> Document f = (Ok document, f') ->
    docx_parts document <> [] ->
    Forall one_line (paragraphs document) ->
    Forall (Forall (Forall one_line)) (tables document) ->
    exists text,
      snd (docx_to_text E f) = Ok text /\
      split nl text = docx_parts document.
Proof.
  intros page image E f f' Document document Hlib Hdoc Hne Hp Ht.
  rewrite (DocxFacts.primary_ok page image E f f' Document document Hlib Hdoc).
  eexists. split; [reflexivity|].
  apply DocxMore.split_join; [exact Hne|].
  now apply DocxMore.docx_parts_one_line.
Qed.

Lemma docx_one_line_per_part_witness :
  exists text,
    snd (docx_to_text env_docx (BytesIO (utf8 "PK..") 0)) = Ok text /\
    split nl text
    = docx_parts {| paragraphs := [lit "Solicitud"; lit "NOMBRE: Ana"];
                    tables := [[[lit " Item "; lit "Monto"];
                                [lit "Sillas"; lit " 1000 "]]] |}.
Proof.
  apply (docx_one_line_per_part _ _ env_docx
           (BytesIO (utf8 "PK..") 0) (BytesIO (utf8 "PK..") 0)
           (fun f => (Ok {| paragraphs := [lit "Solicitud"; lit "NOMBRE: Ana"];
                            tables := [[[lit " Item "; lit "Monto"];
                                        [lit "Sillas"; lit " 1000 "]]] |}, f))
           {| paragraphs := [lit "Solicitud"; lit "NOMBRE: Ana"];
              tables := [[[lit " Item "; lit "Monto"];
                          [lit "Sillas"; lit " 1000 "]]] |}
           eq_refl eq_refl).
  - intros H. apply (f_equal (@length str)) in H. revert H.
    vm_compute. discriminate.
  - apply DocxMore.one_line_all. vm_compute. reflexivity.
  - apply DocxMore.one_line_tables. vm_compute. reflexivity.
Defined.

(** ** The text of the fallback DOCX reader *)

Module TagFacts.

Import ReFacts SubFacts.

Lemma run_nil_of_never_empty (r : regex) : never_empty r -> run r [] = [].
Proof.
  intros Hne. destruct (run r []) as [|[g rest] tl] eqn:Hrun; [reflexivity|].
  assert (Hin : In (g, rest) (run r [])) by (rewrite Hrun; now left).
  apply run_sound in Hin as (u & Hu & Hm).
  symmetry in Hu. apply app_eq_nil in Hu as [-> _]. now apply Hne in Hm.
Qed.

(** How [re.sub] walks a text when the pattern matches no empty text:
    it copies a character where no match starts, and puts the
    replacement for the first match the engine finds where one starts. *)
Lemma sub_never_empty_ind (r : regex) (repl : str) (Q : str -> str -> Prop) :
  never_empty r ->
  Q [] [] ->
  (forall c s o,
     (forall u post, c :: s = u ++ post -> ~ matches r u) ->
     Q s o -> Q (c :: s) (c :: o)) ->
  (forall m rest o g tl,
     m <> [] -> matches r m -> run r (m ++ rest) = (g, rest) :: tl ->
     Q rest o -> Q (m ++ rest) (repl ++ o)) ->
  forall s, Q s (sub r repl s).
Proof.
  intros Hne Hnil Hcopy Hrepl s.
  remember (length s) as n eqn:Hn. revert s Hn.
  induction n as [n IH] using lt_wf_ind. intros s Hn.
  destruct s as [|c s].
  - unfold sub. simpl. rewrite (run_nil_of_never_empty r Hne). exact Hnil.
  - unfold sub. rewrite sub_from_cons.
    destruct (run r (c :: s)) as [|[g rest] tl] eqn:Hrun.
    + apply Hcopy; [now apply run_nil_no_prefix|].
      apply (IH (length s)); [subst n; simpl; lia|reflexivity].
    + assert (Hin : In (g, rest) (run r (c :: s))) by (rewrite Hrun; now left).
      apply run_sound in Hin as (u & Hu & Hm).
      destruct u as [|d u]; [now apply Hne in Hm|].
      simpl in Hu. injection Hu as <- ->. cbn [snd].
      replace (length (c :: u ++ rest) - length rest) with (S (length u))
        by (cbn [length]; rewrite length_app; lia).
      rewrite sub_from_skip.
      apply (Hrepl (c :: u) rest _ g tl); [discriminate|exact Hm|exact Hrun|].
      apply (IH (length rest)); [subst n; simpl; rewrite length_app; lia|].
      reflexivity.
Qed.

Lemma tag_form (m : str) :
  matches re_tag m ->
  exists u, m = 0x3C%N :: u ++ [0x3E%N] /\ u <> [] /\
            Forall (fun c => negb (c =? 0x3E)%N = true) u.
Proof.
  unfold re_tag, seq. cbn [fold_right]. intros H.
  inversion H as [| | |r1 r2 a b Ha Hb|]; subst; clear H.
  inversion Ha as [|p c Hc| | |]; subst; clear Ha.
  inversion Hb as [| | |r1 r2 u v Hu Hv|]; subst; clear Hb.
  inversion Hu as [| |p lo hi u' HF Hlo Hhi| |]; subst; clear Hu.
  inversion Hv as [| | |r1 r2 x y Hx Hy|]; subst; clear Hv.
  inversion Hx as [|p d Hd| | |]; subst; clear Hx.
  inversion Hy; subst; clear Hy.
  apply N.eqb_eq in Hc, Hd. subst c d.
  exists u. split; [reflexivity|]. split; [|exact HF].
  intros ->. simpl in Hlo. lia.
Qed.

Lemma tag_matches (u : str) :
  u <> [] -> Forall (fun c => negb (c =? 0x3E)%N = true) u ->
  matches re_tag (0x3C%N :: u ++ [0x3E%N]).
Proof.
  intros Hne Hu. unfold re_tag, seq. cbn [fold_right].
  change (0x3C%N :: u ++ [0x3E%N]) with ([0x3C%N] ++ u ++ [0x3E%N] ++ []).
  apply MCat; [now constructor|].
  apply MCat; [|apply MCat; [now constructor|constructor]].
  constructor; [exact Hu| |exact I].
  destruct u; [congruence|simpl; lia].
Qed.

Lemma tag_at_prefix (s : str) :
  tag_at s <-> exists m post, s = m ++ post /\ matches re_tag m.
Proof.
  split.
  - intros (u & rest & -> & Hne & Hu).
    exists (0x3C%N :: u ++ [0x3E%N]), rest.
    split; [simpl; now rewrite <- app_assoc|now apply tag_matches].
  - intros (m & post & -> & Hm). apply tag_form in Hm as (u & -> & Hne & Hu).
    exists u, post. split; [simpl; now rewrite <- app_assoc|auto].
Qed.

Lemma tag_never_empty : never_empty re_tag.
Proof. intros m Hm. apply tag_form in Hm as (u & -> & _). discriminate. Qed.

Lemma tag_free_no_match (t : str) : tag_free t -> no_match re_tag t.
Proof.
  intros Hfree pre m post -> Hm. apply (Hfree pre (m ++ post) eq_refl).
  apply tag_at_prefix. now exists m, post.
Qed.

Lemma tag_free_tail (pre s : str) : tag_free (pre ++ s) -> tag_free s.
Proof.
  intros H pre' x -> Htag. apply (H (pre ++ pre') x); [|exact Htag].
  now rewrite app_assoc.
Qed.

Lemma space_nl_form (m : str) :
  matches re_space_nl m ->
  exists a, m = a ++ [nl] /\ a <> [] /\ Forall (fun c => isspace c = true) a.
Proof.
  unfold re_space_nl, seq. cbn [fold_right]. intros H.
  inversion H as [| | |r1 r2 a b Ha Hb|]; subst; clear H.
  inversion Ha as [| |p lo hi u' HF Hlo Hhi| |]; subst; clear Ha.
  inversion Hb as [| | |r1 r2 x y Hx Hy|]; subst; clear Hb.
  inversion Hx as [|p d Hd| | |]; subst; clear Hx.
  inversion Hy; subst; clear Hy.
  apply N.eqb_eq in Hd. subst d.
  exists a. split; [reflexivity|]. split; [|exact HF].
  intros ->. simpl in Hlo. lia.
Qed.

Lemma space_nl_matches (a : str) :
  a <> [] -> Forall (fun c => isspace c = true) a ->
  matches re_space_nl (a ++ [nl]).
Proof.
  intros Hne Ha. unfold re_space_nl, seq. cbn [fold_right].
  change (a ++ [nl]) with (a ++ [nl] ++ []).
  apply MCat; [|apply MCat; [now constructor|constructor]].
  constructor; [exact Ha| |exact I].
  destruct a; [congruence|simpl; lia].
Qed.

Lemma space_nl_never_empty : never_empty re_space_nl.
Proof.
  intros m Hm. apply space_nl_form in Hm as (a & -> & _).
  now destruct a.
Qed.

(** The first [>] of a text that holds one. *)
Lemma first_gt (s : str) :
  In 0x3E%N s ->
  exists v r, s = v ++ 0x3E%N :: r /\
              Forall (fun c => negb (c =? 0x3E)%N = true) v.
Proof.
  intros Hin.
  destruct (span_exists (fun c => negb (c =? 0x3E)%N) s)
    as (v & rest & -> & Hv & Hstop).
  destruct rest as [|d r].
  - rewrite app_nil_r in Hin. rewrite Forall_forall in Hv.
    apply Hv in Hin. discriminate.
  - simpl in Hstop. apply negb_false_iff, N.eqb_eq in Hstop. subst d.
    now exists v, r.
Qed.

(** A character put before a text without tags makes no tag, when no tag
    started there in the text the output was made from. *)
Lemma tag_free_cons (c : char) (s o : str) :
  ~ tag_at (c :: s) ->
  (In 0x3E%N o -> In 0x3E%N s) ->
  (forall s', s = 0x3E%N :: s' -> exists o', o = 0x3E%N :: o') ->
  tag_free o -> tag_free (c :: o).
Proof.
  intros Hno Hin Hhead Hfree pre x Heq Htag.
  destruct pre as [|c0 pre]; simpl in Heq.
  - subst x. destruct Htag as (u & rest & Hx & Hne & Hu).
    injection Hx as -> Ho.
    assert (Hg : In 0x3E%N o) by (rewrite Ho; apply in_elt).
    apply Hin, first_gt in Hg as (v & r & -> & Hv).
    destruct v as [|d v].
    + destruct (Hhead r eq_refl) as [o' Ho']. rewrite Ho' in Ho.
      destruct u as [|e u]; [congruence|]. injection Ho as <- _.
      inversion Hu as [|? ? He _]; subst. discriminate He.
    + apply Hno. exists (d :: v), r. repeat split; [discriminate|exact Hv].
  - injection Heq as _ ->. exact (Hfree pre x eq_refl Htag).
Qed.

(** Removing the tags leaves no tag, also none made of the pieces around
    a tag removed. *)
Lemma sub_tag_free (s : str) :
  (forall c, In c (sub re_tag [] s) -> In c s) /\
  (forall s', s = 0x3E%N :: s' -> exists o', sub re_tag [] s = 0x3E%N :: o') /\
  tag_free (sub re_tag [] s).
Proof.
  apply (sub_never_empty_ind re_tag []
           (fun s o =>
              (forall c, In c o -> In c s) /\
              (forall s', s = 0x3E%N :: s' -> exists o', o = 0x3E%N :: o') /\
              tag_free o) tag_never_empty).
  - split; [auto|]. split; [discriminate|].
    intros pre x Heq (u & rest & -> & _). now destruct pre.
  - intros c s0 o Hno (Hin & Hhead & Hfree). split; [|split].
    + intros d [<-|Hd]; [now left|right; auto].
    + intros s' Heq. injection Heq as -> _. now exists o.
    + apply (tag_free_cons c s0 o); auto.
      intros Htag. apply tag_at_prefix in Htag as (m & post & Heq & Hm).
      exact (Hno m post Heq Hm).
  - intros m rest o g tl Hne Hm Hrun (Hin & Hhead & Hfree).
    cbn [app]. split; [|split].
    + intros d Hd. apply in_or_app. right. auto.
    + intros s' Heq. apply tag_form in Hm as (u & -> & _). discriminate.
    + exact Hfree.
Qed.

(** Replacing whitespace before line breaks makes no tag. *)
Lemma sub_space_nl_tag_free (s : str) :
  tag_free s -> tag_free (sub re_space_nl [nl] s).
Proof.
  enough (H : (forall c, In c (sub re_space_nl [nl] s) -> In c s \/ c = nl) /\
              (forall s', s = 0x3E%N :: s' ->
                          exists o', sub re_space_nl [nl] s = 0x3E%N :: o') /\
              (tag_free s -> tag_free (sub re_space_nl [nl] s)))
    by apply H.
  apply (sub_never_empty_ind re_space_nl [nl]
           (fun s o =>
              (forall c, In c o -> In c s \/ c = nl) /\
              (forall s', s = 0x3E%N :: s' -> exists o', o = 0x3E%N :: o') /\
              (tag_free s -> tag_free o)) space_nl_never_empty).
  - split; [auto|]. split; [discriminate|auto].
  - intros c s0 o Hno (Hin & Hhead & Hpres). split; [|split].
    + intros d [<-|Hd]; [left; now left|].
      destruct (Hin d Hd) as [H| ->]; [left; now right|now right].
    + intros s' Heq. injection Heq as -> _. now exists o.
    + intros Hfree. apply (tag_free_cons c s0 o).
      * exact (Hfree [] (c :: s0) eq_refl).
      * intros Hg. destruct (Hin _ Hg) as [H|H]; [exact H|discriminate H].
      * exact Hhead.
      * apply Hpres. exact (tag_free_tail [c] s0 Hfree).
  - intros m rest o g tl Hne Hm Hrun (Hin & Hhead & Hpres).
    apply space_nl_form in Hm as (a & -> & Ha & Hsp).
    split; [|split].
    + intros d [<-|Hd]; [now right|].
      destruct (Hin d Hd) as [H| ->]; [left|now right].
      apply in_or_app. now right.
    + intros s' Heq. destruct a as [|e a]; [congruence|].
      injection Heq as -> _. inversion Hsp as [|? ? He _]; subst.
      discriminate He.
    + intros Hfree pre x Heq Htag. destruct pre as [|c0 pre]; simpl in Heq.
      * subst x. destruct Htag as (u & r & Hx & _). discriminate Hx.
      * injection Heq as _ ->.
        exact (Hpres (tag_free_tail _ _ Hfree) pre x eq_refl Htag).
Qed.

Lemma flat_map_head {A B : Type} (f : A -> list B) (l : list A)
      (y : B) (tl : list B) :
  flat_map f l = y :: tl ->
  exists l1 x l2 tl',
    l = l1 ++ x :: l2 /\ Forall (fun z => f z = []) l1 /\ f x = y :: tl'.
Proof.
  induction l as [|a l IH]; simpl; [discriminate|].
  destruct (f a) as [|b bs] eqn:Hf; simpl; intros H.
  - destruct (IH H) as (l1 & x & l2 & tl' & -> & Hl1 & Hx).
    exists (a :: l1), x, l2, tl'. repeat split; auto.
  - injection H as -> _. exists [], a, l, bs. auto.
Qed.

(** A greedy repeat lists the remainders of longer runs first. *)
Lemma reps_longer_first (p : char -> bool) (s : str) :
  forall lo l1 x l2,
    reps p lo None s = l1 ++ x :: l2 ->
    forall u r, s = u ++ r -> Forall (fun c => p c = true) u ->
                lo <= length u -> length r < length x -> In r l1.
Proof.
  induction s as [|c s IH]; intros lo l1 x l2 Heq u r Hs Hu Hlo Hlen.
  - assert (Hx : In x (reps p lo None [])) by (rewrite Heq; apply in_elt).
    apply reps_In in Hx as (u' & Hu' & _).
    symmetry in Hu'. apply app_eq_nil in Hu' as [_ ->]. simpl in Hlen. lia.
  - assert (Hx : In x (reps p lo None (c :: s)))
      by (rewrite Heq; apply in_elt).
    apply reps_In in Hx as (ux & Hux & _).
    apply (f_equal (@length char)) in Hux. rewrite length_app in Hux.
    destruct u as [|d u].
    + simpl in Hs. subst r. lia.
    + simpl in Hs. injection Hs as <- ->.
      inversion Hu as [|? ? Hc Hu']; subst.
      assert (Hr : In r (reps p (pred lo) None (u ++ r))).
      { apply reps_In. exists u. simpl in Hlo. repeat split; auto. lia. }
      cbn [reps] in Heq. rewrite Hc in Heq. cbn [more andb dec option_map] in Heq.
      apply app_eq_app in Heq as [l [[HA HB]|[HA HB]]].
      * destruct l as [|x' l].
        -- rewrite app_nil_r in HA. now rewrite <- HA.
        -- injection HB as <- _.
           apply (IH (pred lo) l1 x l HA u r eq_refl Hu'); [|exact Hlen].
           simpl in Hlo. lia.
      * rewrite HA. apply in_or_app. now left.
Qed.

Lemma flat_map_map {A B C : Type} (f : B -> list C) (g : A -> B)
      (l : list A) :
  flat_map f (map g l) = flat_map (fun x => f (g x)) l.
Proof. induction l as [|a l IH]; simpl; [reflexivity|now rewrite IH]. Qed.

Lemma run_space_nl (s : str) :
  run re_space_nl s
  = flat_map (fun x => match x with
                       | c :: x' => if is_nl c then [([], x')] else []
                       | [] => []
                       end) (reps isspace 1 None s).
Proof.
  unfold re_space_nl, seq. cbn [fold_right run].
  rewrite flat_map_map. apply flat_map_ext. intros [|c x']; [reflexivity|].
  cbn. destruct (is_nl c); reflexivity.
Qed.

(** The match [\s+\n] takes at a position is the longest there is: no
    whitespace and line break follow it. *)
Lemma space_nl_longest (s : str) (g : list str) (rest : str)
      (tl : list (list str * str)) :
  run re_space_nl s = (g, rest) :: tl ->
  forall a rest', rest = a ++ nl :: rest' ->
                  Forall (fun c => isspace c = true) a -> False.
Proof.
  rewrite run_space_nl. intros Hrun a rest' -> Ha.
  apply flat_map_head in Hrun as (l1 & x & l2 & tl' & Hl & Hl1 & Hx).
  destruct x as [|c x']; [discriminate|].
  destruct (is_nl c) eqn:Hc; [|discriminate].
  injection Hx as _ -> _. apply N.eqb_eq in Hc. subst c.
  assert (Hin : In (nl :: a ++ nl :: rest') (reps isspace 1 None s))
    by (rewrite Hl; apply in_elt).
  apply reps_In in Hin as (ux & Hs & Hux & Hlo & _).
  assert (Hr : In (nl :: rest') l1).
  { apply (reps_longer_first isspace s 1 l1 _ l2 Hl (ux ++ nl :: a) (nl :: rest')).
    - rewrite Hs, <- app_assoc. reflexivity.
    - apply Forall_app. split; [exact Hux|]. now constructor.
    - rewrite length_app. lia.
    - simpl. rewrite length_app. simpl. lia. }
  rewrite Forall_forall in Hl1. apply Hl1 in Hr. discriminate Hr.
Qed.

(** After the substitution no whitespace stands before a line break. *)
Lemma sub_space_nl_clean (s : str) :
  no_space_before_nl (sub re_space_nl [nl] s).
Proof.
  enough (H : (forall o', sub re_space_nl [nl] s = nl :: o' ->
                          exists a rest, s = a ++ nl :: rest /\
                                         Forall (fun c => isspace c = true) a) /\
              no_space_before_nl (sub re_space_nl [nl] s)) by apply H.
  apply (sub_never_empty_ind re_space_nl [nl]
           (fun s o =>
              (forall o', o = nl :: o' ->
                          exists a rest, s = a ++ nl :: rest /\
                                         Forall (fun c => isspace c = true) a) /\
              no_space_before_nl o) space_nl_never_empty).
  - split; [discriminate|]. intros pre x post Heq. now destruct pre.
  - intros c s0 o Hno (Hhead & Hclean). split.
    + intros o' Heq. injection Heq as -> _. exists [], s0. now split.
    + intros pre x post Heq. destruct pre as [|c0 pre]; simpl in Heq.
      * injection Heq as <- Ho. destruct (Hhead post Ho) as (a & rest & -> & Ha).
        destruct (isspace c) eqn:Hc; [exfalso|reflexivity].
        apply (Hno ((c :: a) ++ [nl]) rest).
        -- simpl. now rewrite <- app_assoc.
        -- apply space_nl_matches; [discriminate|now constructor].
      * injection Heq as _ Ho. exact (Hclean pre x post Ho).
  - intros m rest o g tl Hne Hm Hrun (Hhead & Hclean).
    apply space_nl_form in Hm as (a & -> & Ha & Hsp). split.
    + intros o' _. exists a, rest. split; [now rewrite <- app_assoc|exact Hsp].
    + intros pre x post Heq. destruct pre as [|c0 pre]; simpl in Heq.
      * exfalso. injection Heq as _ Ho.
        destruct (Hhead post Ho) as (a' & rest' & Hrest & Ha').
        exact (space_nl_longest _ g rest tl Hrun a' rest' Hrest Ha').
      * injection Heq as _ Ho. exact (Hclean pre x post Ho).
Qed.

Lemma clean_no_match (t : str) :
  no_space_before_nl t -> no_match re_space_nl t.
Proof.
  intros Hclean pre m post -> Hm.
  apply space_nl_form in Hm as (a & -> & Ha & Hsp).
  destruct (exists_last Ha) as (a' & x & ->).
  apply Forall_app in Hsp as [_ Hx]. inversion Hx as [|? ? Hx' _]; subst.
  rewrite (Hclean (pre ++ a') x post) in Hx'; [discriminate|].
  now rewrite <- !app_assoc.
Qed.

End TagFacts.

(** X14. The text the fallback DOCX reader returns holds no markup tag:
    the pattern [<[^>]+>] matches nowhere in it, also not across the
    places where a tag was removed. *)
Theorem docx_fallback_no_tags :
  forall (page image : Type) (E : env page image) (f f' : file_like)
         (w : list (event image)) (xml : bytes),
    primary_fails E f f' w ->
    zip_read E (read_all f') (lit "word/document.xml") = Ok xml ->
    exists text,
      snd (docx_to_text E f) = Ok text /\ no_match re_tag text.
Proof.
  intros page image E f f' w xml Hfail Hzip.
  rewrite (DocxFacts.primary_fails_fallback page image E f f' w Hfail), Hzip.
  eexists. split; [reflexivity|].
  apply TagFacts.tag_free_no_match, TagFacts.sub_space_nl_tag_free.
  apply TagFacts.sub_tag_free.
Qed.

Lemma docx_fallback_no_tags_witness :
  primary_fails env_docx_fallback_rewound
    (BytesIO (utf8 "<w:p><w:r>a <<b>i></w:r></w:p><w:p>c</w:p>") 0)
    (BytesIO (utf8 "<w:p><w:r>a <<b>i></w:r></w:p><w:p>c</w:p>") 0)
    [StWarning (lit "No se pudo leer DOCX con python-docx: Package not found")]
  /\ exists text,
       snd (docx_to_text env_docx_fallback_rewound
              (BytesIO (utf8 "<w:p><w:r>a <<b>i></w:r></w:p><w:p>c</w:p>") 0))
       = Ok text /\ no_match re_tag text.
Proof.
  assert (Hfail : primary_fails env_docx_fallback_rewound
            (BytesIO (utf8 "<w:p><w:r>a <<b>i></w:r></w:p><w:p>c</w:p>") 0)
            (BytesIO (utf8 "<w:p><w:r>a <<b>i></w:r></w:p><w:p>c</w:p>") 0)
            [StWarning
               (lit "No se pudo leer DOCX con python-docx: Package not found")]).
  { right. eexists. exists (Exception (lit "Package not found")).
    split; [reflexivity|]. split; [reflexivity|]. vm_compute. reflexivity. }
  assert (Hzip : zip_read env_docx_fallback_rewound
                   (read_all
                      (BytesIO
                         (utf8 "<w:p><w:r>a <<b>i></w:r></w:p><w:p>c</w:p>") 0))
                   (lit "word/document.xml")
                 = Ok (utf8 "<w:p><w:r>a <<b>i></w:r></w:p><w:p>c</w:p>"))
    by (vm_compute; reflexivity).
  split; [exact Hfail|].
  exact (docx_fallback_no_tags _ _ env_docx_fallback_rewound _ _ _ _ Hfail Hzip).
Defined.

(** X15. In the text the fallback DOCX reader returns no line break
    follows a whitespace character: no line ends in whitespace and no
    line but the first is empty, and the pattern [\s+\n] matches nowhere
    in it. *)
Theorem docx_fallback_line_ends :
  forall (page image : Type) (E : env page image) (f f' : file_like)
         (w : list (event image)) (xml : bytes),
    primary_fails E f f' w ->
    zip_read E (read_all f') (lit "word/document.xml") = Ok xml ->
    exists text,
      snd (docx_to_text E f) = Ok text /\
      no_space_before_nl text /\ no_match re_space_nl text.
Proof.
  intros page image E f f' w xml Hfail Hzip.
  rewrite (DocxFacts.primary_fails_fallback page image E f f' w Hfail), Hzip.
  eexists. split; [reflexivity|].
  split; [|apply TagFacts.clean_no_match]; apply TagFacts.sub_space_nl_clean.
Qed.

Lemma docx_fallback_line_ends_witness :
  primary_fails env_docx_fallback_rewound
    (BytesIO (utf8 "<w:p>NOMBRE:  </w:p>  <w:p></w:p><w:p>Ana </w:p>") 0)
    (BytesIO (utf8 "<w:p>NOMBRE:  </w:p>  <w:p></w:p><w:p>Ana </w:p>") 0)
    [StWarning (lit "No se pudo leer DOCX con python-docx: Package not found")]
  /\ exists text,
       snd (docx_to_text env_docx_fallback_rewound
              (BytesIO (utf8 "<w:p>NOMBRE:  </w:p>  <w:p></w:p><w:p>Ana </w:p>")
                       0))
       = Ok text /\ no_space_before_nl text /\ no_match re_space_nl text.
Proof.
  assert (Hfail : primary_fails env_docx_fallback_rewound
            (BytesIO (utf8 "<w:p>NOMBRE:  </w:p>  <w:p></w:p><w:p>Ana </w:p>") 0)
            (BytesIO (utf8 "<w:p>NOMBRE:  </w:p>  <w:p></w:p><w:p>Ana </w:p>") 0)
            [StWarning
               (lit "No se pudo leer DOCX con python-docx: Package not found")]).
  { right. eexists. exists (Exception (lit "Package not found")).
    split; [reflexivity|]. split; [reflexivity|]. vm_compute. reflexivity. }
  assert (Hzip : zip_read env_docx_fallback_rewound
                   (read_all
                      (BytesIO
                         (utf8 "<w:p>NOMBRE:  </w:p>  <w:p></w:p><w:p>Ana </w:p>")
                         0))
                   (lit "word/document.xml")
                 = Ok (utf8 "<w:p>NOMBRE:  </w:p>  <w:p></w:p><w:p>Ana </w:p>"))
    by (vm_compute; reflexivity).
  split; [exact Hfail|].
  exact (docx_fallback_line_ends _ _ env_docx_fallback_rewound _ _ _ _
           Hfail Hzip).
Defined.
